(** * Double Bar visualization: layout and scale derivation

    A shallow embedding of [src/examples/double_bar/double_bar.ts] and of the
    parts of d3 (d3-array [extent], d3-scale [scaleLinear] and [scaleBand],
    d3-selection) and of the browser (text measurement) that the file calls.

    Conventions of the model.
    - A JavaScript number of the layout is [num]: either a finite value, kept
      as an exact rational (no binary64 rounding, no infinities), or [NaN].
      The layout only ever divides by a nonzero constant, by a value it has
      tested to be nonzero or by [Math.max(1, _)].  The properties of the
      layout are stated in the operations of the code, or as orderings, and
      do not rest on the rounding.
    - The ratio of the tooltip is computed and printed in binary64 ([F64]):
      its digits depend on the rounding.
    - A [TypeError] is the result [Throw]; the instance as the throw leaves it
      is not kept.
    - A JavaScript string is a [string]; each character stands for one UTF-16
      code unit.  The ellipsis U+2026 is the constant [ellipsis]; it is only
      appended and measured, never sliced.
    - The scene is the [svg] element with its children in document order; a
      child is a [node] carrying an identity [nid] (what a retained d3
      selection refers to) and its own children [kids]. *)

From Stdlib Require Import QArith Qabs Qround Qpower Lqa Lia ZArith List String Ascii Bool Arith.
From Stdlib Require Import DecimalString.
Import ListNotations.
Open Scope Q_scope.

Set Implicit Arguments.

(* ================================================================== *)
(** ** JavaScript numbers *)

Module Num.

Inductive num : Type :=
| Fin (q : Q)
| NaN.

(** Same-value comparison of two numbers (finite values up to [==]). *)
Definition same (a b : num) : Prop :=
  match a, b with
  | Fin x, Fin y => x == y
  | NaN, NaN => True
  | _, _ => False
  end.

Definition lift2 (f : Q -> Q -> Q) (a b : num) : num :=
  match a, b with
  | Fin x, Fin y => Fin (f x y)
  | _, _ => NaN
  end.

Definition add := lift2 Qplus.
Definition sub := lift2 Qminus.
Definition mul := lift2 Qmult.

Definition neg (a : num) : num :=
  match a with Fin x => Fin (- x) | NaN => NaN end.

(** [a / b]; a zero divisor gives [NaN] here (JavaScript gives an infinity for
    a nonzero dividend, which the model does not have). *)
Definition div (a b : num) : num :=
  match a, b with
  | Fin x, Fin y => if Qeq_bool y 0 then NaN else Fin (x / y)
  | _, _ => NaN
  end.

Definition Qltb (x y : Q) : bool :=
  match x ?= y with Lt => true | _ => false end.

(** [a < b], [a > b], [a >= b]: false as soon as one side is [NaN]. *)
Definition lt (a b : num) : bool :=
  match a, b with Fin x, Fin y => Qltb x y | _, _ => false end.
Definition gt (a b : num) : bool := lt b a.
Definition ge (a b : num) : bool :=
  match a, b with Fin x, Fin y => Qle_bool y x | _, _ => false end.

(** Truthiness of a number: [0] and [NaN] are falsy. *)
Definition truthy (a : num) : bool :=
  match a with Fin x => negb (Qeq_bool x 0) | NaN => false end.

(** [Math.max(a, b)] and [Math.min(a, b)] on numbers. *)
Definition max (a b : num) : num :=
  match a, b with
  | Fin x, Fin y => Fin (if Qltb x y then y else x)
  | _, _ => NaN
  end.
Definition min (a b : num) : num :=
  match a, b with
  | Fin x, Fin y => Fin (if Qltb y x then y else x)
  | _, _ => NaN
  end.

(** [ToNumber] of a possibly [undefined] number. *)
Definition toNumber (v : option num) : num :=
  match v with Some n => n | None => NaN end.

(** [a <= b] as a proposition: it fails as soon as one side is [NaN]. *)
Definition le (a b : num) : Prop :=
  match a, b with Fin x, Fin y => x <= y | _, _ => False end.

Definition finite (a : num) : bool :=
  match a with Fin _ => true | NaN => false end.

Definition ofZ (z : Z) : num := Fin (inject_Z z).
Definition ofNat (n : nat) : num := Fin (inject_Z (Z.of_nat n)).

End Num.
Import Num.

Declare Scope num_scope.
Delimit Scope num_scope with num.
Notation "a + b" := (Num.add a b) : num_scope.
Notation "a - b" := (Num.sub a b) : num_scope.
Notation "a * b" := (Num.mul a b) : num_scope.
Notation "a / b" := (Num.div a b) : num_scope.
Notation "a =n= b" := (Num.same a b) (at level 70, no associativity).


(* ================================================================== *)
(** ** Binary64 arithmetic of the tooltip

    [rowTooltipSelector] divides, multiplies and prints; its result is read
    digit by digit, so these three operations are modelled in binary64:
    [round] is round-to-nearest, ties to even, with gradual underflow and
    overflow to an infinity.  A zero carries no sign ([-0] prints as [0]). *)

Module F64.

(** A binary64 result: a number, an infinity or [NaN]. *)
Inductive t : Type :=
| Val (q : Q)
| Inf (negative : bool)
| NaN.

(** The exponent of the binade of a positive rational:
    [2^e <= q < 2^(e+1)]. *)
Definition binade (q : Q) : Z :=
  let k := (Z.log2 (Qnum q) - Z.log2 (Zpos (Qden q)))%Z in
  if Qle_bool (2 ^ k) q then k else (k - 1)%Z.

(** The integer nearest to [y], the even one on a tie. *)
Definition nearest_even (y : Q) : Z :=
  let f := Qfloor y in
  match Qcompare (y - inject_Z f) (1 # 2) with
  | Lt => f
  | Gt => (f + 1)%Z
  | Eq => if Z.even f then f else (f + 1)%Z
  end.

(** The binary64 number nearest to the rational [q]: 53 significant bits,
    least exponent [-1074], an infinity from [2^1024] on. *)
Definition round (q : Q) : t :=
  if Qeq_bool q 0 then Val 0
  else
    let a := Qabs q in
    let e := Z.max (binade a - 52) (-1074) in
    let r := inject_Z (nearest_even (a / 2 ^ e)) * 2 ^ e in
    if Qle_bool (2 ^ 1024) r then Inf (Qltb q 0)
    else Val (if Qltb q 0 then - r else r).

(** [a / b] on two numbers. *)
Definition div (a b : num) : t :=
  match a, b with
  | Fin x, Fin y =>
      if Qeq_bool y 0
      then (if Qeq_bool x 0 then NaN else Inf (Qltb x 0))
      else round (x / y)
  | _, _ => NaN
  end.

(** [a * y] for a finite constant [y]. *)
Definition mul (a : t) (y : Q) : t :=
  match a with
  | Val x => round (x * y)
  | Inf s => if Qeq_bool y 0 then NaN else Inf (xorb s (Qltb y 0))
  | NaN => NaN
  end.

(** *** [Number::toString]

    The decimal exponent [n] with [10^(n-1) <= x < 10^n], the shortest digit
    string [s] of [k] digits such that [s * 10^(n-k)] reads back as [x] (the
    one nearest to [x] when several do), and the layout of ECMA-262. *)
Fixpoint decade_from (fuel : nat) (x : Q) (n : Z) : Z :=
  match fuel with
  | O => n
  | S f =>
      if Qltb x (10 ^ (n - 1)) then decade_from f x (n - 1)
      else if Qle_bool (10 ^ n) x then decade_from f x (n + 1)
      else n
  end.

Definition decade (x : Q) : Z :=
  decade_from 4 x (binade x * 30103 / 100000 + 1).

Definition reads_as (x : Q) (s p : Z) : bool :=
  match round (inject_Z s * 10 ^ p) with
  | Val y => Qeq_bool y x
  | _ => false
  end.

Fixpoint shortest (fuel : nat) (k : Z) (x : Q) (n : Z) : Z * Z :=
  let y := x / 10 ^ (n - k) in
  let lo := Qfloor y in
  let hi := (lo + 1)%Z in
  match fuel with
  | O => (lo, k)
  | S f =>
      let lo_first :=
        match Qcompare (y - inject_Z lo) (inject_Z hi - y) with
        | Lt => true
        | Gt => false
        | Eq => Z.even lo
        end in
      let c1 := if lo_first then lo else hi in
      let c2 := if lo_first then hi else lo in
      if reads_as x c1 (n - k) then (c1, k)
      else if reads_as x c2 (n - k) then (c2, k)
      else shortest f (k + 1) x n
  end.

Definition digits (z : Z) : string :=
  NilZero.string_of_uint (N.to_uint (Z.to_N z)).

Fixpoint zeros (n : nat) : string :=
  match n with
  | O => EmptyString
  | S n' => String "0" (zeros n')
  end.

(** The string of a positive binary64 number. *)
Definition positive_string (x : Q) : string :=
  let n0 := decade x in
  let (s0, k0) := shortest 17 1 x n0 in
  let rollover := Z.eqb s0 (10 ^ k0) in
  let s := if rollover then 1%Z else s0 in
  let k := if rollover then 1%Z else k0 in
  let n := if rollover then (n0 + 1)%Z else n0 in
  let d := digits s in
  if (Z.leb k n && Z.leb n 21)%bool then
    (d ++ zeros (Z.to_nat (n - k)))%string
  else if (Z.ltb 0 n && Z.leb n 21)%bool then
    (substring 0 (Z.to_nat n) d ++ "."
       ++ substring (Z.to_nat n) (Z.to_nat (k - n)) d)%string
  else if (Z.ltb (-6) n && Z.leb n 0)%bool then
    ("0." ++ zeros (Z.to_nat (- n)) ++ d)%string
  else
    let e := (n - 1)%Z in
    let mant :=
      if Z.eqb k 1 then d
      else (substring 0 1 d ++ "." ++ substring 1 (Z.to_nat (k - 1)) d)%string in
    (mant ++ "e" ++ (if Z.ltb e 0 then "-" else "+") ++ digits (Z.abs e))%string.

Definition to_string (x : t) : string :=
  match x with
  | NaN => "NaN"%string
  | Inf s => if s then "-Infinity"%string else "Infinity"%string
  | Val q =>
      if Qeq_bool q 0 then "0"%string
      else ((if Qltb q 0 then "-" else EmptyString)
              ++ positive_string (Qabs q))%string
  end.

End F64.

(** [Number.prototype.toFixed(0)]: the sign, then the integer nearest to the
    magnitude, the larger one on a tie; from 10^21 on, and for an infinity or
    [NaN], the string of the number. *)
Definition toFixed0 (x : F64.t) : string :=
  match x with
  | F64.Val q =>
      let s := if Qltb q 0 then "-"%string else EmptyString in
      let a := if Qltb q 0 then - q else q in
      if Qle_bool (10 ^ 21) a then (s ++ F64.positive_string a)%string
      else (s ++ F64.digits (Qfloor (a + (1 # 2))))%string
  | _ => F64.to_string x
  end.

(* ================================================================== *)
(** ** d3-array and d3-scale

    The library functions the chart calls, as d3 4.x defines them (d3-array
    1.x [extent], d3-scale 1.x [continuous.js], [linear.js] and [band.js],
    d3-interpolate 1.x [number.js]). *)

Module D3.

(** [extent(values, valueof)]: the inner loop over the values that follow the
    first comparable one. *)
Fixpoint extent_rest (vals : list num) (mn mx : num) : num * num :=
  match vals with
  | [] => (mn, mx)
  | v :: vs =>
      extent_rest vs (if Num.gt mn v then v else mn) (if Num.lt mx v then v else mx)
  end.

(** The outer loop skips values that are not comparable with themselves
    ([NaN]); both bounds stay [undefined] when there is none. *)
Fixpoint extent_from (vals : list num) : option (num * num) :=
  match vals with
  | [] => None
  | v :: vs => if Num.ge v v then Some (extent_rest vs v v) else extent_from vs
  end.

Definition extent {A : Type} (values : list A) (valueof : A -> num)
  : option num * option num :=
  match extent_from (map valueof values) with
  | Some (mn, mx) => (Some mn, Some mx)
  | None => (None, None)
  end.

(** *** Linear scale (two-point domain and range, no clamping) *)

Record ScaleLinear : Type := mkLinear {
  lin_domain : num * num;
  lin_range : num * num
}.

(** [scaleLinear()] *)
Definition scaleLinear : ScaleLinear :=
  {| lin_domain := (Fin 0, Fin 1); lin_range := (Fin 0, Fin 1) |}.

(** [deinterpolateLinear(a, b)]: [(b -= a) ? x => (x - a) / b : constant(b)] *)
Definition deinterpolateLinear (a b x : num) : num :=
  let b' := (b - a)%num in
  if Num.truthy b' then ((x - a) / b')%num else b'.

(** [interpolateNumber(a, b)]: [b -= a; t => a + b * t] *)
Definition interpolateNumber (a b t : num) : num :=
  let b' := (b - a)%num in (a + b' * t)%num.

(** [bimap(domain, range, deinterpolate, reinterpolate)] *)
Definition bimap (domain range : num * num) (x : num) : num :=
  let (d0, d1) := domain in
  let (r0, r1) := range in
  if Num.lt d1 d0
  then interpolateNumber r1 r0 (deinterpolateLinear d1 d0 x)
  else interpolateNumber r0 r1 (deinterpolateLinear d0 d1 x).

(** [scale(x)] *)
Definition linear_apply (s : ScaleLinear) (x : num) : num :=
  bimap (lin_domain s) (lin_range s) x.

(** [scale.domain([a, b])], [scale.range([a, b])] *)
Definition linear_set_domain (d : num * num) (s : ScaleLinear) : ScaleLinear :=
  {| lin_domain := d; lin_range := lin_range s |}.
Definition linear_set_range (r : num * num) (s : ScaleLinear) : ScaleLinear :=
  {| lin_domain := lin_domain s; lin_range := r |}.

(** *** Band scale (no rounding) *)

Record ScaleBand : Type := mkBand {
  band_domain : list nat;
  band_range : num * num;
  band_paddingInner : num;
  band_paddingOuter : num;
  band_align : num;
  (* computed by [rescale] *)
  band_step : num;
  band_bandwidth : num;
  band_ordinalRange : list num
}.

(** [rescale()] of band.js *)
Definition rescale (s : ScaleBand) : ScaleBand :=
  let n := Num.ofNat (List.length (band_domain s)) in
  let r0 := fst (band_range s) in
  let r1 := snd (band_range s) in
  let reverse := Num.lt r1 r0 in
  let start := if reverse then r1 else r0 in
  let stop := if reverse then r0 else r1 in
  let step :=
    ((stop - start) /
     Num.max (Fin 1) (n - band_paddingInner s + band_paddingOuter s * Fin 2))%num in
  let start' :=
    (start + (stop - start - step * (n - band_paddingInner s)) * band_align s)%num in
  let bandwidth := (step * (Fin 1 - band_paddingInner s))%num in
  let values :=
    map (fun i => (start' + step * Num.ofNat i)%num)
        (seq 0 (List.length (band_domain s))) in
  {| band_domain := band_domain s;
     band_range := band_range s;
     band_paddingInner := band_paddingInner s;
     band_paddingOuter := band_paddingOuter s;
     band_align := band_align s;
     band_step := step;
     band_bandwidth := bandwidth;
     band_ordinalRange := if reverse then rev values else values |}.

(** [Math.max(0, Math.min(1, _))] *)
Definition clamp01 (x : num) : num := Num.max (Fin 0) (Num.min (Fin 1) x).

(** [scale.domain(_)]: the ordinal domain keeps the first occurrence of each
    value. *)
Definition band_set_domain (d : list nat) (s : ScaleBand) : ScaleBand :=
  rescale
    {| band_domain := rev (nodup Nat.eq_dec (rev d));
       band_range := band_range s;
       band_paddingInner := band_paddingInner s;
       band_paddingOuter := band_paddingOuter s;
       band_align := band_align s;
       band_step := band_step s;
       band_bandwidth := band_bandwidth s;
       band_ordinalRange := band_ordinalRange s |}.

Definition band_set_range (r : num * num) (s : ScaleBand) : ScaleBand :=
  rescale
    {| band_domain := band_domain s;
       band_range := r;
       band_paddingInner := band_paddingInner s;
       band_paddingOuter := band_paddingOuter s;
       band_align := band_align s;
       band_step := band_step s;
       band_bandwidth := band_bandwidth s;
       band_ordinalRange := band_ordinalRange s |}.

Definition band_set_paddingInner (p : num) (s : ScaleBand) : ScaleBand :=
  rescale
    {| band_domain := band_domain s;
       band_range := band_range s;
       band_paddingInner := clamp01 p;
       band_paddingOuter := band_paddingOuter s;
       band_align := band_align s;
       band_step := band_step s;
       band_bandwidth := band_bandwidth s;
       band_ordinalRange := band_ordinalRange s |}.

Definition band_set_paddingOuter (p : num) (s : ScaleBand) : ScaleBand :=
  rescale
    {| band_domain := band_domain s;
       band_range := band_range s;
       band_paddingInner := band_paddingInner s;
       band_paddingOuter := clamp01 p;
       band_align := band_align s;
       band_step := band_step s;
       band_bandwidth := band_bandwidth s;
       band_ordinalRange := band_ordinalRange s |}.

Definition band_set_align (a : num) (s : ScaleBand) : ScaleBand :=
  rescale
    {| band_domain := band_domain s;
       band_range := band_range s;
       band_paddingInner := band_paddingInner s;
       band_paddingOuter := band_paddingOuter s;
       band_align := clamp01 a;
       band_step := band_step s;
       band_bandwidth := band_bandwidth s;
       band_ordinalRange := band_ordinalRange s |}.

(** [scaleBand()]: empty domain, range [[0, 1]], no padding, centred. *)
Definition scaleBand : ScaleBand :=
  rescale
    {| band_domain := [];
       band_range := (Fin 0, Fin 1);
       band_paddingInner := Fin 0;
       band_paddingOuter := Fin 0;
       band_align := Fin (1 # 2);
       band_step := NaN;
       band_bandwidth := NaN;
       band_ordinalRange := [] |}.

Fixpoint index_of (d : nat) (l : list nat) : option nat :=
  match l with
  | [] => None
  | x :: l' => if Nat.eqb x d then Some O else option_map S (index_of d l')
  end.

(** [scale(d)]: the position of a known domain value, [undefined] otherwise. *)
Definition band_apply (s : ScaleBand) (d : nat) : option num :=
  match index_of d (band_domain s) with
  | Some i => nth_error (band_ordinalRange s)
                        (i mod List.length (band_ordinalRange s))
  | None => None
  end.

End D3.
Import D3.

(* ================================================================== *)
(** ** Exceptions *)

(** A computation that may raise a [TypeError] (reading a property of
    [undefined]).  The state at the point of the throw is not kept. *)
Inductive res (A : Type) : Type :=
| Ok (a : A)
| Throw.
Arguments Ok {A} a.
Arguments Throw {A}.

Definition bind {A B : Type} (m : res A) (k : A -> res B) : res B :=
  match m with Ok a => k a | Throw => Throw end.

Notation "x <- m ;; k" := (bind m (fun x => k))
  (at level 61, m at next level, right associativity).

Fixpoint mapM {A B : Type} (f : A -> res B) (l : list A) : res (list B) :=
  match l with
  | [] => Ok []
  | x :: l' => y <- f x ;; r <- mapM f l' ;; Ok (y :: r)
  end.

(* ================================================================== *)
(** ** Chart data *)

Record DoubleBarRow : Type := mkRow {
  name : string;
  left : num;
  right : num
}.

Record DoubleBarData : Type := mkData {
  rows : list DoubleBarRow;
  leftTitle : string;
  rightTitle : string
}.

(* ================================================================== *)
(** ** The scene and d3-selection *)

Module Dom.

(** Attribute values: a string, a number, or the template string
    [translate(x, y)] kept in parts ([y] may be [undefined]). *)
Inductive aval : Type :=
| AStr (s : string)
| ANum (n : num)
| ATranslate (x : num) (y : option num).

Definition alist : Type := list (string * aval).

Fixpoint set_attr (k : string) (v : aval) (l : alist) : alist :=
  match l with
  | [] => [(k, v)]
  | (k', w) :: l' =>
      if String.eqb k' k then (k', v) :: l' else (k', w) :: set_attr k v l'
  end.

Fixpoint get_attr (k : string) (l : alist) : option aval :=
  match l with
  | [] => None
  | (k', w) :: l' => if String.eqb k' k then Some w else get_attr k l'
  end.

(** An element: tag, attributes, text content and the datum d3 bound to it. *)
Record elem : Type := mkElem {
  tag : string;
  attrs : alist;
  text : string;
  datum : option DoubleBarRow
}.

Definition attr (k : string) (v : aval) (e : elem) : elem :=
  {| tag := tag e; attrs := set_attr k v (attrs e); text := text e; datum := datum e |}.

Definition set_text (t : string) (e : elem) : elem :=
  {| tag := tag e; attrs := attrs e; text := t; datum := datum e |}.

Definition set_datum (d : option DoubleBarRow) (e : elem) : elem :=
  {| tag := tag e; attrs := attrs e; text := text e; datum := d |}.

Definition createElement (t : string) (d : option DoubleBarRow) : elem :=
  {| tag := t; attrs := []; text := EmptyString; datum := d |}.

(** A child of the svg element, with its identity and its own children. *)
Record node : Type := mkNode {
  nid : nat;
  listeners : list string;
  self : elem;
  kids : list elem
}.

Record svgT : Type := mkSvg {
  svg_attrs : alist;
  children : list node;
  fresh : nat (* the next unused node identity *)
}.

(** A selection of children of the svg: an array of node identities with
    holes. *)
Definition selection : Type := list (option nat).

(** Space-separated tokens of a class attribute. *)
Fixpoint tokens_from (cur : string) (s : string) : list string :=
  match s with
  | EmptyString => match cur with EmptyString => [] | _ => [cur] end
  | String c s' =>
      if Ascii.eqb c " "%char
      then match cur with
           | EmptyString => tokens_from EmptyString s'
           | _ => cur :: tokens_from EmptyString s'
           end
      else tokens_from (cur ++ String c EmptyString)%string s'
  end.

Definition classes (e : elem) : list string :=
  match get_attr "class" (attrs e) with
  | Some (AStr c) => tokens_from EmptyString c
  | _ => []
  end.

(** A selector [tag.class]. *)
Record selector : Type := mkSel { sel_tag : string; sel_class : string }.

Definition matches (q : selector) (e : elem) : bool :=
  String.eqb (tag e) (sel_tag q) &&
  existsb (String.eqb (sel_class q)) (classes e).

(** All elements below the svg, in document order. *)
Definition descendants (ns : list node) : list elem :=
  flat_map (fun n => self n :: kids n) ns.

(** *** [selectAll(q).data(data)]

    The elements matching [q] are taken in document order and bound to the
    data by index; what is left of the data makes the enter selection. *)
Definition bind_elem (q : selector) (data : list DoubleBarRow) (e : elem)
  : elem * list DoubleBarRow :=
  if matches q e
  then match data with
       | [] => (e, [])
       | d :: data' => (set_datum (Some d) e, data')
       end
  else (e, data).

Fixpoint bind_elems (q : selector) (data : list DoubleBarRow) (es : list elem)
  : list elem * list DoubleBarRow :=
  match es with
  | [] => ([], data)
  | e :: es' =>
      let (e1, d1) := bind_elem q data e in
      let (r, d2) := bind_elems q d1 es' in
      (e1 :: r, d2)
  end.

Fixpoint data_join (q : selector) (data : list DoubleBarRow) (ns : list node)
  : list node * list DoubleBarRow :=
  match ns with
  | [] => ([], data)
  | n :: ns' =>
      let (e1, d1) := bind_elem q data (self n) in
      let (ks, d2) := bind_elems q d1 (kids n) in
      let (r, d3) := data_join q d2 ns' in
      ({| nid := nid n; listeners := listeners n; self := e1; kids := ks |} :: r, d3)
  end.

(** *** [enter().append(tag)] followed by per-node settings

    One new child of the svg per entering datum, appended after the existing
    children; [mk] builds the element from its datum.  The resulting selection
    has a hole for each datum that found an existing element. *)
Definition enter_nodes (mk : DoubleBarRow -> elem) (from : nat)
  (enter : list DoubleBarRow) : list node :=
  map (fun p => {| nid := from + fst p; listeners := []; self := mk (snd p); kids := [] |})
      (combine (seq 0 (List.length enter)) enter).

Definition selection_of (updated : nat) (news : list node) : selection :=
  repeat None updated ++ map (fun n => Some (nid n)) news.

Definition enter_append (mk : DoubleBarRow -> elem) (data enter : list DoubleBarRow)
  (joined : list node) (s : svgT) : svgT * selection :=
  let news := enter_nodes mk (fresh s) enter in
  ({| svg_attrs := svg_attrs s;
      children := joined ++ news;
      fresh := fresh s + List.length enter |},
   selection_of (List.length data - List.length enter) news).

(** Position of a node in a selection. *)
Fixpoint sel_index (id : nat) (sel : selection) : option nat :=
  match sel with
  | [] => None
  | Some x :: sel' => if Nat.eqb x id then Some O else option_map S (sel_index id sel')
  | None :: sel' => option_map S (sel_index id sel')
  end.

Definition selected (sel : selection) (n : node) : bool :=
  match sel_index (nid n) sel with Some _ => true | None => false end.

(** [selection.remove()] *)
Definition remove (sel : selection) (ns : list node) : list node :=
  filter (fun n => negb (selected sel n)) ns.

(** A per-node operation [f index node] over the nodes of a selection that
    are in the scene. *)
Definition each_node (sel : selection) (f : nat -> node -> res node)
  (ns : list node) : res (list node) :=
  mapM (fun n => match sel_index (nid n) sel with
                 | Some i => f i n
                 | None => Ok n
                 end) ns.

(** [selection.selectAll(q)] followed by a per-element operation: applies
    [f] to the children matching [q] of each selected node. *)
Definition each_kid (q : selector) (f : elem -> res elem) (n : node) : res node :=
  ks <- mapM (fun k => if matches q k then f k else Ok k) (kids n) ;;
  Ok {| nid := nid n; listeners := listeners n; self := self n; kids := ks |}.

(** [selection.append(tag)]: a new last child carrying the datum of its
    parent. *)
Definition append_kid (mk : elem -> elem) (t : string) (n : node) : node :=
  {| nid := nid n; listeners := listeners n; self := self n;
     kids := kids n ++ [mk (createElement t (datum (self n)))] |}.

Definition on (event : string) (n : node) : node :=
  {| nid := nid n; listeners := listeners n ++ [event]; self := self n; kids := kids n |}.

Definition set_self (f : elem -> elem) (n : node) : node :=
  {| nid := nid n; listeners := listeners n; self := f (self n); kids := kids n |}.

(** [svg.append(tag)]: a new last child of the svg without datum. *)
Definition append_child (e : elem) (s : svgT) : svgT :=
  {| svg_attrs := svg_attrs s;
     children := children s ++ [{| nid := fresh s; listeners := []; self := e; kids := [] |}];
     fresh := S (fresh s) |}.

(** [svg.select(q)] followed by a per-element operation: the first element
    matching [q] in document order, if any. *)
Fixpoint first_elem (q : selector) (f : elem -> elem) (es : list elem)
  : option (list elem) :=
  match es with
  | [] => None
  | e :: es' =>
      if matches q e then Some (f e :: es')
      else option_map (cons e) (first_elem q f es')
  end.

Fixpoint select_first (q : selector) (f : elem -> elem) (ns : list node)
  : list node :=
  match ns with
  | [] => []
  | n :: ns' =>
      if matches q (self n) then set_self f n :: ns'
      else match first_elem q f (kids n) with
           | Some ks =>
               {| nid := nid n; listeners := listeners n; self := self n; kids := ks |} :: ns'
           | None => n :: select_first q f ns'
           end
  end.

Definition set_children (ns : list node) (s : svgT) : svgT :=
  {| svg_attrs := svg_attrs s; children := ns; fresh := fresh s |}.

Definition svg_attr (k : string) (v : aval) (s : svgT) : svgT :=
  {| svg_attrs := set_attr k v (svg_attrs s); children := children s; fresh := fresh s |}.

(** How many elements of the scene match a selector. *)
Definition count (q : selector) (s : svgT) : nat :=
  List.length (filter (matches q) (descendants (children s))).

End Dom.
Import Dom.

(* ================================================================== *)
(** ** What the browser provides *)

(** [el.getComputedTextLength()] for a text element as it stands (its text
    and font attributes), and the conversion of a number to the string shown
    as text content. *)
Class Browser : Type := {
  getComputedTextLength : elem -> Q;
  numberToString : num -> string
}.

(* ================================================================== *)
(** ** Host data: query metadata, configuration, result rows *)

Record Field : Type := mkField {
  field_name : string;
  field_label : string
}.

(** [queryResponse.fields] *)
Record VisQueryResponse : Type := mkResponse {
  pivots : list Field;
  dimensions : list Field;
  measures : list Field
}.

(** [config]: [query_fields] and the two colour options. *)
Record VisConfig : Type := mkConfig {
  query_dimensions : list Field;
  query_measures : list Field;
  leftColor : option string;
  rightColor : option string
}.

(** One record of [data]: the cells by field name; a dimension cell holds a
    text value and a measure cell a number, as [DoubleBarRow] declares. *)
Record VisRow : Type := mkVisRow {
  dimension_cells : list (string * string);
  measure_cells : list (string * num)
}.

Definition VisData : Type := list VisRow.

Record HTMLElement : Type := mkElement {
  clientWidth : Z;
  clientHeight : Z
}.

Record ErrorOptions : Type := mkOptions {
  min_pivots : nat;
  max_pivots : nat;
  min_dimensions : nat;
  max_dimensions : nat;
  min_measures : nat;
  max_measures : nat
}.

Definition within (lo hi n : nat) : bool := Nat.leb lo n && Nat.leb n hi.

(** Modelled from the spec: [handleErrors] of [../common/utils], whose source
    is not part of this development.  "A pure function taking the
    visualization instance and the query metadata, returning whether the shape
    matches required cardinalities"; the instance plays no part in the
    result.  It has no access to the completion callback of [updateAsync]. *)
Definition handleErrors (resp : VisQueryResponse) (o : ErrorOptions) : bool :=
  within (min_pivots o) (max_pivots o) (List.length (pivots resp)) &&
  within (min_dimensions o) (max_dimensions o) (List.length (dimensions resp)) &&
  within (min_measures o) (max_measures o) (List.length (measures resp)).

(* ================================================================== *)
(** ** double_bar.ts *)

(** The d3-tip widget: its class and offset (its html is always
    [rowTooltipSelector]). *)
Record Tip : Type := mkTip {
  tip_class : string;
  tip_offset : num * num
}.

Record DoubleBar : Type := mkVis {
  svg : option svgT;
  tooltip : option Tip;
  svgRows : option selection;
  width : option num;
  height : option num;
  rowYPosition : ScaleBand;
  leftBarWidth : ScaleLinear;
  rightBarWidth : ScaleLinear;
  maxBarLabelWidth : option num
}.

Definition with_svg (x : option svgT) (v : DoubleBar) : DoubleBar :=
  mkVis x (tooltip v) (svgRows v) (width v) (height v) (rowYPosition v)
        (leftBarWidth v) (rightBarWidth v) (maxBarLabelWidth v).
Definition with_tooltip (x : option Tip) (v : DoubleBar) : DoubleBar :=
  mkVis (svg v) x (svgRows v) (width v) (height v) (rowYPosition v)
        (leftBarWidth v) (rightBarWidth v) (maxBarLabelWidth v).
Definition with_svgRows (x : option selection) (v : DoubleBar) : DoubleBar :=
  mkVis (svg v) (tooltip v) x (width v) (height v) (rowYPosition v)
        (leftBarWidth v) (rightBarWidth v) (maxBarLabelWidth v).
Definition with_size (w h : option num) (v : DoubleBar) : DoubleBar :=
  mkVis (svg v) (tooltip v) (svgRows v) w h (rowYPosition v)
        (leftBarWidth v) (rightBarWidth v) (maxBarLabelWidth v).
Definition with_rowYPosition (x : ScaleBand) (v : DoubleBar) : DoubleBar :=
  mkVis (svg v) (tooltip v) (svgRows v) (width v) (height v) x
        (leftBarWidth v) (rightBarWidth v) (maxBarLabelWidth v).
Definition with_barWidths (l r : ScaleLinear) (v : DoubleBar) : DoubleBar :=
  mkVis (svg v) (tooltip v) (svgRows v) (width v) (height v) (rowYPosition v)
        l r (maxBarLabelWidth v).
Definition with_maxBarLabelWidth (x : option num) (v : DoubleBar) : DoubleBar :=
  mkVis (svg v) (tooltip v) (svgRows v) (width v) (height v) (rowYPosition v)
        (leftBarWidth v) (rightBarWidth v) x.

(** The option defaults of [vis.options]. *)
Definition leftColor_default : string := "#FEC500".
Definition rightColor_default : string := "#42B3D5".

(** [(config && config.c) || fallback]: an absent or empty colour is falsy. *)
Definition color_or (c : option string) (fallback : string) : string :=
  match c with
  | Some EmptyString => fallback
  | Some x => x
  | None => fallback
  end.

(** [rowTooltipSelector] *)
Definition rowTooltipSelector (item : DoubleBarRow) : string :=
  let ratio :=
    if Num.gt (right item) (Fin 0) then F64.div (left item) (right item)
    else F64.Val 0 in
  ("<span>Ratio: " ++ toFixed0 (F64.mul ratio 100) ++ "%</span>")%string.

(** [sequence(size)] *)
Definition sequence (size : nat) : list nat := seq 0 size.

Definition rowNameSelector (row : DoubleBarRow) : string := name row.
Definition rowLeftSelector (row : DoubleBarRow) : num := left row.
Definition rowRightSelector (row : DoubleBarRow) : num := right row.

(** The character U+2026 (its UTF-8 bytes). *)
Definition ellipsis : string :=
  String "226"%char (String "128"%char (String "166"%char EmptyString)).

(** [validateInputs] *)
Definition validateInputs (queryResponse : VisQueryResponse) : bool :=
  handleErrors queryResponse
    {| min_pivots := 0; max_pivots := 0;
       min_dimensions := 1; max_dimensions := 1;
       min_measures := 2; max_measures := 2 |}.

(** *** Getters of [vis] *)

Definition graphWidth (v : DoubleBar) : num :=
  (Num.toNumber (width v) * Fin 0.65)%num.

Definition legendWidth (v : DoubleBar) : num :=
  (Num.toNumber (width v) - (graphWidth v + Fin 10))%num.

Definition legendTextWidth (v : DoubleBar) : num :=
  (legendWidth v - Fin 8)%num.

Definition halfGraphWidth (v : DoubleBar) : num :=
  (graphWidth v / Fin 2)%num.

Definition halfGraphBarMaxWidth (v : DoubleBar) : num :=
  (halfGraphWidth v - (Num.toNumber (maxBarLabelWidth v) + Fin 10))%num.

Definition titleTextWidth (v : DoubleBar) : num :=
  (halfGraphWidth v - Fin 10)%num.

Definition rowHeight (v : DoubleBar) : num := band_step (rowYPosition v).

Definition barHeight (v : DoubleBar) : num := band_bandwidth (rowYPosition v).

Definition barSizeRatio (v : DoubleBar) : num :=
  (rowHeight v / (rowHeight v * Fin 3))%num.

Definition rowHighlightThickness (v : DoubleBar) : num := rowHeight v.

Definition barMargin (v : DoubleBar) : num :=
  ((rowHeight v - barHeight v) / Fin 2)%num.

Definition barOriginX (v : DoubleBar) : num :=
  (Num.toNumber (width v) - halfGraphWidth v)%num.

(** The [vis] object before [create]. *)
Definition vis : DoubleBar :=
  {| svg := None;
     tooltip := None;
     svgRows := None;
     width := None;
     height := None;
     rowYPosition := band_set_align (Fin 0) scaleBand;
     leftBarWidth := scaleLinear;
     rightBarWidth := scaleLinear;
     maxBarLabelWidth := None |}.

Section WithBrowser.
Context {browser : Browser}.

(** *** [truncateText]

    [truncate_loop width full k el] is the [while] loop entered with [text]
    equal to the first [k] characters of [full] and [el] showing what was last
    written; [textLength] is re-measured on [el]. *)
Fixpoint truncate_loop (w : num) (full : string) (k : nat) (el : elem) : elem :=
  match k with
  | O => el
  | S k' =>
      if Num.gt (Fin (getComputedTextLength el)) w
      then truncate_loop w full k'
             (set_text (substring 0 k' full ++ ellipsis)%string el)
      else el
  end.

Definition truncateText (w : num) (el : elem) : elem :=
  truncate_loop w (text el) (String.length (text el)) el.

(** *** [determineMaxBarValueWidth] *)

(** One of the two chains: provisional [text] nodes of class [cls] for the
    entering data, each measured into [maxBarLabelWidth], then removed. *)
Definition probe (cls : string) (valueof : DoubleBarRow -> num)
  (rowData : list DoubleBarRow) (v : DoubleBar) : res DoubleBar :=
  match svg v with
  | None => Throw
  | Some s =>
      let (joined, enter) := data_join (mkSel "text" cls) rowData (children s) in
      let mk d :=
        set_text (numberToString (valueof d))
          (attr "font-size" (ANum (Fin 12))
            (attr "font-family" (AStr "sans-serif")
              (attr "class" (AStr cls) (createElement "text" (Some d))))) in
      let (s1, sel) := enter_append mk rowData enter joined s in
      let m :=
        fold_left
          (fun acc n =>
             if selected sel n
             then Some (Num.max (Num.toNumber acc)
                                (Fin (getComputedTextLength (self n))))
             else acc)
          (children s1) (maxBarLabelWidth v) in
      Ok (with_svg (Some (set_children (remove sel (children s1)) s1))
            (with_maxBarLabelWidth m v))
  end.

Definition determineMaxBarValueWidth (rowData : list DoubleBarRow)
  (v : DoubleBar) : res DoubleBar :=
  v1 <- probe "dummy-left" rowLeftSelector rowData
          (with_maxBarLabelWidth (Some (Fin 0)) v) ;;
  probe "dummy-right" rowRightSelector rowData v1.

(** *** [setupInputs] *)
Definition setupInputs (doubleBarData : DoubleBarData) (v : DoubleBar) : DoubleBar :=
  let tip := {| tip_class := "d3-tooltip"; tip_offset := (Fin 0, Fin 0) |} in
  let leftMax := snd (extent (rows doubleBarData) rowLeftSelector) in
  let rightMax := snd (extent (rows doubleBarData) rowRightSelector) in
  let maxOfBoth := Num.max (Num.toNumber leftMax) (Num.toNumber rightMax) in
  let y1 := band_set_paddingInner (Fin 0.7) (rowYPosition v) in
  let y2 := band_set_paddingOuter (band_paddingInner y1 / Fin 2)%num y1 in
  let y3 := band_set_domain (sequence (List.length (rows doubleBarData))) y2 in
  with_rowYPosition y3
    (with_barWidths
       (linear_set_domain (Fin 0, maxOfBoth) (leftBarWidth v))
       (linear_set_domain (Fin 0, maxOfBoth) (rightBarWidth v))
       (with_tooltip (Some tip) v)).

(** *** [setupRender] *)

Definition mk_group (d : DoubleBarRow) : elem :=
  attr "fill" (AStr "rgba(255, 255, 255, 0)")
    (attr "class" (AStr "chart-row") (createElement "g" (Some d))).

Definition mk_row_highlight (e : elem) : elem :=
  attr "class" (AStr "row-highlight")
    (attr "fill-opacity" (ANum (Fin 0.5))
      (attr "ry" (ANum (Fin 5))
        (attr "rx" (ANum (Fin 5))
          (attr "x" (ANum (Fin 0)) e)))).

Definition mk_legend_text (e : elem) : elem :=
  attr "font-size" (ANum (Fin 11))
    (attr "font-family" (AStr "sans-serif")
      (attr "class" (AStr "legend-text")
        (attr "fill" (AStr "#000")
          (attr "dy" (AStr ".35em") e)))).

Definition mk_left_value (e : elem) : elem :=
  attr "fill" (AStr "#888888")
    (attr "font-size" (ANum (Fin 12))
      (attr "font-family" (AStr "sans-serif")
        (attr "class" (AStr "left-value")
          (attr "text-anchor" (AStr "end")
            (attr "dy" (AStr ".35em") e))))).

Definition mk_right_value (e : elem) : elem :=
  attr "fill" (AStr "#888888")
    (attr "font-size" (ANum (Fin 12))
      (attr "font-family" (AStr "sans-serif")
        (attr "class" (AStr "right-value")
          (attr "dy" (AStr ".35em") e)))).

Definition mk_bar (cls fill : string) (e : elem) : elem :=
  attr "fill" (AStr fill) (attr "class" (AStr cls) e).

Definition mk_title (cls : string) (anchor_end : bool) : elem :=
  let e0 := attr "dy" (AStr ".7em")
              (attr "y" (ANum (Fin 0)) (createElement "text" None)) in
  let e1 := if anchor_end then attr "text-anchor" (AStr "end") e0 else e0 in
  attr "class" (AStr cls)
    (attr "fill" (AStr "#888888")
      (attr "font-size" (ANum (Fin 11))
        (attr "font-family" (AStr "sans-serif") e1))).

(** [.text(accessor)] on an element: the accessor reads the element's datum
    and throws on [undefined]. *)
Definition text_of (f : DoubleBarRow -> string) (e : elem) : res elem :=
  match datum e with
  | Some d => Ok (set_text (f d) e)
  | None => Throw
  end.

(** [.attr(k, accessor)] with a numeric result. *)
Definition attr_of (k : string) (f : DoubleBarRow -> num) (e : elem) : res elem :=
  match datum e with
  | Some d => Ok (attr k (ANum (f d)) e)
  | None => Throw
  end.

(** [svgRows.append(t)] then settings [mk], then [.text(valueof)]. *)
Definition append_value (mk : elem -> elem) (valueof : DoubleBarRow -> num)
  (n : node) : res node :=
  e <- text_of (fun d => numberToString (valueof d))
         (mk (createElement "text" (datum (self n)))) ;;
  Ok (append_kid (fun _ => e) "text" n).

Definition setupRender (doubleBarData : DoubleBarData) (config : VisConfig)
  (v : DoubleBar) : res DoubleBar :=
  match svg v, tooltip v with
  | Some s, Some _ =>
      (* if (this.svgRows) this.svgRows.remove() *)
      let ns0 :=
        match svgRows v with
        | Some old => remove old (children s)
        | None => children s
        end in
      let (joined, enter) :=
        data_join (mkSel "g" "chart-row") (rows doubleBarData) ns0 in
      let (s1, sel) :=
        enter_append mk_group (rows doubleBarData) enter joined s in
      ns1 <- each_node sel
               (fun _ n => Ok (on "mouseout" (on "mouseover" n))) (children s1) ;;
      ns2 <- each_node sel
               (fun _ n => Ok (append_kid mk_row_highlight "rect" n)) ns1 ;;
      ns3 <- each_node sel
               (fun _ n => Ok (append_kid mk_legend_text "text" n)) ns2 ;;
      ns4 <- each_node sel
               (fun _ n => append_value mk_left_value rowLeftSelector n) ns3 ;;
      ns5 <- each_node sel
               (fun _ n => append_value mk_right_value rowRightSelector n) ns4 ;;
      ns6 <- each_node sel
               (fun _ n =>
                  Ok (append_kid
                        (mk_bar "left-bar" (color_or (leftColor config) leftColor_default))
                        "rect" n)) ns5 ;;
      ns7 <- each_node sel
               (fun _ n =>
                  Ok (append_kid
                        (mk_bar "right-bar" (color_or (rightColor config) rightColor_default))
                        "rect" n)) ns6 ;;
      let s2 := append_child (mk_title "left-title title" true) (set_children ns7 s1) in
      let s3 := append_child (mk_title "right-title title" false) s2 in
      Ok (with_svg (Some s3) (with_svgRows (Some sel) v))
  | _, _ => Throw
  end.

(** *** [setupSizing]

    The body is kept in two parts: the settings of the tooltip offset and of
    the three ranges ([setupSizing_scales]), then the chains that write
    positions, sizes and texts into the scene ([setupSizing_scene]), which
    read the getters of the instance as the first part left it. *)
Definition setupSizing_scales (tip : Tip) (v : DoubleBar) : DoubleBar :=
  let v1 :=
    with_tooltip
      (Some {| tip_class := tip_class tip;
               tip_offset :=
                 (Fin 0,
                  (Num.neg (Num.toNumber (width v)) / Fin 2 + barOriginX v)%num) |})
      v in
  let v2 :=
    with_rowYPosition
      (band_set_range (Fin 15, Num.toNumber (height v1)) (rowYPosition v1)) v1 in
  let v3 :=
    with_barWidths
      (linear_set_range (Fin 1, halfGraphBarMaxWidth v2) (leftBarWidth v2))
      (rightBarWidth v2) v2 in
  with_barWidths
    (leftBarWidth v3)
    (linear_set_range (Fin 1, halfGraphBarMaxWidth v3) (rightBarWidth v3)) v3.

Definition setupSizing_scene (doubleBarData : DoubleBarData) (v : DoubleBar)
  (sel : selection) (ns : list node) : res (list node) :=
  ns1 <- each_node sel
           (fun index n =>
              Ok (set_self
                    (attr "transform"
                       (ATranslate (Fin 0) (band_apply (rowYPosition v) index)))
                    n))
           ns ;;
  ns2 <- each_node sel
           (fun _ => each_kid (mkSel "rect" "row-highlight")
              (fun e =>
                 Ok (attr "y"
                       (ANum ((rowHeight v - rowHighlightThickness v) / Fin 2)%num)
                       (attr "height" (ANum (rowHighlightThickness v))
                          (attr "width" (ANum (Num.toNumber (width v))) e)))))
           ns1 ;;
  ns3 <- each_node sel
           (fun _ => each_kid (mkSel "text" "legend-text")
              (fun e =>
                 e1 <- text_of rowNameSelector
                         (attr "y" (ANum (rowHeight v / Fin 2)%num)
                            (attr "x" (ANum (Fin 8)) e)) ;;
                 Ok (truncateText (legendTextWidth v) e1)))
           ns2 ;;
  ns4 <- each_node sel
           (fun _ => each_kid (mkSel "text" "left-value")
              (fun e =>
                 e1 <- attr_of "x"
                         (fun item =>
                            (barOriginX v
                             - linear_apply (leftBarWidth v) (rowLeftSelector item)
                             - Fin 5)%num) e ;;
                 Ok (attr "y" (ANum (rowHeight v / Fin 2)%num) e1)))
           ns3 ;;
  ns5 <- each_node sel
           (fun _ => each_kid (mkSel "text" "right-value")
              (fun e =>
                 e1 <- attr_of "x"
                         (fun item =>
                            (barOriginX v
                             + linear_apply (rightBarWidth v) (rowRightSelector item)
                             + Fin 5)%num) e ;;
                 Ok (attr "y" (ANum (rowHeight v / Fin 2)%num) e1)))
           ns4 ;;
  ns6 <- each_node sel
           (fun _ => each_kid (mkSel "rect" "left-bar")
              (fun e =>
                 e1 <- attr_of "x"
                         (fun item =>
                            (barOriginX v
                             - linear_apply (leftBarWidth v) (rowLeftSelector item))%num)
                         e ;;
                 e2 <- attr_of "width"
                         (fun item =>
                            linear_apply (leftBarWidth v) (rowLeftSelector item))
                         (attr "y" (ANum (barMargin v)) e1) ;;
                 Ok (attr "height" (ANum (barHeight v)) e2)))
           ns5 ;;
  ns7 <- each_node sel
           (fun _ => each_kid (mkSel "rect" "right-bar")
              (fun e =>
                 e1 <- attr_of "width"
                         (fun item =>
                            linear_apply (rightBarWidth v) (rowRightSelector item))
                         (attr "y" (ANum (barMargin v))
                            (attr "x" (ANum (barOriginX v)) e)) ;;
                 Ok (attr "height" (ANum (barHeight v)) e1)))
           ns6 ;;
  let ns8 :=
    select_first (mkSel "text" "left-title")
      (fun e =>
         truncateText (titleTextWidth v)
           (set_text (leftTitle doubleBarData)
              (attr "x" (ANum (barOriginX v - Fin 10)%num) e)))
      ns7 in
  Ok (select_first (mkSel "text" "right-title")
        (fun e =>
           truncateText (titleTextWidth v)
             (set_text (rightTitle doubleBarData)
                (attr "x" (ANum (barOriginX v + Fin 10)%num) e)))
        ns8).

Definition setupSizing (doubleBarData : DoubleBarData) (v : DoubleBar)
  : res DoubleBar :=
  match tooltip v with
  | None => Throw
  | Some tip =>
      let v4 := setupSizing_scales tip v in
      match svgRows v4, svg v4 with
      | Some sel, Some s =>
          ns <- setupSizing_scene doubleBarData v4 sel (children s) ;;
          Ok (with_svg (Some (set_children ns s)) v4)
      | _, _ => Throw
      end
  end.

(** *** [createChartData] *)

Fixpoint lookup {V : Type} (k : string) (l : list (string * V)) : res V :=
  match l with
  | [] => Throw
  | (k', x) :: l' => if String.eqb k' k then Ok x else lookup k l'
  end.

Definition field_at (i : nat) (l : list Field) : res Field :=
  match nth_error l i with Some f => Ok f | None => Throw end.

Definition createChartData (data : VisData) (config : VisConfig)
  : res DoubleBarData :=
  dimension <- field_at 0 (query_dimensions config) ;;
  leftMeasure <- field_at 0 (query_measures config) ;;
  rightMeasure <- field_at 1 (query_measures config) ;;
  rs <- mapM (fun row =>
                n <- lookup (field_name dimension) (dimension_cells row) ;;
                l <- lookup (field_name leftMeasure) (measure_cells row) ;;
                r <- lookup (field_name rightMeasure) (measure_cells row) ;;
                Ok {| name := n; left := l; right := r |}) data ;;
  Ok {| rows := rs;
        leftTitle := field_label leftMeasure;
        rightTitle := field_label rightMeasure |}.

(** *** [create]

    A new, empty svg element replaces the content of the container; node
    identities are never reused. *)
Definition create (v : DoubleBar) : DoubleBar :=
  with_svg
    (Some {| svg_attrs := [];
             children := [];
             fresh := match svg v with Some s => fresh s | None => O end |})
    v.

(** *** [updateAsync]

    The result pairs the instance after the call with the number of times
    [doneRendering] was invoked during it. *)
Definition updateAsync (data : VisData) (element : HTMLElement)
  (config : VisConfig) (queryResponse : VisQueryResponse) (v : DoubleBar)
  : res (DoubleBar * nat) :=
  if negb (validateInputs queryResponse) then Ok (v, O)
  else
    let v1 :=
      with_size (Some (Num.ofZ (clientWidth element)))
                (Some (Num.ofZ (clientHeight element))) v in
    match svg v1 with
    | None => Throw
    | Some s =>
        let v2 :=
          with_svg
            (Some (svg_attr "height" (ANum (Num.toNumber (height v1)))
                     (svg_attr "width" (ANum (Num.toNumber (width v1))) s)))
            v1 in
        chartData <- createChartData data config ;;
        let v3 := setupInputs chartData v2 in
        v4 <- determineMaxBarValueWidth (rows chartData) v3 ;;
        v5 <- setupRender chartData config v4 ;;
        v6 <- setupSizing chartData v5 ;;
        Ok (v6, 1%nat)
    end.

End WithBrowser.

(* ================================================================== *)
(** ** Specification-side definitions *)

(** The geometry bundle as the design document words it: a function of the
    container width and of the measured label width alone. *)
Record Geometry : Type := mkGeometry {
  g_graphWidth : num;
  g_halfGraphWidth : num;
  g_halfGraphBarMaxWidth : num;
  g_titleTextWidth : num;
  g_barOriginX : num
}.

Definition spec_geometry (w h maxLabel : num) : Geometry :=
  let graph := (w * Fin 0.65)%num in
  let half := (graph / Fin 2)%num in
  {| g_graphWidth := graph;
     g_halfGraphWidth := half;
     g_halfGraphBarMaxWidth := (half - (maxLabel + Fin 10))%num;
     g_titleTextWidth := (half - Fin 10)%num;
     g_barOriginX := (w - half)%num |}.

(** [m] is the greatest of all left and right values of the rows. *)
Definition pooled_max (m : Q) (rs : list DoubleBarRow) : Prop :=
  (forall r, In r rs -> Num.le (left r) (Fin m) /\ Num.le (right r) (Fin m)) /\
  (exists r, In r rs /\ (left r = Fin m \/ right r = Fin m)).

Definition finite_row (r : DoubleBarRow) : bool :=
  Num.finite (left r) && Num.finite (right r).

(** The html of a ratio shown as a whole percentage [m], negative or not. *)
Definition ratio_html (negative : bool) (m : N) : string :=
  ("<span>Ratio: "
     ++ ((if negative then "-" else EmptyString)
           ++ NilZero.string_of_uint (N.to_uint m))
     ++ "%</span>")%string.

(** The row groups of a cycle: one node per row, built by [h] from the index
    of the row and the row. *)
Definition groups_from (h : nat -> DoubleBarRow -> node) (rs : list DoubleBarRow)
  : list node :=
  map (fun p => h (fst p) (snd p)) (combine (seq 0 (List.length rs)) rs).

(** The selection holding the [n] nodes created from identity [from] on. *)
Definition sel_ids (from n : nat) : selection :=
  map (fun i => Some (from + i)%nat) (seq 0 n).

(** A title text: no children, tag [text], classes of a left or right title. *)
Definition title_node (n : node) : Prop :=
  kids n = [] /\
  tag (self n) = "text"%string /\
  (classes (self n) = ["left-title"; "title"]%string \/
   classes (self n) = ["right-title"; "title"]%string).

(** Nodes whose identity lies outside the range of a selection. *)
Definition outside (from n : nat) (ns : list node) : Prop :=
  Forall (fun x => (nid x < from \/ from + n <= nid x)%nat) ns.

(** The selection a possibly [undefined] [svgRows] stands for. *)
Definition rows_selection (v : DoubleBar) : selection :=
  match svgRows v with Some sel => sel | None => [] end.

Section SceneSpec.
Context {browser : Browser}.

(** A row group as [setupRender] leaves it: the listeners, then the six
    children in the order of the [append] chains. *)
Definition rendered_group (config : VisConfig) (from i : nat) (d : DoubleBarRow)
  : node :=
  append_kid
    (mk_bar "right-bar" (color_or (rightColor config) rightColor_default)) "rect"
    (append_kid
       (mk_bar "left-bar" (color_or (leftColor config) leftColor_default)) "rect"
       (append_kid
          (fun _ =>
             set_text (numberToString (rowRightSelector d))
               (mk_right_value (createElement "text" (Some d))))
          "text"
          (append_kid
             (fun _ =>
                set_text (numberToString (rowLeftSelector d))
                  (mk_left_value (createElement "text" (Some d))))
             "text"
             (append_kid mk_legend_text "text"
                (append_kid mk_row_highlight "rect"
                   (on "mouseout"
                      (on "mouseover"
                         {| nid := from + i;
                            listeners := [];
                            self := mk_group d;
                            kids := [] |}))))))).

(** The six children of a row group at the end of a cycle. *)
Definition highlight_of (v : DoubleBar) (d : DoubleBarRow) : elem :=
  attr "y" (ANum ((rowHeight v - rowHighlightThickness v) / Fin 2)%num)
    (attr "height" (ANum (rowHighlightThickness v))
       (attr "width" (ANum (Num.toNumber (width v)))
          (mk_row_highlight (createElement "rect" (Some d))))).

Definition legend_of (v : DoubleBar) (d : DoubleBarRow) : elem :=
  truncateText (legendTextWidth v)
    (set_text (rowNameSelector d)
       (attr "y" (ANum (rowHeight v / Fin 2)%num)
          (attr "x" (ANum (Fin 8))
             (mk_legend_text (createElement "text" (Some d)))))).

Definition left_value_of (v : DoubleBar) (d : DoubleBarRow) : elem :=
  attr "y" (ANum (rowHeight v / Fin 2)%num)
    (attr "x"
       (ANum (barOriginX v
              - linear_apply (leftBarWidth v) (rowLeftSelector d)
              - Fin 5)%num)
       (set_text (numberToString (rowLeftSelector d))
          (mk_left_value (createElement "text" (Some d))))).

Definition right_value_of (v : DoubleBar) (d : DoubleBarRow) : elem :=
  attr "y" (ANum (rowHeight v / Fin 2)%num)
    (attr "x"
       (ANum (barOriginX v
              + linear_apply (rightBarWidth v) (rowRightSelector d)
              + Fin 5)%num)
       (set_text (numberToString (rowRightSelector d))
          (mk_right_value (createElement "text" (Some d))))).

Definition left_bar_of (v : DoubleBar) (config : VisConfig) (d : DoubleBarRow)
  : elem :=
  attr "height" (ANum (barHeight v))
    (attr "width" (ANum (linear_apply (leftBarWidth v) (rowLeftSelector d)))
       (attr "y" (ANum (barMargin v))
          (attr "x"
             (ANum (barOriginX v
                    - linear_apply (leftBarWidth v) (rowLeftSelector d))%num)
             (mk_bar "left-bar" (color_or (leftColor config) leftColor_default)
                (createElement "rect" (Some d)))))).

Definition right_bar_of (v : DoubleBar) (config : VisConfig) (d : DoubleBarRow)
  : elem :=
  attr "height" (ANum (barHeight v))
    (attr "width" (ANum (linear_apply (rightBarWidth v) (rowRightSelector d)))
       (attr "y" (ANum (barMargin v))
          (attr "x" (ANum (barOriginX v))
             (mk_bar "right-bar" (color_or (rightColor config) rightColor_default)
                (createElement "rect" (Some d)))))).

(** A row group at the end of a cycle, for the instance [v] as the cycle
    leaves it: node [from + i] standing for row [d] of index [i]. *)
Definition row_group (v : DoubleBar) (config : VisConfig) (from i : nat)
  (d : DoubleBarRow) : node :=
  {| nid := from + i;
     listeners := ["mouseover"; "mouseout"]%string;
     self :=
       attr "transform" (ATranslate (Fin 0) (band_apply (rowYPosition v) i))
         (mk_group d);
     kids :=
       [highlight_of v d; legend_of v d; left_value_of v d; right_value_of v d;
        left_bar_of v config d; right_bar_of v config d] |}.

(** A node after a [select] chain: untouched, or its element rewritten. *)
Definition retitled (f : elem -> elem) (a b : node) : Prop :=
  b = a \/ b = set_self f a.

(** What [setupSizing] does to the title it selects: position, text,
    truncation. *)
Definition title_update (w : num) (t : string) (x : num) (e : elem) : elem :=
  truncateText w (set_text t (attr "x" (ANum x) e)).

(** The two title texts [setupRender] appends, with their identities. *)
Definition left_title_node (id : nat) : node :=
  {| nid := id; listeners := []; self := mk_title "left-title title" true; kids := [] |}.
Definition right_title_node (id : nat) : node :=
  {| nid := id; listeners := []; self := mk_title "right-title title" false; kids := [] |}.

(** The scene between two calls: identities below [fresh], no provisional
    probe text left behind, apart from the nodes of [svgRows] only title
    texts, and no element of class [title] anywhere else. *)
Definition scene_ok (v : DoubleBar) : Prop :=
  exists s : svgT,
    svg v = Some s /\
    Forall (fun n => (nid n < fresh s)%nat) (children s) /\
    Forall (fun e => matches (mkSel "text" "dummy-left") e = false /\
                     matches (mkSel "text" "dummy-right") e = false)
           (descendants (children s)) /\
    Forall title_node (remove (rows_selection v) (children s)) /\
    count (mkSel "text" "title") s
    = List.length (remove (rows_selection v) (children s)).

(** The instances the host can hold: [create] on the initial object, then
    any number of [updateAsync] calls that returned. *)
Inductive reachable : DoubleBar -> Prop :=
| reach_create : reachable (create vis)
| reach_update :
    forall v data element config queryResponse v' calls,
      reachable v ->
      updateAsync data element config queryResponse v = Ok (v', calls) ->
      reachable v'.

End SceneSpec.

(** Hovering a node: the [mouseover] listener of [setupRender] shows the
    tooltip, whose html is [rowTooltipSelector] of the datum of the node. *)
Definition hover_html (n : node) : option string :=
  if existsb (String.eqb "mouseover") (listeners n)
  then option_map rowTooltipSelector (datum (self n))
  else None.

(** Number of row groups and of title texts in the scene of an instance. *)
Definition row_groups (v : DoubleBar) : nat :=
  match svg v with Some s => count (mkSel "g" "chart-row") s | None => O end.

Definition title_texts (v : DoubleBar) : nat :=
  match svg v with Some s => count (mkSel "text" "title") s | None => O end.

(** One call of the host to [updateAsync]. *)
Record call : Type := mkCall {
  call_data : VisData;
  call_element : HTMLElement;
  call_config : VisConfig;
  call_response : VisQueryResponse
}.

(** The call passes validation and its data carry the configured fields. *)
Definition well_formed (c : call) : bool :=
  validateInputs (call_response c) &&
  match createChartData (call_data c) (call_config c) with
  | Ok _ => true
  | Throw => false
  end.

(** A series of calls, each on the instance the previous one left. *)
Fixpoint cycles {browser : Browser} (cs : list call) (v : DoubleBar)
  : res DoubleBar :=
  match cs with
  | [] => Ok v
  | c :: cs' =>
      r <- updateAsync (call_data c) (call_element c) (call_config c)
             (call_response c) v ;;
      cycles cs' (fst r)
  end.

(** *** Sample inputs

    A browser in which every character is 7 units wide and a number prints
    as [Number::toString] of its binary64 value; the query of scenario A in a
    600 by 200 container. *)
Definition sample_browser : Browser :=
  {| getComputedTextLength :=
       fun e => inject_Z (7 * Z.of_nat (String.length (text e)));
     numberToString :=
       fun x =>
         match x with
         | Fin q => F64.to_string (F64.round q)
         | NaN => "NaN"%string
         end |}.

Definition sample_config : VisConfig :=
  {| query_dimensions := [mkField "category" "Category"];
     query_measures := [mkField "a" "Alpha measure"; mkField "b" "Beta measure"];
     leftColor := None;
     rightColor := None |}.

Definition sample_response : VisQueryResponse :=
  {| pivots := [];
     dimensions := [mkField "category" "Category"];
     measures := [mkField "a" "Alpha measure"; mkField "b" "Beta measure"] |}.


Definition sample_data : VisData :=
  [ mkVisRow [("category", "Alpha")]%string [("a"%string, Fin 10); ("b"%string, Fin 20)];
    mkVisRow [("category", "Beta")]%string [("a"%string, Fin 30); ("b"%string, Fin 5)] ].

Definition zero_data : VisData :=
  [ mkVisRow [("category", "Alpha")]%string [("a"%string, Fin 0); ("b"%string, Fin 0)];
    mkVisRow [("category", "Beta")]%string [("a"%string, Fin 0); ("b"%string, Fin 0)] ].

Definition sample_element : HTMLElement :=
  {| clientWidth := 600; clientHeight := 200 |}.

Definition sample_call (data : VisData) : call :=
  mkCall data sample_element sample_config sample_response.

(** What the adapter makes of the sample data sets. *)
Definition sample_chart : DoubleBarData :=
  {| rows := [mkRow "Alpha" (Fin 10) (Fin 20); mkRow "Beta" (Fin 30) (Fin 5)];
     leftTitle := "Alpha measure";
     rightTitle := "Beta measure" |}.

Definition zero_chart : DoubleBarData :=
  {| rows := [mkRow "Alpha" (Fin 0) (Fin 0); mkRow "Beta" (Fin 0) (Fin 0)];
     leftTitle := "Alpha measure";
     rightTitle := "Beta measure" |}.

Definition empty_chart : DoubleBarData :=
  {| rows := []; leftTitle := "Alpha measure"; rightTitle := "Beta measure" |}.

(** A text element showing [t]. *)
Definition sample_label (t : string) : elem :=
  set_text t (createElement "text" None).

(** The instance after [create] and one call with [data]. *)
Definition sample_after (data : VisData) : DoubleBar :=
  match @updateAsync sample_browser data sample_element sample_config
          sample_response (create vis) with
  | Ok (v, _) => v
  | Throw => vis
  end.

(** The text of an element fits a width: the loop guard
    [textLength > width] of [truncateText] is off. *)
Definition fits {browser : Browser} (w : num) (el : elem) : Prop :=
  Num.gt (Fin (getComputedTextLength el)) w = false.

(* ================================================================== *)
(** ** Definitions used by the properties of the individual functions *)

(** A record of the query result carries a cell for each of the three
    fields [createChartData] reads. *)
Definition has_cells (dimension leftMeasure rightMeasure : Field) (row : VisRow)
  : Prop :=
  In (field_name dimension) (map fst (dimension_cells row)) /\
  In (field_name leftMeasure) (map fst (measure_cells row)) /\
  In (field_name rightMeasure) (map fst (measure_cells row)).

(** The fields [createChartData] reads from the configuration: the first
    dimension and the first two measures. *)
Definition configured_fields (config : VisConfig) (dimension leftMeasure rightMeasure : Field)
  : Prop :=
  nth_error (query_dimensions config) 0 = Some dimension /\
  nth_error (query_measures config) 0 = Some leftMeasure /\
  nth_error (query_measures config) 1 = Some rightMeasure.

(** The provisional text element [determineMaxBarValueWidth] appends for a
    row: class [cls], the font of the value labels, the value as text. *)
Definition dummy_label {browser : Browser} (cls : string)
  (valueof : DoubleBarRow -> num) (d : DoubleBarRow) : elem :=
  set_text (numberToString (valueof d))
    (attr "font-size" (ANum (Fin 12))
      (attr "font-family" (AStr "sans-serif")
        (attr "class" (AStr cls) (createElement "text" (Some d))))).

(** What [truncateText] shows after cutting the text of [el] down to its
    first [j] characters: these characters and the ellipsis. *)
Definition candidate (el : elem) (j : nat) : elem :=
  set_text (substring 0 j (text el) ++ ellipsis)%string el.

(** A title text showing [t] at position [x]: what [setupSizing] makes of
    the title text [setupRender] appended with classes [cls]. *)
Definition written_title (cls : string) (anchor_end : bool) (t : string) (x : num)
  : elem :=
  set_text t (attr "x" (ANum x) (mk_title cls anchor_end)).

(** A title text as [setupRender] appended it: no text, no position. *)
Definition blank_title (n : node) : Prop :=
  kids n = [] /\
  (self n = mk_title "left-title title" true \/
   self n = mk_title "right-title title" false).

(** The title texts of a scene in document order: none, or a written left
    title, a written right title and then blank ones only. *)
Definition titles_shape (T : list node) : Prop :=
  T = [] \/
  exists l r T0,
    T = l :: r :: T0 /\
    kids l = [] /\
    (exists t x, self l = written_title "left-title title" true t x) /\
    kids r = [] /\
    (exists t x, self r = written_title "right-title title" false t x) /\
    Forall blank_title T0.

(** The greatest of [a] and of the measured widths of the provisional texts
    of class [cls] for the rows, taken in the order of the rows. *)
Definition label_max {browser : Browser} (cls : string)
  (valueof : DoubleBarRow -> num) (rowData : list DoubleBarRow) (a : Q) : Q :=
  fold_left
    (fun acc d =>
       if Qltb acc (getComputedTextLength (dummy_label cls valueof d))
       then getComputedTextLength (dummy_label cls valueof d)
       else acc)
    rowData a.

(* ================================================================== *)
(** * Properties *)

Lemma Qltb_true x y : Qltb x y = true <-> x < y.
Proof.
  unfold Qltb. rewrite Qlt_alt. destruct (x ?= y); split; congruence.
Qed.

Lemma Qltb_false x y : Qltb x y = false <-> y <= x.
Proof.
  destruct (Qltb x y) eqn:E.
  - apply Qltb_true in E. split; [discriminate | lra].
  - split; [intros _ | reflexivity].
    destruct (Qlt_le_dec x y) as [H | H]; [| exact H].
    apply Qltb_true in H. congruence.
Qed.

(** ** Numbers *)

Lemma same_refl a : a =n= a.
Proof. destruct a; simpl; [reflexivity | exact I]. Qed.

Lemma same_sym a b : a =n= b -> b =n= a.
Proof. destruct a, b; simpl; auto. intros H; symmetry; exact H. Qed.

Lemma same_trans a b c : a =n= b -> b =n= c -> a =n= c.
Proof.
  destruct a, b, c; simpl; auto; try contradiction.
  intros H1 H2. rewrite H1. exact H2.
Qed.

Lemma Qeq_bool_false x y : Qeq_bool x y = false <-> ~ x == y.
Proof.
  split.
  - intros H E. apply Qeq_bool_iff in E. congruence.
  - intros H. destruct (Qeq_bool x y) eqn:E; [| reflexivity].
    apply Qeq_bool_iff in E. contradiction.
Qed.

(** ** Geometry getters *)

Lemma geometry_unfold (v : DoubleBar) :
  let g := spec_geometry (Num.toNumber (width v)) (Num.toNumber (height v))
                         (Num.toNumber (maxBarLabelWidth v)) in
  graphWidth v = g_graphWidth g /\
  halfGraphWidth v = g_halfGraphWidth g /\
  halfGraphBarMaxWidth v = g_halfGraphBarMaxWidth g /\
  titleTextWidth v = g_titleTextWidth g /\
  barOriginX v = g_barOriginX g.
Proof. cbv zeta. repeat split. Qed.

(** C3: the derived geometry values are the stated expressions of the width
    and of the measured label width; they coincide with [spec_geometry], a
    function of the width, the height and [maxBarLabelWidth] alone, so two
    instances that agree on these three inputs have the same geometry. *)
Theorem geometry_getters_pure (v : DoubleBar) :
  (graphWidth v = (Num.toNumber (width v) * Fin 0.65)%num /\
   halfGraphWidth v = (graphWidth v / Fin 2)%num /\
   halfGraphBarMaxWidth v
     = (halfGraphWidth v - (Num.toNumber (maxBarLabelWidth v) + Fin 10))%num /\
   titleTextWidth v = (halfGraphWidth v - Fin 10)%num /\
   barOriginX v = (Num.toNumber (width v) - halfGraphWidth v)%num) /\
  (forall v' : DoubleBar,
     width v' = width v ->
     height v' = height v ->
     maxBarLabelWidth v' = maxBarLabelWidth v ->
     graphWidth v' = graphWidth v /\
     halfGraphWidth v' = halfGraphWidth v /\
     halfGraphBarMaxWidth v' = halfGraphBarMaxWidth v /\
     titleTextWidth v' = titleTextWidth v /\
     barOriginX v' = barOriginX v).
Proof.
  split; [repeat split |].
  intros v' Hw Hh Hl.
  destruct (geometry_unfold v) as (A1 & A2 & A3 & A4 & A5).
  destruct (geometry_unfold v') as (B1 & B2 & B3 & B4 & B5).
  rewrite A1, A2, A3, A4, A5, B1, B2, B3, B4, B5, Hw, Hh, Hl.
  repeat split.
Qed.

(** ** Tooltip *)

(** *** Rounding to binary64 *)

Lemma nearest_even_close (y : Q) :
  Qabs (inject_Z (F64.nearest_even y) - y) <= 1 # 2.
Proof.
  unfold F64.nearest_even.
  pose proof (Qfloor_le y) as Hlo. pose proof (Qlt_floor y) as Hhi.
  rewrite inject_Z_plus in Hhi. change (inject_Z 1) with 1 in Hhi.
  apply Qabs_Qle_condition.
  assert (U : inject_Z (Qfloor y + 1) == inject_Z (Qfloor y) + 1).
  { rewrite inject_Z_plus. reflexivity. }
  destruct (Qcompare (y - inject_Z (Qfloor y)) (1 # 2)) eqn:E.
  - apply Qeq_alt in E. destruct (Z.even (Qfloor y)); [| rewrite U]; lra.
  - apply Qlt_alt in E. lra.
  - apply Qgt_alt in E. rewrite U. lra.
Qed.

Lemma two_power_pos (k : Z) : 0 < 2 ^ k.
Proof. apply Qpower_0_lt. reflexivity. Qed.

Lemma Qabs_zero (q : Q) : Qabs q == 0 -> q == 0.
Proof.
  intros L. destruct (Qlt_le_dec q 0) as [B | B].
  - rewrite Qabs_neg in L by lra. lra.
  - rewrite Qabs_pos in L by lra. lra.
Qed.

(** The binade of a positive rational starts at or below it. *)
Lemma binade_le (a : Q) : 0 < a -> 2 ^ F64.binade a <= a.
Proof.
  intros Ha. unfold F64.binade.
  set (p := Z.log2 (Qnum a)). set (d := Z.log2 (Zpos (Qden a))).
  destruct (Qle_bool (2 ^ (p - d)) a) eqn:E; [apply Qle_bool_iff; exact E |].
  assert (Hn : (0 < Qnum a)%Z).
  { destruct a as [n m]. unfold Qlt in Ha. cbn in *. lia. }
  assert (Hp : (2 ^ p <= Qnum a)%Z) by (apply Z.log2_spec; exact Hn).
  assert (Hd : (Zpos (Qden a) < 2 ^ (d + 1))%Z).
  { replace (d + 1)%Z with (Z.succ d) by lia. apply Z.log2_spec. reflexivity. }
  assert (P0 : (0 <= p)%Z) by apply Z.log2_nonneg.
  assert (D0 : (0 <= d)%Z) by apply Z.log2_nonneg.
  assert (Q1 : 2 ^ p <= inject_Z (Qnum a)).
  { rewrite <- (Zpower_Qpower 2 p P0). rewrite <- Zle_Qle. exact Hp. }
  assert (Q2 : inject_Z (Zpos (Qden a)) <= 2 ^ (d + 1)).
  { rewrite <- (Zpower_Qpower 2 (d + 1)) by lia. rewrite <- Zle_Qle. lia. }
  assert (Q3 : 0 < inject_Z (Zpos (Qden a))).
  { change 0 with (inject_Z 0). rewrite <- Zlt_Qlt. reflexivity. }
  assert (A : a == inject_Z (Qnum a) / inject_Z (Zpos (Qden a))).
  { destruct a as [n m]. cbn [Qnum Qden]. apply Qmake_Qdiv. }
  replace (p - d - 1)%Z with (p - (d + 1))%Z by lia.
  rewrite Qpower_minus by (intros K; discriminate K).
  rewrite A.
  pose proof (two_power_pos p) as T1. pose proof (two_power_pos (d + 1)) as T2.
  apply Qle_shift_div_l; [exact Q3 |].
  apply Qle_trans with (2 ^ p); [| exact Q1].
  unfold Qdiv. rewrite <- Qmult_assoc.
  rewrite <- (Qmult_1_r (2 ^ p)) at 2.
  apply Qmult_le_l; [exact T1 |].
  rewrite Qmult_comm. apply Qle_shift_div_r; [exact T2 |]. lra.
Qed.

(** The magnitude [r] that [round q] keeps is within half a unit in the last
    place of the magnitude of [q]: a relative error of [2^-53], or [2^-1075]
    where the last place is the least one; the result is an infinity exactly
    when [r] reaches [2^1024]. *)
Lemma round_spec (q : Q) :
  exists r : Q,
    Qabs (r - Qabs q) <= Qabs q * 2 ^ (-53) + 2 ^ (-1075) /\
    F64.round q = (if Qle_bool (2 ^ 1024) r then F64.Inf (Qltb q 0)
                   else F64.Val (if Qltb q 0 then - r else r)).
Proof.
  unfold F64.round. destruct (Qeq_bool q 0) eqn:Z0.
  - apply Qeq_bool_iff in Z0. exists 0. split.
    + rewrite Z0. vm_compute. discriminate.
    + replace (Qle_bool (2 ^ 1024) 0) with false by (vm_compute; reflexivity).
      replace (Qltb q 0) with false; [reflexivity |].
      symmetry. apply Qltb_false. lra.
  - set (a := Qabs q).
    set (e := Z.max (F64.binade a - 52) (-1074)).
    exists (inject_Z (F64.nearest_even (a / 2 ^ e)) * 2 ^ e). split; [| reflexivity].
    assert (Ha : 0 < a).
    { unfold a. apply Qeq_bool_neq in Z0.
      pose proof (Qabs_nonneg q) as N.
      destruct (Qle_lt_or_eq _ _ N) as [L | L]; [exact L |].
      exfalso. apply Z0. apply Qabs_zero. symmetry. exact L. }
    pose proof (two_power_pos e) as Pe.
    pose proof (nearest_even_close (a / 2 ^ e)) as C.
    set (n := inject_Z (F64.nearest_even (a / 2 ^ e))) in *.
    assert (D : Qabs (n * 2 ^ e - a) <= (1 # 2) * 2 ^ e).
    { assert (X : n * 2 ^ e - a == (n - a / 2 ^ e) * 2 ^ e) by (field; lra).
      rewrite X, Qabs_Qmult. rewrite (Qabs_pos (2 ^ e)) by lra.
      apply Qmult_le_compat_r; [exact C | lra]. }
    apply Qle_trans with ((1 # 2) * 2 ^ e); [exact D |].
    pose proof (binade_le Ha) as B.
    pose proof (two_power_pos (-53)) as P53.
    pose proof (two_power_pos (-1075)) as P1075.
    unfold e.
    destruct (Z.max_spec (F64.binade a - 52) (-1074)) as [[_ M] | [_ M]]; rewrite M.
    + assert (X : (1 # 2) * 2 ^ (-1074) == 2 ^ (-1075)) by reflexivity.
      rewrite X.
      assert (0 <= a * 2 ^ (-53)) by (apply Qmult_le_0_compat; lra). lra.
    + assert (X : (1 # 2) * 2 ^ (F64.binade a - 52)
                  == 2 ^ F64.binade a * 2 ^ (-53)).
      { replace (F64.binade a - 52)%Z with (F64.binade a + (-52))%Z by lia.
        rewrite Qpower_plus by (intros K; discriminate K).
        assert (Y : 2 ^ (-52) == 2 * 2 ^ (-53)) by reflexivity.
        rewrite Y. ring. }
      rewrite X.
      assert (2 ^ F64.binade a * 2 ^ (-53) <= a * 2 ^ (-53)).
      { apply Qmult_le_compat_r; lra. }
      lra.
Qed.

(** Below the overflow threshold [round q] is a number within half a unit in
    the last place of [q]. *)
Lemma round_val (q : Q) :
  Qabs q * (1 + 2 ^ (-53)) + 2 ^ (-1075) < 2 ^ 1024 ->
  exists x : Q,
    F64.round q = F64.Val x /\
    Qabs (x - q) <= Qabs q * 2 ^ (-53) + 2 ^ (-1075).
Proof.
  intros Hb. destruct (round_spec q) as (r & D & E).
  remember (2 ^ (-53)) as u. remember (2 ^ (-1075)) as eta.
  remember (2 ^ 1024) as big.
  pose proof D as D'. apply Qabs_Qle_condition in D'.
  assert (O : Qle_bool big r = false).
  { destruct (Qle_bool big r) eqn:K; [| reflexivity].
    apply Qle_bool_iff in K. lra. }
  rewrite O in E.
  exists (if Qltb q 0 then - r else r). split; [exact E |].
  apply Qabs_Qle_condition.
  destruct (Qltb q 0) eqn:S.
  - apply Qltb_true in S. rewrite (Qabs_neg q) in * by lra. lra.
  - apply Qltb_false in S. rewrite (Qabs_pos q) in * by lra. lra.
Qed.

Lemma Qmult_le_nonneg_l (a x y : Q) : 0 <= a -> x <= y -> a * x <= a * y.
Proof.
  intros Ha H. rewrite (Qmult_comm a x), (Qmult_comm a y).
  apply Qmult_le_compat_r; assumption.
Qed.

(** The product [(l / r) * 100] of the tooltip, for [r > 0] and a percentage
    of at most [10^20]: a number below [10^21], within two roundings of the
    exact percentage. *)
Lemma tooltip_product (l r : Q) :
  0 < r ->
  Qabs (100 * l / r) <= 10 ^ 20 ->
  exists x : Q,
    F64.mul (F64.div (Fin l) (Fin r)) 100 = F64.Val x /\
    Qabs (x - 100 * l / r) <= Qabs (100 * l / r) * 2 ^ (-51) + 2 ^ (-1068) /\
    Qabs x < 10 ^ 21.
Proof.
  intros Hr Hb.
  assert (Z0 : Qeq_bool r 0 = false) by (apply Qeq_bool_false; lra).
  unfold F64.div. rewrite Z0.
  assert (HA : Qabs (100 * l / r) == 100 * Qabs (l / r)).
  { assert (X : 100 * l / r == 100 * (l / r)) by (field; lra).
    rewrite X, Qabs_Qmult. reflexivity. }
  rewrite HA in *.
  pose proof (Qabs_nonneg (l / r)) as A0.
  assert (U1 : 0 < 2 ^ (-53)) by apply two_power_pos.
  assert (U2 : 2 ^ (-53) <= 1 # 4) by (vm_compute; discriminate).
  assert (U3 : 4 * 2 ^ (-53) == 2 ^ (-51)) by reflexivity.
  assert (E1 : 0 < 2 ^ (-1075)) by apply two_power_pos.
  assert (E2 : 2 ^ (-1075) <= 1) by (vm_compute; discriminate).
  assert (E3 : 128 * 2 ^ (-1075) == 2 ^ (-1068)) by reflexivity.
  assert (B1 : 1000 * 10 ^ 20 < 2 ^ 1024) by (vm_compute; reflexivity).
  assert (B2 : 100 <= 10 ^ 20) by (vm_compute; discriminate).
  assert (B3 : 10 * 10 ^ 20 == 10 ^ 21) by reflexivity.
  remember (2 ^ (-53)) as u. remember (2 ^ (-1075)) as eta.
  remember (2 ^ 1024) as big. remember (10 ^ 20) as c.
  remember (2 ^ (-51)) as u4. remember (2 ^ (-1068)) as eta128.
  remember (10 ^ 21) as c10.
  set (A := Qabs (l / r)) in *.
  assert (Au : 0 <= A * u /\ A * u <= A * (1 # 4)).
  { split; [apply Qmult_le_0_compat; lra |]. apply Qmult_le_nonneg_l; lra. }
  destruct (round_val (l / r)) as (rho & R1 & D1).
  { rewrite <- Hequ, <- Heqeta, <- Heqbig. fold A. lra. }
  rewrite <- Hequ, <- Heqeta in D1. fold A in D1.
  rewrite R1. unfold F64.mul.
  assert (HB : Qabs (rho * 100) == 100 * Qabs rho).
  { rewrite Qabs_Qmult. change (Qabs 100) with 100. ring. }
  pose proof (Qabs_nonneg rho) as R0.
  assert (RA : Qabs rho <= A + (A * u + eta)).
  { pose proof (Qabs_triangle (rho - l / r) (l / r)) as T.
    assert (X : rho - l / r + l / r == rho) by ring.
    rewrite X in T. fold A in T. lra. }
  set (B := Qabs rho) in *.
  assert (Bu : 0 <= B * u /\ B * u <= B * (1 # 4)).
  { split; [apply Qmult_le_0_compat; lra |]. apply Qmult_le_nonneg_l; lra. }
  assert (Bu' : B * u <= A * u + (A * u + eta) * u).
  { rewrite <- Qmult_plus_distr_l. apply Qmult_le_compat_r; lra. }
  assert (Auu : (A * u + eta) * u <= (A * u + eta) * (1 # 4)).
  { apply Qmult_le_nonneg_l; lra. }
  destruct (round_val (rho * 100)) as (x & R2 & D2).
  { rewrite <- Hequ, <- Heqeta, <- Heqbig, HB. lra. }
  rewrite <- Hequ, <- Heqeta, HB in D2.
  exists x. split; [exact R2 |].
  assert (T1 : Qabs (x - 100 * l / r) <= Qabs (x - rho * 100) + 100 * Qabs (rho - l / r)).
  { pose proof (Qabs_triangle (x - rho * 100) (100 * (rho - l / r))) as T.
    assert (X : x - rho * 100 + 100 * (rho - l / r) == x - 100 * l / r) by (field; lra).
    rewrite X, Qabs_Qmult in T. exact T. }
  assert (T2 : Qabs x <= Qabs (x - rho * 100) + 100 * B).
  { pose proof (Qabs_triangle (x - rho * 100) (rho * 100)) as T.
    assert (X : x - rho * 100 + rho * 100 == x) by ring.
    rewrite X, HB in T. exact T. }
  assert (Au4 : 100 * A * u4 == 400 * (A * u)) by (rewrite <- U3; ring).
  split; [rewrite HA |]; lra.
Qed.

Lemma toFixed0_nearest (q : Q) :
  Qabs q < 10 ^ 21 ->
  exists m : N,
    toFixed0 (F64.Val q)
    = ((if Qltb q 0 then "-" else EmptyString)
         ++ NilZero.string_of_uint (N.to_uint m))%string /\
    Qabs q - (1 # 2) < inject_Z (Z.of_N m) /\
    inject_Z (Z.of_N m) <= Qabs q + (1 # 2).
Proof.
  intros Hb. unfold toFixed0.
  set (a := if Qltb q 0 then - q else q).
  assert (Ha : a == Qabs q).
  { unfold a. destruct (Qltb q 0) eqn:E.
    - apply Qltb_true in E. rewrite Qabs_neg; [reflexivity | lra].
    - apply Qltb_false in E. rewrite Qabs_pos; [reflexivity | lra]. }
  assert (Hge : 0 <= a) by (rewrite Ha; apply Qabs_nonneg).
  assert (O : Qle_bool (10 ^ 21) a = false).
  { destruct (Qle_bool (10 ^ 21) a) eqn:K; [| reflexivity].
    apply Qle_bool_iff in K. rewrite Ha in K.
    destruct (Qlt_irrefl _ (Qlt_le_trans _ _ _ Hb K)). }
  rewrite O.
  exists (Z.to_N (Qfloor (a + (1 # 2)))).
  assert (Hz : (0 <= Qfloor (a + (1 # 2)))%Z).
  { change 0%Z with (Qfloor 0). apply Qfloor_resp_le. lra. }
  rewrite Z2N.id by exact Hz.
  pose proof (Qfloor_le (a + (1 # 2))) as H1.
  pose proof (Qlt_floor (a + (1 # 2))) as H2.
  rewrite inject_Z_plus in H2. change (inject_Z 1) with 1 in H2.
  split; [reflexivity |].
  rewrite <- Ha. split; lra.
Qed.

Lemma tooltip_no_ratio (item : DoubleBarRow) :
  Num.gt (right item) (Fin 0) = false ->
  rowTooltipSelector item = "<span>Ratio: 0%</span>"%string.
Proof.
  intros H. unfold rowTooltipSelector. rewrite H. reflexivity.
Qed.

(** ** Text truncation *)

Section Truncation.
Context {browser : Browser}.

Lemma set_text_set_text t1 t2 el : set_text t1 (set_text t2 el) = set_text t1 el.
Proof. reflexivity. Qed.

Lemma fits_le (w : Q) (el : elem) :
  fits (Fin w) el <-> getComputedTextLength el <= w.
Proof.
  unfold fits, Num.gt, Num.lt. apply Qltb_false.
Qed.

(** The loop stops at the first text that fits, or on the ellipsis alone. *)
Lemma truncate_loop_first (w : num) (full : string) (k : nat) (el : elem) :
  let r := truncate_loop w full k el in
  (r = el /\ (fits w el \/ k = O)) \/
  (exists j, (j < k)%nat /\
             r = set_text (substring 0 j full ++ ellipsis)%string el /\
             ~ fits w el /\
             (forall j', (j < j' < k)%nat ->
                ~ fits w (set_text (substring 0 j' full ++ ellipsis)%string el)) /\
             (fits w r \/ j = O)).
Proof.
  revert el. induction k as [| k IH]; intros el; cbn.
  - left. split; [reflexivity | right; reflexivity].
  - destruct (Num.gt (Fin (getComputedTextLength el)) w) eqn:G.
    + right.
      assert (NF : ~ fits w el) by (unfold fits; congruence).
      specialize (IH (set_text (substring 0 k full ++ ellipsis)%string el)).
      cbv zeta in IH.
      destruct IH as [[E C] | (j & Hj & E & NF1 & Hbetween & C)].
      * exists k. split; [lia |]. rewrite E. split; [reflexivity |].
        split; [exact NF |]. split; [intros j' Hj'; lia |].
        destruct C as [C | C]; [left; exact C | right; exact C].
      * exists j. split; [lia |]. rewrite E, set_text_set_text.
        split; [reflexivity |]. split; [exact NF |]. split.
        -- intros j' Hj'. destruct (Nat.eq_dec j' k) as [-> | Hne].
           ++ exact NF1.
           ++ specialize (Hbetween j'). rewrite set_text_set_text in Hbetween.
              apply Hbetween. lia.
        -- rewrite <- set_text_set_text
             with (t2 := (substring 0 k full ++ ellipsis)%string).
           rewrite <- E. exact C.
    + left. split; [reflexivity | left; exact G].
Qed.

(** C6 (as amended): for every text element and every finite width [w], a
    text that already fits, or an empty one, is left unchanged; a text that
    does not fit is cut to its longest proper prefix that fits once the
    ellipsis is appended (every longer prefix with the ellipsis is wider than
    [w]), and when no such prefix of at least one character exists, to the
    ellipsis alone, whatever its width.  So the result fits, or it is the
    ellipsis alone, or the empty text it was; only the text changes. *)
Theorem truncateText_law (w : Q) (el : elem) :
  let r := truncateText (Fin w) el in
  (getComputedTextLength el <= w -> r = el) /\
  (text el = EmptyString -> r = el) /\
  (w < getComputedTextLength el ->
   text el <> EmptyString ->
   exists j,
     (j < String.length (text el))%nat /\
     r = candidate el j /\
     (forall j', (j < j' < String.length (text el))%nat ->
        w < getComputedTextLength (candidate el j')) /\
     (getComputedTextLength r <= w \/
      (j = O /\ text r = ellipsis /\ w < getComputedTextLength r))) /\
  (getComputedTextLength r <= w \/
   (text el <> EmptyString /\ text r = ellipsis) \/
   (text el = EmptyString /\ r = el)) /\
  (r = el \/
   exists j, (j < String.length (text el))%nat /\
             text r = (substring 0 j (text el) ++ ellipsis)%string) /\
  tag r = tag el /\ attrs r = attrs el /\ datum r = datum el.
Proof.
  cbv zeta. unfold truncateText.
  pose proof (truncate_loop_first (Fin w) (text el) (String.length (text el)) el) as H.
  cbv zeta in H.
  assert (NF : forall e, ~ fits (Fin w) e <-> w < getComputedTextLength e).
  { intros e. rewrite fits_le. split; [apply Qnot_le_lt | apply Qlt_not_le]. }
  split; [| split; [| split; [| split; [| split]]]].
  - intros Hfit. apply fits_le in Hfit.
    destruct (String.length (text el)); [reflexivity |].
    cbn. rewrite Hfit. reflexivity.
  - intros He. rewrite He. reflexivity.
  - intros Hw He.
    destruct H as [[E [C | C]] | (j & Hj & E & _ & Hb & C)].
    + apply fits_le in C. destruct (Qlt_not_le _ _ Hw C).
    + destruct (text el); [destruct He; reflexivity | discriminate C].
    + exists j. split; [exact Hj |]. split; [exact E |].
      split; [intros j' Hj'; apply NF; apply Hb; exact Hj' |].
      destruct (Qlt_le_dec w (getComputedTextLength
                                (truncate_loop (Fin w) (text el)
                                   (String.length (text el)) el)))
        as [L | L]; [right | left; exact L].
      destruct C as [C | C]; [apply fits_le in C; destruct (Qlt_not_le _ _ L C) |].
      split; [exact C |]. split; [| exact L].
      rewrite E, C. cbn. destruct (text el); reflexivity.
  - destruct H as [[E [C | C]] | (j & Hj & E & _ & _ & [C | C])].
    + left. rewrite E. apply fits_le. exact C.
    + right. right. split; [| exact E].
      destruct (text el); [reflexivity | discriminate].
    + left. apply fits_le. exact C.
    + right. left. split.
      * intros K. rewrite K in Hj. cbn in Hj. lia.
      * rewrite E, C. cbn. destruct (text el); reflexivity.
  - destruct H as [[E _] | (j & Hj & E & _)].
    + left. exact E.
    + right. exists j. split; [exact Hj |]. rewrite E. reflexivity.
  - destruct H as [[E _] | (j & Hj & E & _)]; rewrite E; repeat split.
Qed.

End Truncation.

(** ** Domains of the value scales *)

Lemma extent_rest_max (vs : list num) :
  Forall (fun v => Num.finite v = true) vs ->
  forall (mn : num) (m : Q),
  exists m' : Q,
    snd (extent_rest vs mn (Fin m)) = Fin m' /\
    m <= m' /\
    Forall (fun v => Num.le v (Fin m')) vs /\
    (m' = m \/ In (Fin m') vs).
Proof.
  induction 1 as [| v vs Hv Hvs IH]; intros mn m; cbn [extent_rest].
  - exists m. repeat split; [lra | constructor | left; reflexivity].
  - destruct v as [x |]; [| discriminate]. cbn [Num.lt].
    destruct (Qltb m x) eqn:E.
    + apply Qltb_true in E.
      destruct (IH (if Num.gt mn (Fin x) then Fin x else mn) x)
        as (m' & S & Hle & Hall & Hin).
      exists m'. rewrite S. repeat split; [lra | |].
      * constructor; [exact Hle | exact Hall].
      * right. destruct Hin as [-> | Hin]; [left; reflexivity | right; exact Hin].
    + apply Qltb_false in E.
      destruct (IH (if Num.gt mn (Fin x) then Fin x else mn) m)
        as (m' & S & Hle & Hall & Hin).
      exists m'. rewrite S. repeat split; [exact Hle | |].
      * constructor; [cbn; lra | exact Hall].
      * destruct Hin as [-> | Hin]; [left; reflexivity | right; right; exact Hin].
Qed.

Lemma extent_max {A : Type} (values : list A) (valueof : A -> num) :
  values <> [] ->
  Forall (fun a => Num.finite (valueof a) = true) values ->
  exists m : Q,
    snd (extent values valueof) = Some (Fin m) /\
    (forall a, In a values -> Num.le (valueof a) (Fin m)) /\
    (exists a, In a values /\ valueof a = Fin m).
Proof.
  intros Hne Hfin. destruct values as [| a values]; [contradiction |].
  inversion Hfin as [| ? ? Ha Hrest]; subst.
  unfold extent. cbn [map extent_from].
  destruct (valueof a) as [x |] eqn:Ea; [| discriminate].
  cbn [Num.ge]. replace (Qle_bool x x) with true
    by (symmetry; apply Qle_bool_iff; lra).
  assert (F : Forall (fun v => Num.finite v = true) (map valueof values)).
  { apply Forall_forall. intros v Hv. apply in_map_iff in Hv.
    destruct Hv as (b & <- & Hb).
    rewrite Forall_forall in Hrest. apply Hrest. exact Hb. }
  destruct (extent_rest_max F (Fin x) x) as (m & S & Hle & Hall & Hin).
  destruct (extent_rest (map valueof values) (Fin x) (Fin x)) as [mn mx].
  cbn in S. subst mx. exists m. cbn [snd]. split; [reflexivity |]. split.
  - intros b [-> | Hb].
    + rewrite Ea. exact Hle.
    + rewrite Forall_forall in Hall. apply Hall. apply in_map. exact Hb.
  - destruct Hin as [-> | Hin].
    + exists a. split; [left; reflexivity | exact Ea].
    + apply in_map_iff in Hin. destruct Hin as (b & Eb & Hb).
      exists b. split; [right; exact Hb | exact Eb].
Qed.

Lemma extent_nil {A : Type} (valueof : A -> num) :
  extent (@nil A) valueof = (None, None).
Proof. reflexivity. Qed.

Section Domains.
Context {browser : Browser}.

Lemma setupInputs_fields (d : DoubleBarData) (v : DoubleBar) :
  let m := Num.max (Num.toNumber (snd (extent (rows d) rowLeftSelector)))
                   (Num.toNumber (snd (extent (rows d) rowRightSelector))) in
  svg (setupInputs d v) = svg v /\
  svgRows (setupInputs d v) = svgRows v /\
  width (setupInputs d v) = width v /\
  height (setupInputs d v) = height v /\
  maxBarLabelWidth (setupInputs d v) = maxBarLabelWidth v /\
  lin_domain (leftBarWidth (setupInputs d v)) = (Fin 0, m) /\
  lin_domain (rightBarWidth (setupInputs d v)) = (Fin 0, m) /\
  tooltip (setupInputs d v) <> None.
Proof.
  cbv zeta. unfold setupInputs. cbn. repeat split. discriminate.
Qed.

(** C2: after [setupInputs] the two value scales have the same domain, which
    starts at [0]; for a non-empty row set of finite values its upper bound is
    the greatest of all left and right values taken together. *)
Theorem setupInputs_shared_domain (d : DoubleBarData) (v : DoubleBar) :
  let v' := setupInputs d v in
  lin_domain (leftBarWidth v') = lin_domain (rightBarWidth v') /\
  fst (lin_domain (leftBarWidth v')) = Fin 0 /\
  (rows d <> [] ->
   forallb finite_row (rows d) = true ->
   exists m : Q,
     lin_domain (leftBarWidth v') = (Fin 0, Fin m) /\
     lin_domain (rightBarWidth v') = (Fin 0, Fin m) /\
     pooled_max m (rows d)).
Proof.
  cbv zeta.
  destruct (setupInputs_fields d v) as (_ & _ & _ & _ & _ & L & R & _).
  cbv zeta in L, R. rewrite L, R.
  split; [reflexivity |]. split; [reflexivity |].
  intros Hne Hfin.
  assert (FL : Forall (fun r => Num.finite (rowLeftSelector r) = true) (rows d)).
  { apply Forall_forall. intros r Hr.
    rewrite forallb_forall in Hfin. specialize (Hfin r Hr).
    apply andb_true_iff in Hfin. apply Hfin. }
  assert (FR : Forall (fun r => Num.finite (rowRightSelector r) = true) (rows d)).
  { apply Forall_forall. intros r Hr.
    rewrite forallb_forall in Hfin. specialize (Hfin r Hr).
    apply andb_true_iff in Hfin. apply Hfin. }
  destruct (@extent_max _ (rows d) rowLeftSelector Hne FL) as (ml & El & Ul & (al & Inl & Al)).
  destruct (@extent_max _ (rows d) rowRightSelector Hne FR) as (mr & Er & Ur & (ar & Inr & Ar)).
  rewrite El, Er. cbn [Num.toNumber Num.max].
  exists (if Qltb ml mr then mr else ml).
  split; [reflexivity |]. split; [reflexivity |].
  unfold rowLeftSelector, rowRightSelector in *.
  destruct (Qltb ml mr) eqn:E.
  - apply Qltb_true in E. split.
    + intros r Hr. specialize (Ul r Hr). specialize (Ur r Hr).
      destruct (left r), (right r); cbn in *; try contradiction.
      split; lra.
    + exists ar. split; [exact Inr | right; exact Ar].
  - apply Qltb_false in E. split.
    + intros r Hr. specialize (Ul r Hr). specialize (Ur r Hr).
      destruct (left r), (right r); cbn in *; try contradiction.
      split; lra.
    + exists al. split; [exact Inl | left; exact Al].
Qed.

End Domains.

(** ** Scales *)

(** A linear scale whose domain is [[0, 0]] sends every input, number or not,
    to the start of its range. *)
Lemma linear_degenerate (s : ScaleLinear) (m r0 r1 : Q) (x : num) :
  lin_domain s = (Fin 0, Fin m) ->
  m == 0 ->
  lin_range s = (Fin r0, Fin r1) ->
  linear_apply s x =n= Fin r0.
Proof.
  intros Hd Hm Hr. unfold linear_apply, bimap. rewrite Hd, Hr.
  cbn [Num.lt].
  replace (Qltb m 0) with false by (symmetry; apply Qltb_false; lra).
  unfold deinterpolateLinear, interpolateNumber. cbn [Num.sub Num.lift2 Num.truthy].
  replace (Qeq_bool (m - 0) 0) with true
    by (symmetry; apply Qeq_bool_iff; lra).
  cbn. rewrite Hm. ring.
Qed.

(** A linear scale whose domain ends in [NaN] sends every input to [NaN]. *)
Lemma linear_nan_domain (s : ScaleLinear) (x : num) :
  lin_domain s = (Fin 0, NaN) ->
  linear_apply s x = NaN.
Proof.
  intros Hd. unfold linear_apply, bimap. rewrite Hd.
  destruct (lin_range s) as [r0 r1]. cbn.
  unfold interpolateNumber. cbn. destruct r0, r1; reflexivity.
Qed.

Lemma max_one_ge (x : Q) : 1 <= (if Qltb 1 x then x else 1).
Proof.
  destruct (Qltb 1 x) eqn:E; [apply Qltb_true in E; lra | lra].
Qed.

(** After [rescale], with a finite range and an inner padding in [[0, 1]],
    step and bandwidth are numbers with [0 <= bandwidth <= step]. *)
Lemma rescale_step_bandwidth (s : ScaleBand) (a b p o : Q) :
  band_range s = (Fin a, Fin b) ->
  band_paddingInner s = Fin p ->
  band_paddingOuter s = Fin o ->
  0 <= p -> p <= 1 ->
  exists st bw : Q,
    band_step (rescale s) = Fin st /\
    band_bandwidth (rescale s) = Fin bw /\
    0 <= bw /\ bw <= st.
Proof.
  intros Hr Hp Ho Hp0 Hp1. unfold rescale. rewrite Hr, Hp, Ho.
  cbn [fst snd band_step band_bandwidth Num.lt Num.ofNat Num.sub Num.add Num.mul
       Num.lift2 Num.max Num.div].
  set (n := inject_Z (Z.of_nat (List.length (band_domain s)))).
  set (M := if Qltb 1 (n - p + o * 2) then n - p + o * 2 else 1).
  assert (HM : 1 <= M) by apply max_one_ge.
  assert (Z0 : Qeq_bool M 0 = false).
  { apply Qeq_bool_false. lra. }
  destruct (Qltb b a) eqn:E.
  - apply Qltb_true in E. cbn [Num.sub Num.lift2 Num.div].
    rewrite Z0. cbn [Num.mul Num.lift2 Num.sub].
    eexists; eexists. split; [reflexivity |]. split; [reflexivity |].
    assert (S : 0 <= (a - b) / M).
    { apply Qle_shift_div_l; lra. }
    split; [apply Qmult_le_0_compat; lra |]. nra.
  - apply Qltb_false in E. cbn [Num.sub Num.lift2 Num.div].
    rewrite Z0. cbn [Num.mul Num.lift2 Num.sub].
    eexists; eexists. split; [reflexivity |]. split; [reflexivity |].
    assert (S : 0 <= (b - a) / M).
    { apply Qle_shift_div_l; lra. }
    split; [apply Qmult_le_0_compat; lra |]. nra.
Qed.

Lemma clamp01_07 : clamp01 (Fin 0.7) = Fin 0.7.
Proof. reflexivity. Qed.

(** The row scale as [setupInputs] and [setupSizing] configure it. *)
Lemma row_scale_configured (y : ScaleBand) (n : nat) (h : Q) :
  let y' :=
    band_set_range (Fin 15, Fin h)
      (band_set_domain (sequence n)
         (band_set_paddingOuter
            (band_paddingInner (band_set_paddingInner (Fin 0.7) y) / Fin 2)%num
            (band_set_paddingInner (Fin 0.7) y))) in
  exists st bw : Q,
    band_step y' = Fin st /\ band_bandwidth y' = Fin bw /\ 0 <= bw /\ bw <= st.
Proof.
  cbv zeta. unfold band_set_range at 1.
  eapply rescale_step_bandwidth with (p := 0.7).
  - reflexivity.
  - reflexivity.
  - reflexivity.
  - lra.
  - lra.
Qed.

(** ** Lists, selections and the scene *)

Lemma mapM_app {A B : Type} (f : A -> res B) (l1 l2 : list A) :
  mapM f (l1 ++ l2)
  = (r1 <- mapM f l1 ;; r2 <- mapM f l2 ;; Ok (r1 ++ r2)).
Proof.
  induction l1 as [| x l1 IH]; cbn.
  - destruct (mapM f l2); reflexivity.
  - destruct (f x); cbn; [| reflexivity]. rewrite IH.
    destruct (mapM f l1); cbn; [| reflexivity].
    destruct (mapM f l2); reflexivity.
Qed.

Lemma mapM_ok {A B : Type} (f : A -> res B) (g : A -> B) (l : list A) :
  (forall x, In x l -> f x = Ok (g x)) ->
  mapM f l = Ok (map g l).
Proof.
  induction l as [| x l IH]; intros H; cbn; [reflexivity |].
  rewrite (H x) by (left; reflexivity). cbn.
  rewrite IH by (intros y Hy; apply H; right; exact Hy). reflexivity.
Qed.

Lemma mapM_id {A : Type} (f : A -> res A) (l : list A) :
  (forall x, In x l -> f x = Ok x) ->
  mapM f l = Ok l.
Proof.
  intros H. rewrite (mapM_ok f (fun x => x)) by exact H.
  rewrite map_id. reflexivity.
Qed.

Lemma mapM_map {A B C : Type} (f : B -> res C) (h : A -> B) (l : list A) :
  mapM f (map h l) = mapM (fun x => f (h x)) l.
Proof.
  induction l as [| x l IH]; cbn; [reflexivity |]. rewrite IH. reflexivity.
Qed.

Lemma map_fst_combine_seq {A : Type} (l : list A) (k : nat) :
  map fst (combine (seq k (List.length l)) l) = seq k (List.length l).
Proof.
  revert k. induction l as [| x l IH]; intros k; cbn; [reflexivity |].
  rewrite IH. reflexivity.
Qed.

Lemma in_combine_seq {A : Type} (l : list A) (k : nat) (p : nat * A) :
  In p (combine (seq k (List.length l)) l) ->
  (k <= fst p < k + List.length l)%nat /\ In (snd p) l.
Proof.
  destruct p as [i x]. intros H. split.
  - apply in_combine_l in H. apply in_seq in H. cbn. lia.
  - apply in_combine_r in H. exact H.
Qed.

Lemma sel_index_at_inside (from id n k : nat) :
  (from + k <= id < from + k + n)%nat ->
  sel_index id (map (fun i => Some (from + i)%nat) (seq k n))
  = Some (id - from - k)%nat.
Proof.
  revert k. induction n as [| n IH]; intros k H; [lia |].
  cbn [seq map sel_index].
  destruct (Nat.eqb (from + k) id) eqn:E.
  - apply Nat.eqb_eq in E. f_equal. lia.
  - apply Nat.eqb_neq in E. rewrite IH by lia. cbn. f_equal. lia.
Qed.

Lemma sel_index_at_outside (from id n k : nat) :
  (id < from + k \/ from + k + n <= id)%nat ->
  sel_index id (map (fun i => Some (from + i)%nat) (seq k n)) = None.
Proof.
  revert k. induction n as [| n IH]; intros k H; [reflexivity |].
  cbn [seq map sel_index].
  destruct (Nat.eqb (from + k) id) eqn:E.
  - apply Nat.eqb_eq in E. lia.
  - rewrite IH by lia. reflexivity.
Qed.

Lemma sel_index_inside (from n i : nat) :
  (i < n)%nat -> sel_index (from + i) (sel_ids from n) = Some i.
Proof.
  intros H. unfold sel_ids. rewrite sel_index_at_inside by lia.
  f_equal. lia.
Qed.

Lemma sel_index_outside (from n id : nat) :
  (id < from \/ from + n <= id)%nat -> sel_index id (sel_ids from n) = None.
Proof.
  intros H. unfold sel_ids. apply sel_index_at_outside. lia.
Qed.

Lemma filter_none {A : Type} (p : A -> bool) (l : list A) :
  (forall x, In x l -> p x = false) -> filter p l = [].
Proof.
  induction l as [| x l IH]; intros H; cbn; [reflexivity |].
  rewrite (H x) by (left; reflexivity).
  apply IH. intros y Hy. apply H. right. exact Hy.
Qed.

Lemma each_node_groups (pre post : list node) (h h' : nat -> DoubleBarRow -> node)
  (f : nat -> node -> res node) (from : nat) (rs : list DoubleBarRow) :
  (forall i d, nid (h i d) = (from + i)%nat) ->
  outside from (List.length rs) pre ->
  outside from (List.length rs) post ->
  (forall i d, In d rs -> f i (h i d) = Ok (h' i d)) ->
  each_node (sel_ids from (List.length rs)) f (pre ++ groups_from h rs ++ post)
  = Ok (pre ++ groups_from h' rs ++ post).
Proof.
  intros Hid Hpre Hpost Hf. unfold each_node.
  assert (Out : forall l, outside from (List.length rs) l ->
    mapM (fun n => match sel_index (nid n) (sel_ids from (List.length rs)) with
                   | Some i => f i n
                   | None => Ok n
                   end) l = Ok l).
  { intros l Hl. apply mapM_id. intros x Hx.
    unfold outside in Hl. rewrite Forall_forall in Hl.
    rewrite sel_index_outside by (apply Hl; exact Hx). reflexivity. }
  rewrite !mapM_app, (Out pre Hpre), (Out post Hpost). cbn [bind].
  unfold groups_from. rewrite mapM_map.
  erewrite mapM_ok with (g := fun p => h' (fst p) (snd p)); [reflexivity |].
  intros p Hp. apply in_combine_seq in Hp. destruct Hp as [Hi Hd].
  rewrite Hid, sel_index_inside by lia. apply Hf. exact Hd.
Qed.

Lemma remove_groups (pre post : list node) (h : nat -> DoubleBarRow -> node)
  (from : nat) (rs : list DoubleBarRow) :
  (forall i d, nid (h i d) = (from + i)%nat) ->
  outside from (List.length rs) pre ->
  outside from (List.length rs) post ->
  remove (sel_ids from (List.length rs)) (pre ++ groups_from h rs ++ post)
  = pre ++ post.
Proof.
  intros Hid Hpre Hpost. unfold remove.
  assert (Out : forall l, outside from (List.length rs) l ->
    filter (fun n => negb (selected (sel_ids from (List.length rs)) n)) l = l).
  { intros l Hl. apply forallb_filter_id. apply forallb_forall. intros x Hx.
    unfold outside in Hl. rewrite Forall_forall in Hl. unfold selected.
    rewrite sel_index_outside by (apply Hl; exact Hx). reflexivity. }
  rewrite !filter_app, (Out pre Hpre), (Out post Hpost).
  rewrite filter_none; [reflexivity |].
  intros x Hx. unfold groups_from in Hx. apply in_map_iff in Hx.
  destruct Hx as (p & <- & Hp). apply in_combine_seq in Hp.
  unfold selected. rewrite Hid, sel_index_inside by lia. reflexivity.
Qed.

Lemma bind_elems_none (q : selector) (data : list DoubleBarRow) (es : list elem) :
  Forall (fun e => matches q e = false) es ->
  bind_elems q data es = (es, data).
Proof.
  induction 1 as [| e es He Hes IH]; cbn; [reflexivity |].
  unfold bind_elem. rewrite He, IH. reflexivity.
Qed.

Lemma data_join_none (q : selector) (data : list DoubleBarRow) (ns : list node) :
  Forall (fun e => matches q e = false) (descendants ns) ->
  data_join q data ns = (ns, data).
Proof.
  induction ns as [| n ns IH]; intros H; cbn; [reflexivity |].
  unfold descendants in H. cbn in H.
  inversion H as [| ? ? Hself Hrest]; subst.
  apply Forall_app in Hrest. destruct Hrest as [Hkids Hns].
  unfold bind_elem. rewrite Hself, (@bind_elems_none q data (kids n) Hkids), (IH Hns).
  destruct n; reflexivity.
Qed.

Lemma remove_nil (ns : list node) : remove [] ns = ns.
Proof.
  unfold remove. apply forallb_filter_id. apply forallb_forall. reflexivity.
Qed.

Lemma enter_nodes_groups (mk : DoubleBarRow -> elem) (from : nat)
  (rs : list DoubleBarRow) :
  enter_nodes mk from rs
  = groups_from (fun i d => mkNode (from + i) [] (mk d) []) rs.
Proof. reflexivity. Qed.

Lemma selection_of_groups (h : nat -> DoubleBarRow -> node) (from : nat)
  (rs : list DoubleBarRow) :
  (forall i d, nid (h i d) = (from + i)%nat) ->
  selection_of 0 (groups_from h rs) = sel_ids from (List.length rs).
Proof.
  intros Hid. unfold selection_of, groups_from, sel_ids. cbn [repeat app].
  rewrite map_map.
  rewrite <- (map_fst_combine_seq rs 0) at 2. rewrite map_map.
  apply map_ext. intros p. rewrite Hid. reflexivity.
Qed.

Lemma length_groups_from (h : nat -> DoubleBarRow -> node) (rs : list DoubleBarRow) :
  List.length (groups_from h rs) = List.length rs.
Proof.
  unfold groups_from. rewrite length_map, length_combine, length_seq. lia.
Qed.

Lemma outside_weaken (from n : nat) (ns : list node) :
  Forall (fun x => (nid x < from)%nat) ns -> outside from n ns.
Proof.
  unfold outside. apply Forall_impl. intros x Hx. left. exact Hx.
Qed.

Lemma Forall_descendants (P : elem -> Prop) (ns : list node) :
  Forall (fun n => P (self n) /\ Forall P (kids n)) ns ->
  Forall P (descendants ns).
Proof.
  induction 1 as [| n ns [Hs Hk] Hns IH]; cbn; [constructor |].
  constructor; [exact Hs |]. apply Forall_app. split; [exact Hk | exact IH].
Qed.

Lemma get_attr_set_attr_ne (k k' : string) (v : aval) (l : alist) :
  k <> k' -> get_attr k (set_attr k' v l) = get_attr k l.
Proof.
  intros Hne. induction l as [| [k0 w] l IH]; cbn.
  - destruct (String.eqb k' k) eqn:E; [| reflexivity].
    apply String.eqb_eq in E. congruence.
  - destruct (String.eqb k0 k') eqn:E; cbn.
    + apply String.eqb_eq in E. subst k0.
      destruct (String.eqb k' k) eqn:E2; [| reflexivity].
      apply String.eqb_eq in E2. congruence.
    + rewrite IH. reflexivity.
Qed.

Lemma classes_attr_ne (k : string) (v : aval) (e : elem) :
  k <> "class"%string -> classes (attr k v e) = classes e.
Proof.
  intros Hne. unfold classes, attr. cbn [attrs].
  rewrite get_attr_set_attr_ne by congruence. reflexivity.
Qed.

Section Scene.
Context {browser : Browser}.

(** *** What [truncateText] leaves alone *)

Lemma truncate_loop_shape (w : num) (full : string) (k : nat) (el : elem) :
  truncate_loop w full k el = set_text (text (truncate_loop w full k el)) el.
Proof.
  revert el. induction k as [| k IH]; intros el; cbn.
  - destruct el; reflexivity.
  - destruct (Num.gt (Fin (getComputedTextLength el)) w).
    + rewrite IH at 1. reflexivity.
    + destruct el; reflexivity.
Qed.

Lemma truncateText_shape (w : num) (el : elem) :
  truncateText w el = set_text (text (truncateText w el)) el.
Proof. apply truncate_loop_shape. Qed.

Lemma matches_truncateText (q : selector) (w : num) (el : elem) :
  matches q (truncateText w el) = matches q el.
Proof. rewrite truncateText_shape. reflexivity. Qed.

(** *** Title texts *)

Lemma first_elem_none (q : selector) (f : elem -> elem) (es : list elem) :
  Forall (fun e => matches q e = false) es -> first_elem q f es = None.
Proof.
  induction 1 as [| e es He Hes IH]; cbn; [reflexivity |].
  rewrite He, IH. reflexivity.
Qed.

Lemma select_first_retitled (q : selector) (f : elem -> elem) (ns : list node) :
  Forall (fun n => first_elem q f (kids n) = None) ns ->
  Forall2 (retitled f) ns (select_first q f ns).
Proof.
  induction 1 as [| n ns Hn Hns IH]; cbn; [constructor |].
  destruct (matches q (self n)).
  - constructor; [right; reflexivity |].
    clear. induction ns; constructor; [left; reflexivity | assumption].
  - rewrite Hn. constructor; [left; reflexivity | exact IH].
Qed.

Lemma Forall2_retitled_refl (f : elem -> elem) (ns : list node) :
  Forall2 (retitled f) ns ns.
Proof. induction ns; constructor; [left; reflexivity | assumption]. Qed.

Lemma select_first_app (q : selector) (f : elem -> elem) (A B : list node) :
  Forall (fun n => first_elem q f (kids n) = None) A ->
  select_first q f (A ++ B)
  = if existsb (fun n => matches q (self n)) A
    then select_first q f A ++ B
    else A ++ select_first q f B.
Proof.
  induction 1 as [| n A Hn HA IH]; cbn; [reflexivity |].
  destruct (matches q (self n)); cbn; [reflexivity |].
  rewrite Hn, IH. destruct (existsb _ A); reflexivity.
Qed.

(** [select(q)] over titles, row groups, titles: the row groups stay. *)
Lemma select_first_around (q : selector) (f : elem -> elem) (T G N : list node) :
  Forall (fun n => first_elem q f (kids n) = None) (T ++ G ++ N) ->
  Forall (fun n => matches q (self n) = false) G ->
  exists T' N',
    select_first q f (T ++ G ++ N) = T' ++ G ++ N' /\
    Forall2 (retitled f) T T' /\
    Forall2 (retitled f) N N'.
Proof.
  intros Hk HG.
  apply Forall_app in Hk. destruct Hk as [HkT Hk].
  apply Forall_app in Hk. destruct Hk as [HkG HkN].
  rewrite select_first_app by exact HkT.
  destruct (existsb _ T).
  - exists (select_first q f T), N. split; [reflexivity |].
    split; [apply select_first_retitled; exact HkT | apply Forall2_retitled_refl].
  - rewrite select_first_app by exact HkG.
    replace (existsb (fun n => matches q (self n)) G) with false.
    + exists T, (select_first q f N). split; [reflexivity |].
      split; [apply Forall2_retitled_refl | apply select_first_retitled; exact HkN].
    + symmetry. apply not_true_is_false. intros E.
      apply existsb_exists in E. destruct E as (g & Hg & E).
      rewrite Forall_forall in HG. rewrite (HG g Hg) in E. discriminate.
Qed.

Lemma title_node_update (w : num) (t : string) (x : num) (n : node) :
  title_node n -> title_node (set_self (title_update w t x) n).
Proof.
  intros (Hk & Ht & Hc). unfold title_node, set_self, title_update.
  cbn [kids self]. rewrite truncateText_shape.
  split; [exact Hk |]. split; [exact Ht |].
  replace (classes (set_text _ (set_text t (attr "x" (ANum x) (self n)))))
    with (classes (self n)); [exact Hc |].
  symmetry. unfold classes. cbn [attrs set_text attr].
  rewrite get_attr_set_attr_ne by discriminate. reflexivity.
Qed.

Lemma retitled_titles (w : num) (t : string) (x : num) (P : nat -> Prop)
  (ns ns' : list node) :
  Forall2 (retitled (title_update w t x)) ns ns' ->
  Forall title_node ns ->
  Forall (fun n => P (nid n)) ns ->
  Forall title_node ns' /\ Forall (fun n => P (nid n)) ns' /\
  List.length ns' = List.length ns.
Proof.
  induction 1 as [| a b ns ns' Hab Hrest IH]; intros Ht Hp.
  - repeat split; constructor.
  - inversion Ht; subst. inversion Hp; subst.
    destruct IH as (I1 & I2 & I3); [assumption | assumption |].
    destruct Hab as [-> | ->].
    + repeat split; [constructor; assumption | constructor; assumption | cbn; lia].
    + repeat split.
      * constructor; [apply title_node_update; assumption | assumption].
      * constructor; [cbn; assumption | assumption].
      * cbn. lia.
Qed.

Lemma title_no_match (q : selector) (n : node) :
  title_node n ->
  ~ In (sel_class q) ["left-title"; "title"; "right-title"]%string ->
  matches q (self n) = false /\ Forall (fun e => matches q e = false) (kids n).
Proof.
  intros (Hk & Ht & Hc) Hq. rewrite Hk. split; [| constructor].
  unfold matches. apply andb_false_iff. right.
  apply not_true_is_false. intros E. apply existsb_exists in E.
  destruct E as (c & Hc' & E). apply String.eqb_eq in E. subst c.
  apply Hq. destruct Hc as [Hc | Hc]; rewrite Hc in Hc'; cbn in Hc' |- *; tauto.
Qed.

Lemma title_not_group (n : node) :
  title_node n ->
  matches (mkSel "g" "chart-row") (self n) = false /\
  Forall (fun e => matches (mkSel "g" "chart-row") e = false) (kids n).
Proof.
  intros H. apply title_no_match; [exact H |].
  cbn. intros [E | [E | [E | []]]]; discriminate.
Qed.

(** *** The probe of label widths *)

Lemma probe_fold_finite (sel : selection) (l : list node) (a : Q) :
  exists a' : Q,
    fold_left
      (fun acc n =>
         if selected sel n
         then Some (Num.max (Num.toNumber acc)
                            (Fin (getComputedTextLength (self n))))
         else acc)
      l (Some (Fin a)) = Some (Fin a').
Proof.
  revert a. induction l as [| n l IH]; intros a; cbn.
  - exists a. reflexivity.
  - destruct (selected sel n); [apply IH | apply IH].
Qed.

Lemma probe_scene (cls : string) (valueof : DoubleBarRow -> num)
  (rowData : list DoubleBarRow) (v : DoubleBar) (s : svgT) (a : Q) :
  svg v = Some s ->
  maxBarLabelWidth v = Some (Fin a) ->
  Forall (fun n => (nid n < fresh s)%nat) (children s) ->
  Forall (fun e => matches (mkSel "text" cls) e = false)
         (descendants (children s)) ->
  exists a' : Q,
    probe cls valueof rowData v
    = Ok (with_svg
            (Some {| svg_attrs := svg_attrs s;
                     children := children s;
                     fresh := fresh s + List.length rowData |})
            (with_maxBarLabelWidth (Some (Fin a')) v)).
Proof.
  intros Hs Hm Hfresh Hnone. unfold probe. rewrite Hs.
  rewrite data_join_none by exact Hnone.
  unfold enter_append. rewrite Nat.sub_diag, enter_nodes_groups.
  rewrite selection_of_groups with (from := fresh s) by reflexivity.
  cbn [children]. rewrite Hm.
  destruct (probe_fold_finite (sel_ids (fresh s) (List.length rowData))
              (children s ++
               groups_from
                 (fun i d =>
                    mkNode (fresh s + i) []
                      (set_text (numberToString (valueof d))
                         (attr "font-size" (ANum (Fin 12))
                            (attr "font-family" (AStr "sans-serif")
                               (attr "class" (AStr cls)
                                  (createElement "text" (Some d)))))) [])
                 rowData) a) as (a' & Ea).
  exists a'. rewrite Ea.
  rewrite <- (app_nil_r (groups_from _ rowData)).
  rewrite remove_groups;
    [| reflexivity | apply outside_weaken; exact Hfresh | constructor].
  rewrite app_nil_r. reflexivity.
Qed.

End Scene.

Section Cycle.
Context {browser : Browser}.

Lemma title_node_left (id : nat) : title_node (left_title_node id).
Proof. repeat split. left. reflexivity. Qed.

Lemma title_node_right (id : nat) : title_node (right_title_node id).
Proof. repeat split. right. reflexivity. Qed.

Lemma rendered_group_nid (config : VisConfig) (from i : nat) (d : DoubleBarRow) :
  nid (rendered_group config from i d) = (from + i)%nat.
Proof. reflexivity. Qed.

(** *** [setupRender] on a scene of title texts *)
Lemma setupRender_scene (d : DoubleBarData) (config : VisConfig)
  (v : DoubleBar) (s : svgT) (T : list node) :
  svg v = Some s ->
  tooltip v <> None ->
  remove (rows_selection v) (children s) = T ->
  Forall title_node T ->
  Forall (fun n => (nid n < fresh s)%nat) T ->
  setupRender d config v
  = Ok (with_svg
          (Some {| svg_attrs := svg_attrs s;
                   children :=
                     T ++ groups_from (rendered_group config (fresh s)) (rows d)
                       ++ [left_title_node (fresh s + List.length (rows d));
                           right_title_node (S (fresh s + List.length (rows d)))];
                   fresh := S (S (fresh s + List.length (rows d))) |})
          (with_svgRows (Some (sel_ids (fresh s) (List.length (rows d)))) v)).
Proof.
  intros Hs Ht HT Htit Hfr.
  unfold setupRender. rewrite Hs.
  destruct (tooltip v) as [tip |]; [| congruence].
  replace (match svgRows v with
           | Some old => remove old (children s)
           | None => children s
           end) with T.
  2:{ rewrite <- HT. unfold rows_selection.
      destruct (svgRows v); [reflexivity | rewrite remove_nil; reflexivity]. }
  rewrite data_join_none.
  2:{ apply Forall_descendants. revert Htit. apply Forall_impl.
      intros n Hn. apply title_not_group. exact Hn. }
  unfold enter_append. rewrite Nat.sub_diag, enter_nodes_groups.
  rewrite selection_of_groups with (from := fresh s) by reflexivity.
  rewrite <- (app_nil_r (groups_from _ (rows d))).
  cbn [children].
  assert (HoT : outside (fresh s) (List.length (rows d)) T)
    by (apply outside_weaken; exact Hfr).
  assert (HoN : outside (fresh s) (List.length (rows d)) []) by constructor.
  do 7 (erewrite each_node_groups;
        [ | reflexivity | exact HoT | exact HoN
          | intros i dd _; cbn; reflexivity ];
        cbn [bind]).
  unfold append_child, set_children. cbn [children fresh svg_attrs].
  rewrite app_nil_r, <- !app_assoc. reflexivity.
Qed.

Lemma row_group_nid (v : DoubleBar) (config : VisConfig) (from i : nat)
  (d : DoubleBarRow) :
  nid (row_group v config from i d) = (from + i)%nat.
Proof. reflexivity. Qed.

Local Arguments Num.add : simpl never.
Local Arguments Num.sub : simpl never.
Local Arguments Num.mul : simpl never.
Local Arguments Num.div : simpl never.
Local Arguments Num.neg : simpl never.
Local Arguments Num.toNumber : simpl never.
Local Arguments linear_apply : simpl never.
Local Arguments band_apply : simpl never.
Local Arguments truncateText : simpl never.
Local Arguments rowHeight : simpl never.
Local Arguments barHeight : simpl never.
Local Arguments barMargin : simpl never.
Local Arguments barOriginX : simpl never.
Local Arguments rowHighlightThickness : simpl never.
Local Arguments legendTextWidth : simpl never.
Local Arguments titleTextWidth : simpl never.

(** *** The chains of [setupSizing] on the row groups of [setupRender] *)
Lemma setupSizing_scene_groups (d : DoubleBarData) (config : VisConfig)
  (v : DoubleBar) (from : nat) (T N : list node) :
  outside from (List.length (rows d)) T ->
  outside from (List.length (rows d)) N ->
  setupSizing_scene d v (sel_ids from (List.length (rows d)))
    (T ++ groups_from (rendered_group config from) (rows d) ++ N)
  = Ok (select_first (mkSel "text" "right-title")
          (title_update (titleTextWidth v) (rightTitle d) (barOriginX v + Fin 10)%num)
          (select_first (mkSel "text" "left-title")
             (title_update (titleTextWidth v) (leftTitle d) (barOriginX v - Fin 10)%num)
             (T ++ groups_from (row_group v config from) (rows d) ++ N))).
Proof.
  intros HT HN. unfold setupSizing_scene.
  do 2 (erewrite each_node_groups;
        [ | reflexivity | exact HT | exact HN
          | intros i dd _; cbn; reflexivity ];
        cbn [bind]).
  erewrite each_node_groups;
    [ | reflexivity | exact HT | exact HN
      | intros i dd _; cbn; rewrite truncateText_shape; cbn; reflexivity ].
  cbn [bind].
  do 4 (erewrite each_node_groups;
        [ | reflexivity | exact HT | exact HN
          | intros i dd _; cbn; reflexivity ];
        cbn [bind]).
  f_equal. f_equal. f_equal. f_equal. f_equal.
  unfold groups_from. apply map_ext. intros [i dd]. cbn [fst snd].
  unfold row_group, legend_of. rewrite (truncateText_shape (legendTextWidth v)).
  reflexivity.
Qed.

End Cycle.

Section Update.
Context {browser : Browser}.

Lemma Forall_groups_from (P : node -> Prop) (h : nat -> DoubleBarRow -> node)
  (rs : list DoubleBarRow) :
  (forall i d, (i < List.length rs)%nat -> In d rs -> P (h i d)) ->
  Forall P (groups_from h rs).
Proof.
  intros H. unfold groups_from. apply Forall_forall. intros x Hx.
  apply in_map_iff in Hx. destruct Hx as (p & <- & Hp).
  apply in_combine_seq in Hp. apply H; [lia | tauto].
Qed.

(** No element of a finished row group answers to a selector of another
    class. *)
Lemma row_group_no_match (q : selector) (v : DoubleBar) (config : VisConfig)
  (from i : nat) (d : DoubleBarRow) :
  ~ In (sel_class q)
       ["chart-row"; "row-highlight"; "legend-text"; "left-value";
        "right-value"; "left-bar"; "right-bar"]%string ->
  matches q (self (row_group v config from i d)) = false /\
  Forall (fun e => matches q e = false) (kids (row_group v config from i d)).
Proof.
  intros Hq.
  assert (K : forall c : string,
             In c ["chart-row"; "row-highlight"; "legend-text"; "left-value";
                   "right-value"; "left-bar"; "right-bar"]%string ->
             String.eqb (sel_class q) c = false).
  { intros c Hc. apply String.eqb_neq. intros E. apply Hq. rewrite E. exact Hc. }
  assert (M : forall e c,
             classes e = [c] ->
             In c ["chart-row"; "row-highlight"; "legend-text"; "left-value";
                   "right-value"; "left-bar"; "right-bar"]%string ->
             matches q e = false).
  { intros e c Hc Hin. unfold matches. rewrite Hc. cbn [existsb].
    rewrite (K c Hin). apply andb_false_iff. right. reflexivity. }
  split.
  - apply M with (c := "chart-row"%string); [reflexivity | cbn; tauto].
  - unfold row_group. cbn [kids]. unfold legend_of.
    repeat constructor.
    + apply M with (c := "row-highlight"%string); [reflexivity | cbn; tauto].
    + rewrite matches_truncateText.
      apply M with (c := "legend-text"%string); [reflexivity | cbn; tauto].
    + apply M with (c := "left-value"%string); [reflexivity | cbn; tauto].
    + apply M with (c := "right-value"%string); [reflexivity | cbn; tauto].
    + apply M with (c := "left-bar"%string); [reflexivity | cbn; tauto].
    + apply M with (c := "right-bar"%string); [reflexivity | cbn; tauto].
Qed.

Lemma not_in_group_classes (c : string) :
  In c ["left-title"; "right-title"; "title"; "dummy-left"; "dummy-right"]%string ->
  ~ In c ["chart-row"; "row-highlight"; "legend-text"; "left-value";
          "right-value"; "left-bar"; "right-bar"]%string.
Proof.
  cbn. intros [<- | [<- | [<- | [<- | [<- | []]]]]];
    intros [E | [E | [E | [E | [E | [E | [E | []]]]]]]]; discriminate.
Qed.

Lemma titles_no_kid_match (q : selector) (f : elem -> elem) (ns : list node) :
  Forall title_node ns ->
  Forall (fun n => first_elem q f (kids n) = None) ns.
Proof.
  apply Forall_impl. intros n (Hk & _). rewrite Hk. reflexivity.
Qed.

Lemma groups_no_kid_match (q : selector) (f : elem -> elem) (v : DoubleBar)
  (config : VisConfig) (from : nat) (rs : list DoubleBarRow) :
  ~ In (sel_class q)
       ["chart-row"; "row-highlight"; "legend-text"; "left-value";
        "right-value"; "left-bar"; "right-bar"]%string ->
  Forall (fun n => first_elem q f (kids n) = None)
         (groups_from (row_group v config from) rs) /\
  Forall (fun n => matches q (self n) = false)
         (groups_from (row_group v config from) rs).
Proof.
  intros Hq. split; apply Forall_groups_from; intros i d _ _.
  - apply first_elem_none. apply row_group_no_match. exact Hq.
  - apply row_group_no_match. exact Hq.
Qed.

(** The scene after the two [select] chains on the titles. *)
Lemma titles_selected (v : DoubleBar) (config : VisConfig) (d : DoubleBarData)
  (from : nat) (T N : list node) (PT PN : nat -> Prop) :
  Forall title_node T -> Forall title_node N ->
  Forall (fun n => PT (nid n)) T -> Forall (fun n => PN (nid n)) N ->
  exists T' N',
    select_first (mkSel "text" "right-title")
      (title_update (titleTextWidth v) (rightTitle d) (barOriginX v + Fin 10)%num)
      (select_first (mkSel "text" "left-title")
         (title_update (titleTextWidth v) (leftTitle d) (barOriginX v - Fin 10)%num)
         (T ++ groups_from (row_group v config from) (rows d) ++ N))
    = T' ++ groups_from (row_group v config from) (rows d) ++ N' /\
    Forall title_node T' /\ Forall title_node N' /\
    Forall (fun n => PT (nid n)) T' /\ Forall (fun n => PN (nid n)) N' /\
    List.length T' = List.length T /\ List.length N' = List.length N.
Proof.
  intros HT HN HPT HPN.
  assert (QL : ~ In (sel_class (mkSel "text" "left-title"))
                    ["chart-row"; "row-highlight"; "legend-text"; "left-value";
                     "right-value"; "left-bar"; "right-bar"]%string)
    by (apply not_in_group_classes; cbn; tauto).
  assert (QR : ~ In (sel_class (mkSel "text" "right-title"))
                    ["chart-row"; "row-highlight"; "legend-text"; "left-value";
                     "right-value"; "left-bar"; "right-bar"]%string)
    by (apply not_in_group_classes; cbn; tauto).
  set (fl := title_update (titleTextWidth v) (leftTitle d) (barOriginX v - Fin 10)%num).
  set (fr := title_update (titleTextWidth v) (rightTitle d) (barOriginX v + Fin 10)%num).
  destruct (@select_first_around (mkSel "text" "left-title") fl T
              (groups_from (row_group v config from) (rows d)) N)
    as (T1 & N1 & E1 & RT1 & RN1).
  { apply Forall_app. split; [apply titles_no_kid_match; exact HT |].
    apply Forall_app. split; [| apply titles_no_kid_match; exact HN].
    apply groups_no_kid_match. exact QL. }
  { apply groups_no_kid_match; [exact fl | exact QL]. }
  rewrite E1.
  destruct (retitled_titles PT RT1 HT HPT) as (HT1 & HPT1 & LT1).
  destruct (retitled_titles PN RN1 HN HPN) as (HN1 & HPN1 & LN1).
  destruct (@select_first_around (mkSel "text" "right-title") fr T1
              (groups_from (row_group v config from) (rows d)) N1)
    as (T2 & N2 & E2 & RT2 & RN2).
  { apply Forall_app. split; [apply titles_no_kid_match; exact HT1 |].
    apply Forall_app. split; [| apply titles_no_kid_match; exact HN1].
    apply groups_no_kid_match. exact QR. }
  { apply groups_no_kid_match; [exact fr | exact QR]. }
  rewrite E2.
  destruct (retitled_titles PT RT2 HT1 HPT1) as (HT2 & HPT2 & LT2).
  destruct (retitled_titles PN RN2 HN1 HPN1) as (HN2 & HPN2 & LN2).
  exists T2, N2. repeat split; try assumption; congruence.
Qed.

End Update.

Section Counting.
Context {browser : Browser}.

Lemma descendants_app (A B : list node) :
  descendants (A ++ B) = descendants A ++ descendants B.
Proof. unfold descendants. apply flat_map_app. Qed.

Lemma count_flat_map {A B : Type} (p : B -> bool) (f : A -> list B)
  (k : nat) (l : list A) :
  (forall x, In x l -> List.length (filter p (f x)) = k) ->
  List.length (filter p (flat_map f l)) = (k * List.length l)%nat.
Proof.
  induction l as [| x l IH]; intros H; cbn; [lia |].
  rewrite filter_app, length_app, (H x) by (left; reflexivity).
  rewrite IH by (intros y Hy; apply H; right; exact Hy). lia.
Qed.

Lemma title_is_title (n : node) :
  title_node n -> filter (matches (mkSel "text" "title")) (self n :: kids n) = [self n].
Proof.
  intros (Hk & Ht & Hc). rewrite Hk. cbn [filter].
  replace (matches (mkSel "text" "title") (self n)) with true; [reflexivity |].
  unfold matches. rewrite Ht. destruct Hc as [-> | ->]; reflexivity.
Qed.

Lemma count_titles (ns : list node) :
  Forall title_node ns ->
  List.length (filter (matches (mkSel "text" "title")) (descendants ns))
  = List.length ns /\
  List.length (filter (matches (mkSel "g" "chart-row")) (descendants ns)) = O.
Proof.
  intros H. unfold descendants. split.
  - rewrite count_flat_map with (k := 1%nat); [lia |].
    intros x Hx. rewrite Forall_forall in H.
    rewrite title_is_title by (apply H; exact Hx). reflexivity.
  - rewrite count_flat_map with (k := O); [lia |].
    intros x Hx. rewrite Forall_forall in H.
    destruct (title_not_group (H x Hx)) as [A B].
    rewrite filter_none; [reflexivity |].
    intros e [<- | He]; [exact A |].
    rewrite Forall_forall in B. apply B. exact He.
Qed.

Lemma row_group_is_group (v : DoubleBar) (config : VisConfig) (from i : nat)
  (d : DoubleBarRow) :
  filter (matches (mkSel "g" "chart-row"))
         (self (row_group v config from i d) :: kids (row_group v config from i d))
  = [self (row_group v config from i d)].
Proof.
  unfold row_group. cbn [self kids filter]. unfold legend_of.
  rewrite matches_truncateText. reflexivity.
Qed.

Lemma count_groups (v : DoubleBar) (config : VisConfig) (from : nat)
  (rs : list DoubleBarRow) :
  List.length (filter (matches (mkSel "text" "title"))
                 (descendants (groups_from (row_group v config from) rs))) = O /\
  List.length (filter (matches (mkSel "g" "chart-row"))
                 (descendants (groups_from (row_group v config from) rs)))
  = List.length rs.
Proof.
  unfold descendants. split.
  - rewrite count_flat_map with (k := O); [lia |].
    intros x Hx. unfold groups_from in Hx. apply in_map_iff in Hx.
    destruct Hx as (p & <- & _).
    destruct (@row_group_no_match _ (mkSel "text" "title") v config from
                (fst p) (snd p)) as [A B];
      [apply not_in_group_classes; cbn; tauto |].
    rewrite filter_none; [reflexivity |].
    intros e [<- | He]; [exact A |].
    rewrite Forall_forall in B. apply B. exact He.
  - rewrite count_flat_map with (k := 1%nat);
      [rewrite length_groups_from; lia |].
    intros x Hx. unfold groups_from in Hx. apply in_map_iff in Hx.
    destruct Hx as (p & <- & _). rewrite row_group_is_group. reflexivity.
Qed.

(** Titles, row groups, titles: as many [title] texts as title nodes, as many
    row groups as rows. *)
Lemma scene_counts (v : DoubleBar) (config : VisConfig) (from : nat)
  (rs : list DoubleBarRow) (T N : list node) (s : svgT) :
  children s = T ++ groups_from (row_group v config from) rs ++ N ->
  Forall title_node T -> Forall title_node N ->
  count (mkSel "text" "title") s = (List.length T + List.length N)%nat /\
  count (mkSel "g" "chart-row") s = List.length rs.
Proof.
  intros Hc HT HN. unfold count. rewrite Hc, !descendants_app, !filter_app, !length_app.
  destruct (count_titles HT) as [T1 T2]. destruct (count_titles HN) as [N1 N2].
  destruct (count_groups v config from rs) as [G1 G2].
  rewrite T1, T2, N1, N2, G1, G2. lia.
Qed.

Lemma createChartData_length (data : VisData) (config : VisConfig)
  (d : DoubleBarData) :
  createChartData data config = Ok d ->
  List.length (rows d) = List.length data.
Proof.
  unfold createChartData.
  destruct (field_at 0 (query_dimensions config)) as [dim |]; [| discriminate].
  destruct (field_at 0 (query_measures config)) as [lm |]; [| discriminate].
  destruct (field_at 1 (query_measures config)) as [rm |]; [| discriminate].
  cbn [bind].
  match goal with
  | |- context [mapM ?f data] => set (F := f)
  end.
  assert (L : forall l r, mapM F l = Ok r -> List.length r = List.length l).
  { induction l as [| x l IH]; cbn; intros r Hr.
    - inversion Hr. reflexivity.
    - destruct (F x); [| discriminate]. cbn [bind] in Hr.
      destruct (mapM F l) as [r' |]; [| discriminate]. cbn [bind] in Hr.
      inversion Hr. cbn. rewrite (IH r' eq_refl). reflexivity. }
  destruct (mapM F data) as [rs |] eqn:E; [| discriminate].
  cbn [bind]. intros H. inversion H. cbn [rows]. apply L. exact E.
Qed.

End Counting.

Section UpdateCycle.
Context {browser : Browser}.

Lemma scene_ok_create (v : DoubleBar) : scene_ok (create v).
Proof.
  eexists. split; [reflexivity |]. cbn.
  split; [constructor |]. split; [constructor |].
  split; [constructor | reflexivity].
Qed.

Lemma groups_with_svg (x : option svgT) (v : DoubleBar) (config : VisConfig)
  (from : nat) (rs : list DoubleBarRow) :
  groups_from (row_group (with_svg x v) config from) rs
  = groups_from (row_group v config from) rs.
Proof. reflexivity. Qed.

(** What [setupSizing_scales] changes: the offset of the tooltip and the
    three ranges. *)
Lemma setupSizing_scales_fields (tip : Tip) (v : DoubleBar) :
  svg (setupSizing_scales tip v) = svg v /\
  svgRows (setupSizing_scales tip v) = svgRows v /\
  width (setupSizing_scales tip v) = width v /\
  height (setupSizing_scales tip v) = height v /\
  maxBarLabelWidth (setupSizing_scales tip v) = maxBarLabelWidth v /\
  rowYPosition (setupSizing_scales tip v)
  = band_set_range (Fin 15, Num.toNumber (height v)) (rowYPosition v) /\
  leftBarWidth (setupSizing_scales tip v)
  = linear_set_range (Fin 1, halfGraphBarMaxWidth v) (leftBarWidth v) /\
  rightBarWidth (setupSizing_scales tip v)
  = linear_set_range (Fin 1, halfGraphBarMaxWidth v) (rightBarWidth v).
Proof. repeat split. Qed.

(** *** [determineMaxBarValueWidth] leaves the scene as it found it *)
Lemma determineMaxBarValueWidth_scene (rowData : list DoubleBarRow)
  (v : DoubleBar) (s : svgT) :
  svg v = Some s ->
  Forall (fun n => (nid n < fresh s)%nat) (children s) ->
  Forall (fun e => matches (mkSel "text" "dummy-left") e = false /\
                   matches (mkSel "text" "dummy-right") e = false)
         (descendants (children s)) ->
  exists a : Q,
    determineMaxBarValueWidth rowData v
    = Ok (with_svg
            (Some {| svg_attrs := svg_attrs s;
                     children := children s;
                     fresh := fresh s + List.length rowData + List.length rowData |})
            (with_maxBarLabelWidth (Some (Fin a)) v)).
Proof.
  intros Hs Hfresh Hdummy. unfold determineMaxBarValueWidth.
  destruct (@probe_scene _ "dummy-left"%string rowLeftSelector rowData
              (with_maxBarLabelWidth (Some (Fin 0)) v) s 0 Hs eq_refl)
    as (a1 & P1).
  { exact Hfresh. }
  { revert Hdummy. apply Forall_impl. intros e He. apply He. }
  rewrite P1. cbn [bind].
  destruct (@probe_scene _ "dummy-right"%string rowRightSelector rowData
              (with_svg
                 (Some {| svg_attrs := svg_attrs s;
                          children := children s;
                          fresh := fresh s + List.length rowData |})
                 (with_maxBarLabelWidth (Some (Fin a1))
                    (with_maxBarLabelWidth (Some (Fin 0)) v)))
              _ a1 eq_refl eq_refl)
    as (a2 & P2).
  { cbn [children fresh]. revert Hfresh. apply Forall_impl. intros x Hx. lia. }
  { cbn [children]. revert Hdummy. apply Forall_impl. intros e He. apply He. }
  rewrite P2. exists a2. reflexivity.
Qed.

(** *** [setupSizing] on the scene [setupRender] leaves *)
Lemma setupSizing_ok (d : DoubleBarData) (config : VisConfig) (v : DoubleBar)
  (tip : Tip) (s : svgT) (base : nat) (T N : list node) (PT PN : nat -> Prop) :
  tooltip v = Some tip ->
  svgRows v = Some (sel_ids base (List.length (rows d))) ->
  svg v = Some s ->
  children s = T ++ groups_from (rendered_group config base) (rows d) ++ N ->
  outside base (List.length (rows d)) T ->
  outside base (List.length (rows d)) N ->
  Forall title_node T -> Forall title_node N ->
  Forall (fun n => PT (nid n)) T -> Forall (fun n => PN (nid n)) N ->
  exists T' N',
    setupSizing d v
    = Ok (with_svg
            (Some (set_children
                     (T' ++ groups_from
                              (row_group (setupSizing_scales tip v) config base)
                              (rows d) ++ N') s))
            (setupSizing_scales tip v)) /\
    Forall title_node T' /\ Forall title_node N' /\
    Forall (fun n => PT (nid n)) T' /\ Forall (fun n => PN (nid n)) N' /\
    List.length T' = List.length T /\ List.length N' = List.length N.
Proof.
  intros Htip Hsel Hs Hch HoT HoN HT HN HPT HPN.
  unfold setupSizing. rewrite Htip. cbv zeta.
  destruct (setupSizing_scales_fields tip v) as (E1 & E2 & _).
  rewrite E1, E2, Hsel, Hs, Hch.
  rewrite (@setupSizing_scene_groups _ d config (setupSizing_scales tip v)
             base T N HoT HoN).
  cbn [bind].
  destruct (@titles_selected _ (setupSizing_scales tip v) config d base T N
              PT PN HT HN HPT HPN)
    as (T' & N' & E & HT' & HN' & HPT' & HPN' & LT' & LN').
  rewrite E. exists T', N'. repeat split; assumption.
Qed.

Lemma title_no_dummy (x : node) :
  title_node x ->
  (matches (mkSel "text" "dummy-left") (self x) = false /\
   matches (mkSel "text" "dummy-right") (self x) = false) /\
  Forall (fun e => matches (mkSel "text" "dummy-left") e = false /\
                   matches (mkSel "text" "dummy-right") e = false) (kids x).
Proof.
  intros Hx. split; [split |].
  - apply (@title_no_match (mkSel "text" "dummy-left") x Hx).
    cbn. intros [K | [K | [K | []]]]; discriminate.
  - apply (@title_no_match (mkSel "text" "dummy-right") x Hx).
    cbn. intros [K | [K | [K | []]]]; discriminate.
  - destruct Hx as (Hk & _). rewrite Hk. constructor.
Qed.

(** What one validated, well-formed call does to a well-formed scene. *)
Lemma updateAsync_scene (data : VisData) (element : HTMLElement)
  (config : VisConfig) (queryResponse : VisQueryResponse)
  (v : DoubleBar) (d : DoubleBarData) :
  scene_ok v ->
  validateInputs queryResponse = true ->
  createChartData data config = Ok d ->
  exists (v' : DoubleBar) (s s' : svgT) (T N : list node) (base : nat) (a : Q),
    updateAsync data element config queryResponse v = Ok (v', 1%nat) /\
    svg v = Some s /\ svg v' = Some s' /\
    children s'
    = T ++ groups_from (row_group v' config base) (rows d) ++ N /\
    Forall title_node T /\ Forall title_node N /\
    List.length T = List.length (remove (rows_selection v) (children s)) /\
    List.length N = 2%nat /\
    outside base (List.length (rows d)) T /\
    outside base (List.length (rows d)) N /\
    svgRows v' = Some (sel_ids base (List.length (rows d))) /\
    scene_ok v' /\
    width v' = Some (Num.ofZ (clientWidth element)) /\
    height v' = Some (Num.ofZ (clientHeight element)) /\
    maxBarLabelWidth v' = Some (Fin a) /\
    rowYPosition v'
    = band_set_range (Fin 15, Num.ofZ (clientHeight element))
        (rowYPosition (setupInputs d v)) /\
    leftBarWidth v'
    = linear_set_range (Fin 1, halfGraphBarMaxWidth v')
        (leftBarWidth (setupInputs d v)) /\
    rightBarWidth v'
    = linear_set_range (Fin 1, halfGraphBarMaxWidth v')
        (rightBarWidth (setupInputs d v)).
Proof.
  intros (s & Hs & Hfresh & Hdummy & Htitles & Hcount) Hvalid Hdata.
  set (n := List.length (rows d)).
  set (T := remove (rows_selection v) (children s)) in *.
  assert (HTfresh : Forall (fun x => (nid x < fresh s)%nat) T).
  { unfold T, remove. apply Forall_forall. intros x Hx.
    apply filter_In in Hx. rewrite Forall_forall in Hfresh.
    apply Hfresh. apply Hx. }
  unfold updateAsync. rewrite Hvalid. cbn [negb].
  cbn [svg with_size]. rewrite Hs, Hdata. cbn [bind].
  match goal with
  | |- context [determineMaxBarValueWidth _ ?w] => set (v3 := w)
  end.
  destruct (@determineMaxBarValueWidth_scene (rows d) v3 _ eq_refl)
    as (a & P).
  { exact Hfresh. }
  { exact Hdummy. }
  rewrite P. cbn [bind]. fold n. cbn [svg_attrs children fresh svg_attr].
  set (base := (fresh s + n + n)%nat).
  assert (HTbase : Forall (fun x => (nid x < base)%nat) T).
  { revert HTfresh. apply Forall_impl. intros x Hx. unfold base. lia. }
  match goal with
  | |- context [setupRender d config ?w] => set (v4 := w)
  end.
  rewrite (@setupRender_scene _ d config v4 _ T eq_refl);
    [| discriminate | reflexivity | exact Htitles | exact HTbase ].
  cbn [bind]. fold n. cbn [svg_attrs children fresh svg_attr].
  set (N := [left_title_node (base + n); right_title_node (S (base + n))]).
  match goal with
  | |- context [setupSizing d ?w] => set (v5 := w)
  end.
  assert (HoT : outside base n T) by (apply outside_weaken; exact HTbase).
  assert (HoN : outside base n N).
  { repeat constructor; cbn; lia. }
  destruct (@setupSizing_ok d config v5
              {| tip_class := "d3-tooltip"; tip_offset := (Fin 0, Fin 0) |}
              _ base T N
              (fun id => (id < base)%nat)
              (fun id => (base + n <= id < S (S (base + n)))%nat)
              eq_refl eq_refl eq_refl eq_refl HoT HoN Htitles)
    as (T' & N' & E & HT' & HN' & HPT' & HPN' & LT' & LN').
  { constructor; [apply title_node_left |].
    constructor; [apply title_node_right | constructor]. }
  { exact HTbase. }
  { repeat constructor; cbn; lia. }
  rewrite E. cbn [bind].
  set (v6 := setupSizing_scales _ v5).
  assert (HoT' : outside base n T').
  { revert HPT'. apply Forall_impl. intros x Hx. left. exact Hx. }
  assert (HoN' : outside base n N').
  { revert HPN'. apply Forall_impl. intros x Hx. right. lia. }
  eexists. exists s. eexists. exists T', N', base, a.
  split; [reflexivity |].
  split; [reflexivity |].
  split; [reflexivity |].
  split; [cbn [children set_children]; rewrite groups_with_svg; reflexivity |].
  split; [exact HT' |]. split; [exact HN' |].
  split; [exact LT' |]. split; [exact LN' |].
  split; [exact HoT' |]. split; [exact HoN' |].
  split; [reflexivity |].
  split.
  { eexists. split; [reflexivity |]. cbn [children fresh set_children].
    split; [| split].
    - apply Forall_app. split.
      + revert HPT'. apply Forall_impl. intros x Hx. cbn. lia.
      + apply Forall_app. split.
        * apply Forall_groups_from. intros i dd Hi _. cbn. fold n in Hi. lia.
        * revert HPN'. apply Forall_impl. intros x Hx. cbn. lia.
    - apply Forall_descendants. apply Forall_app. split; [| apply Forall_app; split].
      + revert HT'. apply Forall_impl. apply title_no_dummy.
      + apply Forall_groups_from. intros i dd _ _.
        destruct (@row_group_no_match _ (mkSel "text" "dummy-left") v6 config base i dd)
          as [L1 L2]; [apply not_in_group_classes; cbn; tauto |].
        destruct (@row_group_no_match _ (mkSel "text" "dummy-right") v6 config base i dd)
          as [R1 R2]; [apply not_in_group_classes; cbn; tauto |].
        split; [split; assumption |].
        rewrite Forall_forall in L2, R2 |- *. intros e He.
        split; [apply L2 | apply R2]; exact He.
      + revert HN'. apply Forall_impl. apply title_no_dummy.
    - unfold rows_selection. cbn [svgRows with_svg].
      change (svgRows v6) with (Some (sel_ids base (List.length (rows d)))).
      cbv beta iota.
      rewrite remove_groups; [| reflexivity | exact HoT' | exact HoN'].
      split; [apply Forall_app; split; assumption |].
      rewrite length_app.
      apply (@scene_counts _ v6 config base (rows d) T' N');
        [reflexivity | exact HT' | exact HN']. }
  repeat split.
Qed.

End UpdateCycle.

(** ** The update cycle *)

Section Claims.
Context {browser : Browser}.

Lemma updateAsync_invalid (data : VisData) (element : HTMLElement)
  (config : VisConfig) (queryResponse : VisQueryResponse) (v : DoubleBar) :
  validateInputs queryResponse = false ->
  updateAsync data element config queryResponse v = Ok (v, O).
Proof.
  intros H. unfold updateAsync. rewrite H. reflexivity.
Qed.

(** A call that returns either failed validation and changed nothing, or ran
    on data that the adapter accepted. *)
Lemma updateAsync_returns (data : VisData) (element : HTMLElement)
  (config : VisConfig) (queryResponse : VisQueryResponse)
  (v v' : DoubleBar) (calls : nat) :
  updateAsync data element config queryResponse v = Ok (v', calls) ->
  (validateInputs queryResponse = false /\ v' = v /\ calls = O) \/
  (validateInputs queryResponse = true /\
   exists d, createChartData data config = Ok d).
Proof.
  intros H. destruct (validateInputs queryResponse) eqn:Hv.
  - right. split; [reflexivity |].
    unfold updateAsync in H. rewrite Hv in H. cbn [negb] in H.
    destruct (svg (with_size _ _ v)); [| discriminate].
    destruct (createChartData data config) as [d |]; [| discriminate].
    exists d. reflexivity.
  - left. rewrite updateAsync_invalid in H by exact Hv.
    inversion H. repeat split.
Qed.

Lemma reachable_scene_ok (v : DoubleBar) : reachable v -> scene_ok v.
Proof.
  induction 1 as [| v data element config queryResponse v' calls Hr IH Hu].
  - apply scene_ok_create.
  - destruct (@updateAsync_returns data element config queryResponse v _ _ Hu) as [(_ & -> & _) | (Hv & d & Hd)].
    + exact IH.
    + destruct (@updateAsync_scene _ data element config queryResponse v d IH Hv Hd)
        as (v'' & s & s' & T & N & base & a & E & _ & _ & _ & _ & _ & _ & _ &
            _ & _ & _ & Hok & _).
      rewrite E in Hu. inversion Hu. subst v'. exact Hok.
Qed.


(** ** Row geometry *)

Lemma margin_of_step (v : DoubleBar) (st bw : Q) :
  band_step (rowYPosition v) = Fin st ->
  band_bandwidth (rowYPosition v) = Fin bw ->
  0 <= bw -> bw <= st ->
  Num.le (Fin 0) (barMargin v) /\ Num.le (barHeight v) (rowHeight v).
Proof.
  intros Hs Hb H0 H1. unfold barMargin, barHeight, rowHeight.
  rewrite Hs, Hb.
  change (Num.le (Fin 0) (Fin ((st - bw) / 2)) /\ Num.le (Fin bw) (Fin st)).
  cbn [Num.le]. split; [| exact H1].
  apply Qle_shift_div_l; lra.
Qed.

(** C7: in every instance the host can hold, in particular after every
    cycle that configured the scales, [barMargin >= 0] and
    [barHeight <= rowHeight]. *)
Theorem row_geometry_invariant (v : DoubleBar) :
  reachable v ->
  Num.le (Fin 0) (barMargin v) /\ Num.le (barHeight v) (rowHeight v).
Proof.
  induction 1 as [| v data element config queryResponse v' calls Hr IH Hu].
  - eapply margin_of_step;
      [reflexivity | reflexivity | compute; discriminate | compute; discriminate].
  - destruct (@updateAsync_returns data element config queryResponse v _ _ Hu) as [(_ & -> & _) | (Hv & d & Hd)].
    + exact IH.
    + destruct (@updateAsync_scene _ data element config queryResponse v d (reachable_scene_ok Hr) Hv Hd)
        as (v'' & s & s' & T & N & base & a & E & _ & _ & _ & _ & _ & _ & _ &
            _ & _ & _ & _ & _ & _ & _ & HY & _).
      rewrite E in Hu. inversion Hu. subst v''.
      destruct (row_scale_configured (rowYPosition v)
                  (List.length (rows d)) (inject_Z (clientHeight element)))
        as (st & bw & Hst & Hbw & Hpos & Hle).
      cbv zeta in Hst, Hbw.
      apply margin_of_step with (st := st) (bw := bw);
        [rewrite HY; exact Hst | rewrite HY; exact Hbw | exact Hpos | exact Hle].
Qed.

End Claims.

(** ** The scene after a cycle *)

Section SceneClaims.
Context {browser : Browser}.

(** One well-formed call: it returns, the scene then holds one row group per
    row of the new data and two title texts more than before. *)
Lemma cycle_counts (c : call) (v : DoubleBar) :
  reachable v ->
  well_formed c = true ->
  exists v',
    updateAsync (call_data c) (call_element c) (call_config c)
      (call_response c) v = Ok (v', 1%nat) /\
    reachable v' /\
    row_groups v' = List.length (call_data c) /\
    title_texts v' = (title_texts v + 2)%nat.
Proof.
  intros Hr Hwf. unfold well_formed in Hwf.
  apply andb_true_iff in Hwf. destruct Hwf as [Hv Hd].
  destruct (createChartData (call_data c) (call_config c)) as [d |] eqn:Ed;
    [| discriminate].
  pose proof (reachable_scene_ok Hr) as Hok.
  destruct (@updateAsync_scene _ (call_data c) (call_element c) (call_config c)
              (call_response c) v d Hok Hv Ed)
    as (v' & s & s' & T & N & base & a & E & Hs & Hs' & Hc & HT & HN & LT & LN & _).
  exists v'. split; [exact E |]. split; [eapply reach_update; eassumption |].
  destruct (@scene_counts _ v' (call_config c) base (rows d) T N s' Hc HT HN)
    as [Ct Cg].
  unfold row_groups, title_texts. rewrite Hs, Hs'.
  split; [rewrite Cg; eapply createChartData_length; exact Ed |].
  destruct Hok as (s0 & Hs0 & _ & _ & _ & Hcount).
  rewrite Hs in Hs0. inversion Hs0. subst s0.
  rewrite Ct, Hcount, LT, LN. reflexivity.
Qed.

Lemma cycles_counts (cs : list call) (v : DoubleBar) :
  reachable v ->
  Forall (fun c => well_formed c = true) cs ->
  exists v',
    cycles cs v = Ok v' /\
    reachable v' /\
    title_texts v' = (title_texts v + 2 * List.length cs)%nat /\
    (forall c0, cs <> [] ->
       row_groups v' = List.length (call_data (last cs c0))).
Proof.
  intros Hr Hall. revert v Hr.
  induction Hall as [| c cs Hc Hcs IH]; intros v Hr.
  - exists v. cbn. repeat split; [exact Hr | lia | congruence].
  - destruct (@cycle_counts c v Hr Hc) as (v1 & E1 & Hr1 & G1 & T1).
    destruct (IH v1 Hr1) as (v' & E & Hr' & Tt & Gg).
    exists v'. cbn [cycles]. rewrite E1. cbn [bind fst].
    split; [exact E |]. split; [exact Hr' |].
    split; [rewrite Tt, T1; cbn [List.length]; lia |].
    intros c0 _. destruct cs as [| c' cs'].
    + cbn in E. inversion E. subst v'. exact G1.
    + rewrite (Gg c0) by discriminate. reflexivity.
Qed.

(** C10: after [n >= 1] successful cycles on a created instance the scene
    holds one row group per row of the last data set (the groups of the
    cycles before are gone) and [2 * n] title texts (none is ever removed). *)
Theorem titles_accumulate (cs : list call) (c : call) :
  Forall (fun x => well_formed x = true) (cs ++ [c]) ->
  exists v',
    cycles (cs ++ [c]) (create vis) = Ok v' /\
    row_groups v' = List.length (call_data c) /\
    title_texts v' = (2 * List.length (cs ++ [c]))%nat.
Proof.
  intros Hall.
  destruct (@cycles_counts (cs ++ [c]) (create vis) reach_create Hall) as (v' & E & _ & Tt & Gg).
  exists v'. split; [exact E |]. split.
  - rewrite (Gg c) by (destruct cs; discriminate).
    rewrite last_last. reflexivity.
  - rewrite Tt. reflexivity.
Qed.

(** A row group of the final scene is the group of one of the rows. *)
Lemma group_of_scene (v' : DoubleBar) (config : VisConfig) (base : nat)
  (rs : list DoubleBarRow) (T N : list node) (g : node) :
  Forall title_node T -> Forall title_node N ->
  In g (T ++ groups_from (row_group v' config base) rs ++ N) ->
  matches (mkSel "g" "chart-row") (self g) = true ->
  exists i d, In d rs /\ g = row_group v' config base i d.
Proof.
  intros HT HN Hin Hm.
  assert (NoT : forall l, Forall title_node l -> ~ In g l).
  { intros l Hl Hg. rewrite Forall_forall in Hl.
    destruct (title_not_group (Hl g Hg)) as [A _]. congruence. }
  apply in_app_or in Hin. destruct Hin as [Hin | Hin]; [destruct (NoT T HT Hin) |].
  apply in_app_or in Hin. destruct Hin as [Hin | Hin]; [| destruct (NoT N HN Hin)].
  unfold groups_from in Hin. apply in_map_iff in Hin.
  destruct Hin as (p & Ep & Hp). apply in_combine_seq in Hp.
  exists (fst p), (snd p). split; [apply Hp | symmetry; exact Ep].
Qed.

(** A node of the final scene with children is the group of one of the
    rows. *)
Lemma parent_of_scene (v' : DoubleBar) (config : VisConfig) (base : nat)
  (rs : list DoubleBarRow) (T N : list node) (g : node) (e : elem) :
  Forall title_node T -> Forall title_node N ->
  In g (T ++ groups_from (row_group v' config base) rs ++ N) ->
  In e (kids g) ->
  exists i d, In d rs /\ g = row_group v' config base i d.
Proof.
  intros HT HN Hin He.
  assert (NoT : forall l, Forall title_node l -> ~ In g l).
  { intros l Hl Hg. rewrite Forall_forall in Hl.
    destruct (Hl g Hg) as (Hk & _). rewrite Hk in He. destruct He. }
  apply in_app_or in Hin. destruct Hin as [Hin | Hin]; [destruct (NoT T HT Hin) |].
  apply in_app_or in Hin. destruct Hin as [Hin | Hin]; [| destruct (NoT N HN Hin)].
  unfold groups_from in Hin. apply in_map_iff in Hin.
  destruct Hin as (p & Ep & Hp). apply in_combine_seq in Hp.
  exists (fst p), (snd p). split; [apply Hp | symmetry; exact Ep].
Qed.

(** C4 (as amended): after a cycle, in every row group the left value label
    is anchored at its end ([text-anchor] is [end]) 5 units left of the outer
    edge of the left bar, at [barOriginX - leftBarWidth(left) - 5], and the
    right value label has no [text-anchor] (it starts at its position) 5
    units right of the outer edge of the right bar, at
    [barOriginX + rightBarWidth(right) + 5]; the bars meet at [barOriginX]. *)
Theorem value_labels_outside_bars (data : VisData) (element : HTMLElement)
  (config : VisConfig) (queryResponse : VisQueryResponse)
  (v : DoubleBar) (rs : DoubleBarData) :
  reachable v ->
  validateInputs queryResponse = true ->
  createChartData data config = Ok rs ->
  exists v' s',
    updateAsync data element config queryResponse v = Ok (v', 1%nat) /\
    svg v' = Some s' /\
    row_groups v' = List.length (rows rs) /\
    forall g,
      In g (children s') ->
      matches (mkSel "g" "chart-row") (self g) = true ->
      exists d lv rv lb rb,
        In d (rows rs) /\
        datum (self g) = Some d /\
        filter (matches (mkSel "text" "left-value")) (kids g) = [lv] /\
        filter (matches (mkSel "text" "right-value")) (kids g) = [rv] /\
        filter (matches (mkSel "rect" "left-bar")) (kids g) = [lb] /\
        filter (matches (mkSel "rect" "right-bar")) (kids g) = [rb] /\
        get_attr "text-anchor" (attrs lv) = Some (AStr "end") /\
        get_attr "x" (attrs lv)
        = Some (ANum (barOriginX v'
                      - linear_apply (leftBarWidth v') (left d) - Fin 5)%num) /\
        get_attr "text-anchor" (attrs rv) = None /\
        get_attr "x" (attrs rv)
        = Some (ANum (barOriginX v'
                      + linear_apply (rightBarWidth v') (right d) + Fin 5)%num) /\
        get_attr "x" (attrs lb)
        = Some (ANum (barOriginX v'
                      - linear_apply (leftBarWidth v') (left d))%num) /\
        get_attr "width" (attrs lb)
        = Some (ANum (linear_apply (leftBarWidth v') (left d))) /\
        get_attr "x" (attrs rb) = Some (ANum (barOriginX v')) /\
        get_attr "width" (attrs rb)
        = Some (ANum (linear_apply (rightBarWidth v') (right d))).
Proof.
  intros Hr Hv Hd.
  destruct (@updateAsync_scene _ data element config queryResponse v rs
              (reachable_scene_ok Hr) Hv Hd)
    as (v' & s & s' & T & N & base & a & E & Hs & Hs' & Hc & HT & HN & _).
  exists v', s'. split; [exact E |]. split; [exact Hs' |].
  split.
  { unfold row_groups. rewrite Hs'.
    apply (@scene_counts _ v' config base (rows rs) T N s' Hc HT HN). }
  intros g Hg Hm. rewrite Hc in Hg.
  destruct (@group_of_scene v' config base (rows rs) T N g HT HN Hg Hm) as (i & d & Hin & ->).
  exists d, (left_value_of v' d), (right_value_of v' d),
    (left_bar_of v' config d), (right_bar_of v' config d).
  split; [exact Hin |].
  unfold row_group. cbn [self kids filter]. unfold legend_of.
  rewrite !matches_truncateText.
  repeat split.
Qed.

End SceneClaims.

(** C9 (as amended): after a cycle every row group of the scene has the
    [mouseover] listener and its hover html is [rowTooltipSelector] of one of
    the rows.  For [right > 0] and a percentage of at most [10^20] in
    magnitude, the number shown is [toFixed(0)] of the binary64 product
    [x = (left / right) * 100]: the integer nearest to the magnitude of [x]
    (the larger one on a tie) after the sign of [x], where [x] is within
    [2^-51] of the exact [100 * left / right], relatively, or within
    [2^-1068] of it.  When [right] is [0] or negative the tooltip shows [0%]
    whatever [left] is, and no division takes place. *)
Theorem tooltip_ratio (nm : string) (l r : Q) (lv : num) :
  (forall (browser : Browser) (v : DoubleBar) (config : VisConfig)
          (from i : nat) (d : DoubleBarRow),
     hover_html (row_group v config from i d) = Some (rowTooltipSelector d)) /\
  (forall (browser : Browser) (data : VisData) (element : HTMLElement)
          (config : VisConfig) (queryResponse : VisQueryResponse)
          (v : DoubleBar) (rs : DoubleBarData),
     reachable v ->
     validateInputs queryResponse = true ->
     createChartData data config = Ok rs ->
     exists v' s',
       updateAsync data element config queryResponse v = Ok (v', 1%nat) /\
       svg v' = Some s' /\
       forall g,
         In g (children s') ->
         matches (mkSel "g" "chart-row") (self g) = true ->
         exists d,
           In d (rows rs) /\
           datum (self g) = Some d /\
           existsb (String.eqb "mouseover") (listeners g) = true /\
           hover_html g = Some (rowTooltipSelector d)) /\
  (0 < r ->
   Qabs (100 * l / r) <= 10 ^ 20 ->
   exists (x : Q) (m : N),
     F64.mul (F64.div (Fin l) (Fin r)) 100 = F64.Val x /\
     rowTooltipSelector (mkRow nm (Fin l) (Fin r))
     = ratio_html (Qltb x 0) m /\
     Qabs x - (1 # 2) < inject_Z (Z.of_N m) /\
     inject_Z (Z.of_N m) <= Qabs x + (1 # 2) /\
     Qabs (x - 100 * l / r)
     <= Qabs (100 * l / r) * 2 ^ (-51) + 2 ^ (-1068)) /\
  (r <= 0 ->
   rowTooltipSelector (mkRow nm lv (Fin r)) = ratio_html false 0) /\
  rowTooltipSelector (mkRow nm lv (Fin 0)) = "<span>Ratio: 0%</span>"%string.
Proof.
  split; [reflexivity |].
  split; [| split; [| split]].
  - intros browser data element config queryResponse v rs Hr Hv Hd.
    destruct (@updateAsync_scene _ data element config queryResponse v rs
                (reachable_scene_ok Hr) Hv Hd)
      as (v' & s & s' & T & N & base & a & E & Hs & Hs' & Hc & HT & HN & _).
    exists v', s'. split; [exact E |]. split; [exact Hs' |].
    intros g Hg Hm. rewrite Hc in Hg.
    destruct (@group_of_scene _ v' config base (rows rs) T N g HT HN Hg Hm)
      as (i & d & Hin & ->).
    exists d. split; [exact Hin |]. repeat split.
  - intros Hr Hb.
    destruct (tooltip_product Hr Hb) as (x & Ex & Dx & Bx).
    destruct (@toFixed0_nearest x Bx) as (m & E & Lo & Hi).
    exists x, m. split; [exact Ex |].
    split; [| split; [exact Lo | split; [exact Hi | exact Dx]]].
    unfold rowTooltipSelector. cbn [right left].
    assert (G : Num.gt (Fin r) (Fin 0) = true).
    { unfold Num.gt, Num.lt. apply Qltb_true. exact Hr. }
    rewrite G, Ex, E. reflexivity.
  - intros Hr. apply tooltip_no_ratio. cbn [right].
    unfold Num.gt, Num.lt. apply Qltb_false. exact Hr.
  - reflexivity.
Qed.

(** ** Degenerate data *)

Section Degenerate.
Context {browser : Browser}.

Lemma halfGraphBarMaxWidth_finite (v : DoubleBar) (w l : Q) :
  width v = Some (Fin w) ->
  maxBarLabelWidth v = Some (Fin l) ->
  exists r : Q, halfGraphBarMaxWidth v = Fin r.
Proof.
  intros Hw Hl. unfold halfGraphBarMaxWidth, halfGraphWidth, graphWidth.
  rewrite Hw, Hl. eexists. reflexivity.
Qed.

(** The pooled maximum of a non-empty row set of zeros is zero. *)
Lemma zero_rows_domain (rs : DoubleBarData) (v : DoubleBar) :
  rows rs <> [] ->
  (forall r, In r (rows rs) -> left r =n= Fin 0 /\ right r =n= Fin 0) ->
  exists m : Q,
    m == 0 /\
    lin_domain (leftBarWidth (setupInputs rs v)) = (Fin 0, Fin m) /\
    lin_domain (rightBarWidth (setupInputs rs v)) = (Fin 0, Fin m).
Proof.
  intros Hne Hz.
  destruct (setupInputs_fields rs v) as (_ & _ & _ & _ & _ & L & R & _).
  cbv zeta in L, R. rewrite L, R.
  assert (FL : Forall (fun r => Num.finite (rowLeftSelector r) = true) (rows rs)).
  { apply Forall_forall. intros r Hr. destruct (Hz r Hr) as [A _].
    unfold rowLeftSelector. destruct (left r); [reflexivity | destruct A]. }
  assert (FR : Forall (fun r => Num.finite (rowRightSelector r) = true) (rows rs)).
  { apply Forall_forall. intros r Hr. destruct (Hz r Hr) as [_ A].
    unfold rowRightSelector. destruct (right r); [reflexivity | destruct A]. }
  destruct (@extent_max _ (rows rs) rowLeftSelector Hne FL)
    as (ml & El & _ & (al & Inl & Al)).
  destruct (@extent_max _ (rows rs) rowRightSelector Hne FR)
    as (mr & Er & _ & (ar & Inr & Ar)).
  rewrite El, Er. cbn [Num.toNumber Num.max].
  assert (Zl : ml == 0).
  { destruct (Hz al Inl) as [A _]. unfold rowLeftSelector in Al.
    rewrite Al in A. exact A. }
  assert (Zr : mr == 0).
  { destruct (Hz ar Inr) as [_ A]. unfold rowRightSelector in Ar.
    rewrite Ar in A. exact A. }
  exists (if Qltb ml mr then mr else ml).
  split; [destruct (Qltb ml mr); assumption |].
  split; reflexivity.
Qed.

(** C5: when every left and right value of a non-empty row set is [0], both
    value scales send every input to the range minimum [1], and every bar of
    the scene is 1 unit wide; the cycle completes as any other. *)
Theorem all_zero_bars_one_unit (data : VisData) (element : HTMLElement)
  (config : VisConfig) (queryResponse : VisQueryResponse)
  (v : DoubleBar) (rs : DoubleBarData) :
  reachable v ->
  validateInputs queryResponse = true ->
  createChartData data config = Ok rs ->
  rows rs <> [] ->
  (forall r, In r (rows rs) -> left r =n= Fin 0 /\ right r =n= Fin 0) ->
  exists v' s',
    updateAsync data element config queryResponse v = Ok (v', 1%nat) /\
    svg v' = Some s' /\
    row_groups v' = List.length (rows rs) /\
    fst (lin_range (leftBarWidth v')) = Fin 1 /\
    fst (lin_range (rightBarWidth v')) = Fin 1 /\
    (forall x : num,
       linear_apply (leftBarWidth v') x =n= Fin 1 /\
       linear_apply (rightBarWidth v') x =n= Fin 1) /\
    (forall g e,
       In g (children s') -> In e (kids g) ->
       matches (mkSel "rect" "left-bar") e = true \/
       matches (mkSel "rect" "right-bar") e = true ->
       exists w, get_attr "width" (attrs e) = Some (ANum w) /\ w =n= Fin 1).
Proof.
  intros Hr Hv Hd Hne Hz.
  destruct (@updateAsync_scene _ data element config queryResponse v rs
              (reachable_scene_ok Hr) Hv Hd)
    as (v' & s & s' & T & N & base & a & E & Hs & Hs' & Hc & HT & HN & _ & _ & _ &
        _ & _ & _ & Hw & _ & Hl & _ & HL & HR).
  destruct (@zero_rows_domain rs v Hne Hz) as (m & Hm & DL & DR).
  destruct (@halfGraphBarMaxWidth_finite v' _ _ Hw Hl) as (r1 & Hr1).
  assert (SL : forall x, linear_apply (leftBarWidth v') x =n= Fin 1).
  { intros x. apply (@linear_degenerate (leftBarWidth v') m 1 r1 x);
      [rewrite HL; exact DL | exact Hm | rewrite HL, Hr1; reflexivity]. }
  assert (SR : forall x, linear_apply (rightBarWidth v') x =n= Fin 1).
  { intros x. apply (@linear_degenerate (rightBarWidth v') m 1 r1 x);
      [rewrite HR; exact DR | exact Hm | rewrite HR, Hr1; reflexivity]. }
  exists v', s'. split; [exact E |]. split; [exact Hs' |].
  split.
  { unfold row_groups. rewrite Hs'.
    apply (@scene_counts _ v' config base (rows rs) T N s' Hc HT HN). }
  split; [rewrite HL; reflexivity |]. split; [rewrite HR; reflexivity |].
  split; [intros x; split; [apply SL | apply SR] |].
  intros g e Hg He Hbar. rewrite Hc in Hg.
  destruct (@parent_of_scene _ v' config base (rows rs) T N g e HT HN Hg He)
    as (i & d & Hin & ->).
  unfold row_group in He. cbn [kids] in He.
  destruct He as [<- | [<- | [<- | [<- | [<- | [<- | []]]]]]].
  - destruct Hbar as [K | K]; discriminate K.
  - unfold legend_of in Hbar. rewrite !matches_truncateText in Hbar.
    destruct Hbar as [K | K]; discriminate K.
  - destruct Hbar as [K | K]; discriminate K.
  - destruct Hbar as [K | K]; discriminate K.
  - eexists. split; [reflexivity | apply SL].
  - eexists. split; [reflexivity | apply SR].
Qed.

(** C8 (as amended): with zero rows a validated call completes, invoking
    the callback, and the scene holds no row group; the upper bound of the
    domain of both value scales is then [NaN] (the maximum of an empty
    extent), so they send every input to [NaN], not to the range minimum;
    no bar exists to show it. *)
Theorem empty_data_cycle (element : HTMLElement) (config : VisConfig)
  (queryResponse : VisQueryResponse) (v : DoubleBar) (rs : DoubleBarData) :
  reachable v ->
  validateInputs queryResponse = true ->
  createChartData [] config = Ok rs ->
  exists v',
    updateAsync [] element config queryResponse v = Ok (v', 1%nat) /\
    row_groups v' = O /\
    lin_domain (leftBarWidth v') = (Fin 0, NaN) /\
    lin_domain (rightBarWidth v') = (Fin 0, NaN) /\
    forall x : num,
      linear_apply (leftBarWidth v') x = NaN /\
      linear_apply (rightBarWidth v') x = NaN.
Proof.
  intros Hr Hv Hd.
  destruct (@updateAsync_scene _ [] element config queryResponse v rs
              (reachable_scene_ok Hr) Hv Hd)
    as (v' & s & s' & T & N & base & a & E & Hs & Hs' & Hc & HT & HN & _ & _ & _ &
        _ & _ & _ & _ & _ & _ & _ & HL & HR).
  assert (Hrows : rows rs = []).
  { apply length_zero_iff_nil.
    apply (@createChartData_length [] config rs Hd). }
  destruct (setupInputs_fields rs v) as (_ & _ & _ & _ & _ & DL & DR & _).
  cbv zeta in DL, DR. rewrite Hrows in DL, DR.
  exists v'. split; [exact E |].
  split.
  { unfold row_groups. rewrite Hs'.
    destruct (@scene_counts _ v' config base (rows rs) T N s' Hc HT HN) as [_ G].
    rewrite G, Hrows. reflexivity. }
  assert (EL : lin_domain (leftBarWidth v') = (Fin 0, NaN))
    by (rewrite HL; exact DL).
  assert (ER : lin_domain (rightBarWidth v') = (Fin 0, NaN))
    by (rewrite HR; exact DR).
  split; [exact EL |]. split; [exact ER |].
  intros x. split; apply linear_nan_domain; assumption.
Qed.

End Degenerate.

(** ** Concrete runs *)



(** Scenario A: both domains are [[0, m]] with [m] the pooled maximum. *)
Lemma setupInputs_shared_domain_witness :
  rows sample_chart <> [] /\
  forallb finite_row (rows sample_chart) = true /\
  exists m : Q,
    lin_domain (leftBarWidth (setupInputs sample_chart vis)) = (Fin 0, Fin m) /\
    lin_domain (rightBarWidth (setupInputs sample_chart vis)) = (Fin 0, Fin m) /\
    pooled_max m (rows sample_chart).
Proof.
  split; [discriminate |]. split; [reflexivity |].
  apply (proj2 (proj2 (setupInputs_shared_domain sample_chart vis)));
    [discriminate | reflexivity].
Defined.

(** Replacing the svg of an instance leaves its geometry as it was. *)
Lemma geometry_getters_pure_witness :
  let v := with_maxBarLabelWidth (Some (Fin 14))
             (with_size (Some (Fin 600)) (Some (Fin 200)) vis) in
  graphWidth (create v) = graphWidth v /\
  halfGraphWidth (create v) = halfGraphWidth v /\
  halfGraphBarMaxWidth (create v) = halfGraphBarMaxWidth v /\
  titleTextWidth (create v) = titleTextWidth v /\
  barOriginX (create v) = barOriginX v.
Proof.
  intros v.
  apply (proj2 (geometry_getters_pure v) (create v)); reflexivity.
Defined.

(** Against C4 as first stated (labels 5 units from the bar origin): in
    scenario A the left value label of the first row ends at 1027/3, left of
    its bar, and not at [barOriginX - 5 = 400]; the right one starts at
    1573/3, not at 410. *)
Lemma value_label_not_at_bar_origin :
  exists s' g lv rv wl wr,
    @updateAsync sample_browser sample_data sample_element sample_config
      sample_response (create vis) = Ok (sample_after sample_data, 1%nat) /\
    svg (sample_after sample_data) = Some s' /\
    In g (children s') /\
    matches (mkSel "g" "chart-row") (self g) = true /\
    filter (matches (mkSel "text" "left-value")) (kids g) = [lv] /\
    filter (matches (mkSel "text" "right-value")) (kids g) = [rv] /\
    get_attr "x" (attrs lv) = Some (ANum wl) /\
    get_attr "x" (attrs rv) = Some (ANum wr) /\
    wl =n= Fin (1027 # 3) /\
    wr =n= Fin (1573 # 3) /\
    barOriginX (sample_after sample_data) =n= Fin 405 /\
    ~ (wl =n= (barOriginX (sample_after sample_data) - Fin 5)%num) /\
    ~ (wr =n= (barOriginX (sample_after sample_data) + Fin 5)%num).
Proof.
  do 6 eexists.
  split; [vm_compute; reflexivity |].
  split; [vm_compute; reflexivity |].
  split; [left; reflexivity |].
  split; [vm_compute; reflexivity |].
  split; [vm_compute; reflexivity |].
  split; [vm_compute; reflexivity |].
  split; [vm_compute; reflexivity |].
  split; [vm_compute; reflexivity |].
  split; [vm_compute; reflexivity |].
  split; [vm_compute; reflexivity |].
  split; [vm_compute; reflexivity |].
  split; vm_compute; intros H; discriminate H.
Qed.

(** Scenario A: two row groups. *)
Lemma value_labels_outside_bars_witness :
  exists v' s',
    @updateAsync sample_browser sample_data sample_element sample_config
      sample_response (create vis) = Ok (v', 1%nat) /\
    svg v' = Some s' /\
    row_groups v' = 2%nat.
Proof.
  destruct (@value_labels_outside_bars sample_browser sample_data sample_element
              sample_config sample_response (create vis) sample_chart
              reach_create eq_refl eq_refl)
    as (v' & s' & E & Hs & Hn & _).
  exists v', s'. split; [exact E |]. split; [exact Hs | exact Hn].
Defined.

(** Two rows of zeros: both scales are constantly 1. *)
Lemma all_zero_bars_one_unit_witness :
  exists v',
    @updateAsync sample_browser zero_data sample_element sample_config
      sample_response (create vis) = Ok (v', 1%nat) /\
    forall x : num,
      linear_apply (leftBarWidth v') x =n= Fin 1 /\
      linear_apply (rightBarWidth v') x =n= Fin 1.
Proof.
  destruct (@all_zero_bars_one_unit sample_browser zero_data sample_element
              sample_config sample_response (create vis) zero_chart
              reach_create eq_refl eq_refl)
    as (v' & s' & E & _ & _ & _ & _ & S & _).
  - discriminate.
  - intros r [<- | [<- | []]]; split; reflexivity.
  - exists v'. split; [exact E | exact S].
Defined.

(** Against C6 as first stated (a fitting text or the empty string): "ab"
    against a width of 5, every character being 7 wide: the loop ends on the
    ellipsis alone, 21 wide, which neither fits nor is the empty string. *)
Lemma truncation_leaves_ellipsis :
  let r := @truncateText sample_browser (Fin 5) (sample_label "ab") in
  text r = ellipsis /\
  @getComputedTextLength sample_browser r == 21 /\
  ~ (@getComputedTextLength sample_browser r <= 5 \/ text r = EmptyString).
Proof.
  cbv zeta. split; [reflexivity |]. split; [reflexivity |].
  intros [H | H]; [| discriminate H].
  vm_compute in H. apply H. reflexivity.
Qed.

(** "Alpha", 35 wide, fits a width of 100 and is left alone; "abcdef", 42
    wide, is cut for a width of 30 to a prefix and the ellipsis that fit. *)
Lemma truncateText_law_witness :
  (@getComputedTextLength sample_browser (sample_label "Alpha") <= 100 /\
   @truncateText sample_browser (Fin 100) (sample_label "Alpha")
   = sample_label "Alpha") /\
  30 < @getComputedTextLength sample_browser (sample_label "abcdef") /\
  text (sample_label "abcdef") <> EmptyString /\
  exists j,
    (j < String.length (text (sample_label "abcdef")))%nat /\
    @truncateText sample_browser (Fin 30) (sample_label "abcdef")
    = candidate (sample_label "abcdef") j /\
    (forall j', (j < j' < String.length (text (sample_label "abcdef")))%nat ->
       30 < @getComputedTextLength sample_browser
              (candidate (sample_label "abcdef") j')) /\
    (@getComputedTextLength sample_browser
       (@truncateText sample_browser (Fin 30) (sample_label "abcdef")) <= 30 \/
     (j = O /\
      text (@truncateText sample_browser (Fin 30) (sample_label "abcdef"))
      = ellipsis /\
      30 < @getComputedTextLength sample_browser
             (@truncateText sample_browser (Fin 30) (sample_label "abcdef")))).
Proof.
  split; [split; [vm_compute; discriminate |] |].
  { apply (proj1 (@truncateText_law sample_browser 100 (sample_label "Alpha"))).
    vm_compute. discriminate. }
  split; [reflexivity |]. split; [discriminate |].
  apply (proj1 (proj2 (proj2
           (@truncateText_law sample_browser 30 (sample_label "abcdef"))))).
  - reflexivity.
  - discriminate.
Defined.

(** The cut of "abcdef" for a width of 30 keeps one character: "a" and the
    ellipsis, 28 wide. *)
Lemma truncation_keeps_longest_prefix :
  @truncateText sample_browser (Fin 30) (sample_label "abcdef")
  = sample_label ("a" ++ ellipsis) /\
  @getComputedTextLength sample_browser (sample_label ("a" ++ ellipsis)) == 28.
Proof. split; reflexivity. Qed.

(** The instance after scenario A. *)
Lemma row_geometry_invariant_witness :
  reachable (browser := sample_browser) (sample_after sample_data) /\
  Num.le (Fin 0) (barMargin (sample_after sample_data)) /\
  Num.le (barHeight (sample_after sample_data))
         (rowHeight (sample_after sample_data)).
Proof.
  assert (R : reachable (browser := sample_browser) (sample_after sample_data)).
  { apply (@reach_update sample_browser (create vis) sample_data sample_element
             sample_config sample_response (sample_after sample_data) 1%nat
             reach_create).
    vm_compute. reflexivity. }
  split; [exact R |].
  apply (@row_geometry_invariant sample_browser (sample_after sample_data) R).
Defined.

(** Against C8 as first stated (scales falling back to the range minimum):
    with no rows the value scales send [0] (and everything else) to [NaN],
    not to the range minimum [1]. *)
Lemma empty_data_scales_not_a_number :
  @updateAsync sample_browser [] sample_element sample_config sample_response
    (create vis) = Ok (sample_after [], 1%nat) /\
  row_groups (sample_after []) = O /\
  fst (lin_range (leftBarWidth (sample_after []))) = Fin 1 /\
  linear_apply (leftBarWidth (sample_after [])) (Fin 0) = NaN /\
  linear_apply (rightBarWidth (sample_after [])) (Fin 0) = NaN /\
  ~ (linear_apply (leftBarWidth (sample_after [])) (Fin 0)
     =n= fst (lin_range (leftBarWidth (sample_after [])))).
Proof.
  split; [vm_compute; reflexivity |].
  split; [vm_compute; reflexivity |].
  split; [vm_compute; reflexivity |].
  split; [vm_compute; reflexivity |].
  split; [vm_compute; reflexivity |].
  vm_compute. intros H. exact H.
Qed.

(** No rows in a 600 by 200 container. *)
Lemma empty_data_cycle_witness :
  exists v',
    @updateAsync sample_browser [] sample_element sample_config sample_response
      (create vis) = Ok (v', 1%nat) /\
    row_groups v' = O /\
    lin_domain (leftBarWidth v') = (Fin 0, NaN).
Proof.
  destruct (@empty_data_cycle sample_browser sample_element sample_config
              sample_response (create vis) empty_chart
              reach_create eq_refl eq_refl)
    as (v' & E & G & D & _).
  exists v'. split; [exact E |]. split; [exact G | exact D].
Defined.

(** Against C9 as first stated (the rounded quotient for every row):
    [left = 10], [right = -20]; the tooltip shows [0%], not [-50%]. *)
Lemma tooltip_negative_right :
  rowTooltipSelector (mkRow "Alpha" (Fin 10) (Fin (-20)))
  = "<span>Ratio: 0%</span>"%string /\
  rowTooltipSelector (mkRow "Alpha" (Fin 10) (Fin (-20))) <> ratio_html true 50.
Proof.
  split; [reflexivity |]. vm_compute. discriminate.
Qed.

(** The binary64 roundings show: 23 against 40 gives the product
    [57.49999999999999], shown as [57%], where the exact percentage 57.5
    would give 58. *)
Lemma tooltip_rounds_product :
  rowTooltipSelector (mkRow "Alpha" (Fin 23) (Fin 40))
  = "<span>Ratio: 57%</span>"%string /\
  F64.to_string (F64.mul (F64.div (Fin 23) (Fin 40)) 100)
  = "57.49999999999999"%string.
Proof. split; vm_compute; reflexivity. Qed.

(** 10 against 20 shows 50; 10 against -20 shows 0. *)
Lemma tooltip_ratio_witness :
  0 < 20 /\
  Qabs (100 * 10 / 20) <= 10 ^ 20 /\
  (exists (x : Q) (m : N),
     F64.mul (F64.div (Fin 10) (Fin 20)) 100 = F64.Val x /\
     rowTooltipSelector (mkRow "Alpha" (Fin 10) (Fin 20))
     = ratio_html (Qltb x 0) m /\
     Qabs x - (1 # 2) < inject_Z (Z.of_N m) /\
     inject_Z (Z.of_N m) <= Qabs x + (1 # 2) /\
     Qabs (x - 100 * 10 / 20)
     <= Qabs (100 * 10 / 20) * 2 ^ (-51) + 2 ^ (-1068)) /\
  - (20) <= 0 /\
  rowTooltipSelector (mkRow "Alpha" (Fin 10) (Fin (- (20)))) = ratio_html false 0.
Proof.
  split; [reflexivity |].
  split; [vm_compute; discriminate |].
  split.
  { apply (proj1 (proj2 (proj2 (tooltip_ratio "Alpha" 10 20 (Fin 10))))).
    - reflexivity.
    - vm_compute. discriminate. }
  split; [vm_compute; discriminate |].
  apply (proj1 (proj2 (proj2 (proj2 (tooltip_ratio "Alpha" 10 (- (20)) (Fin 10)))))).
  vm_compute. discriminate.
Defined.

(** Scenario A, then two rows of zeros: two row groups, four titles. *)
Lemma titles_accumulate_witness :
  exists v',
    @cycles sample_browser [sample_call sample_data; sample_call zero_data]
      (create vis) = Ok v' /\
    row_groups v' = 2%nat /\
    title_texts v' = 4%nat.
Proof.
  apply (@titles_accumulate sample_browser [sample_call sample_data]
           (sample_call zero_data)).
  repeat constructor.
Defined.

(* ================================================================== *)
(** * Further properties of the functions of [double_bar.ts] *)

(** ** [createChartData] *)

Lemma lookup_defined {V : Type} (k : string) (l : list (string * V)) :
  (exists x, lookup k l = Ok x) <-> In k (map fst l).
Proof.
  induction l as [| [k' x] l IH]; cbn.
  - split; [intros (x & H); discriminate H | intros []].
  - destruct (String.eqb k' k) eqn:E.
    + apply String.eqb_eq in E. split; [intros _; left; exact E | intros _].
      exists x. reflexivity.
    + apply String.eqb_neq in E. rewrite IH. split; [tauto |].
      intros [H | H]; [contradiction | exact H].
Qed.

Lemma mapM_Forall2 {A B : Type} (f : A -> res B) (l : list A) (r : list B) :
  mapM f l = Ok r <-> Forall2 (fun x y => f x = Ok y) l r.
Proof.
  revert r. induction l as [| x l IH]; intros r; cbn.
  - split.
    + intros H. inversion H. constructor.
    + intros H. inversion H. reflexivity.
  - split.
    + destruct (f x) as [y |] eqn:E; [| discriminate]. cbn [bind].
      destruct (mapM f l) as [r' |]; [| discriminate]. cbn [bind].
      intros H. inversion H. constructor; [exact E |]. apply IH. reflexivity.
    + intros H. inversion H as [| ? y ? r' Hxy Hrest]; subst.
      rewrite Hxy. cbn [bind].
      apply IH in Hrest. rewrite Hrest. reflexivity.
Qed.

(** X1: when [createChartData] returns, the configuration has a first
    dimension and two first measures, the titles are the labels of the two
    measures, and the rows are the records of the query result in their
    order, one row per record, each holding the values of the cells named by
    the three fields. *)
Theorem createChartData_rows (data : VisData) (config : VisConfig)
  (d : DoubleBarData) :
  createChartData data config = Ok d ->
  exists dimension leftMeasure rightMeasure,
    configured_fields config dimension leftMeasure rightMeasure /\
    leftTitle d = field_label leftMeasure /\
    rightTitle d = field_label rightMeasure /\
    Forall2
      (fun row r =>
         lookup (field_name dimension) (dimension_cells row) = Ok (name r) /\
         lookup (field_name leftMeasure) (measure_cells row) = Ok (left r) /\
         lookup (field_name rightMeasure) (measure_cells row) = Ok (right r))
      data (rows d).
Proof.
  unfold createChartData, field_at, configured_fields.
  destruct (nth_error (query_dimensions config) 0) as [dim |]; [| discriminate].
  destruct (nth_error (query_measures config) 0) as [lm |]; [| discriminate].
  destruct (nth_error (query_measures config) 1) as [rm |]; [| discriminate].
  cbn [bind].
  match goal with
  | |- context [mapM ?f data] => set (F := f)
  end.
  destruct (mapM F data) as [rs |] eqn:E; [| discriminate].
  cbn [bind]. intros H. inversion H. cbn [rows leftTitle rightTitle].
  exists dim, lm, rm. repeat split.
  apply mapM_Forall2 in E. revert E. apply Forall2_impl.
  intros row r. unfold F.
  destruct (lookup (field_name dim) (dimension_cells row)); [| discriminate].
  destruct (lookup (field_name lm) (measure_cells row)); [| discriminate].
  destruct (lookup (field_name rm) (measure_cells row)); [| discriminate].
  cbn [bind]. intros K. inversion K. repeat split.
Qed.

(** X2: [createChartData] returns exactly when the configuration has a first
    dimension and two measures and every record of the query result has a
    cell for each of the three; it throws as soon as one field or one cell is
    missing. *)
Theorem createChartData_defined (data : VisData) (config : VisConfig) :
  ((exists d, createChartData data config = Ok d) <->
   (exists dimension leftMeasure rightMeasure,
      configured_fields config dimension leftMeasure rightMeasure /\
      Forall (has_cells dimension leftMeasure rightMeasure) data)) /\
  (createChartData data config = Throw <->
   ~ (exists dimension leftMeasure rightMeasure,
        configured_fields config dimension leftMeasure rightMeasure /\
        Forall (has_cells dimension leftMeasure rightMeasure) data)).
Proof.
  assert (A : (exists d, createChartData data config = Ok d) <->
              (exists dimension leftMeasure rightMeasure,
                 configured_fields config dimension leftMeasure rightMeasure /\
                 Forall (has_cells dimension leftMeasure rightMeasure) data)).
  { unfold createChartData, field_at, configured_fields. split.
    - intros (d & H).
      destruct (nth_error (query_dimensions config) 0) as [dim |]; [| discriminate].
      destruct (nth_error (query_measures config) 0) as [lm |]; [| discriminate].
      destruct (nth_error (query_measures config) 1) as [rm |]; [| discriminate].
      cbn [bind] in H.
      match type of H with
      | context [mapM ?f data] => set (F := f) in H
      end.
      destruct (mapM F data) as [rs |] eqn:E; [| discriminate].
      exists dim, lm, rm. repeat split.
      apply mapM_Forall2 in E. clear H.
      induction E as [| row r data' rs' Hr _ IH]; constructor; [| exact IH].
      unfold F in Hr. unfold has_cells.
      destruct (lookup (field_name dim) (dimension_cells row)) eqn:E1; [| discriminate].
      destruct (lookup (field_name lm) (measure_cells row)) eqn:E2; [| discriminate].
      destruct (lookup (field_name rm) (measure_cells row)) eqn:E3; [| discriminate].
      repeat split; apply lookup_defined; eexists; eassumption.
    - intros (dim & lm & rm & (E1 & E2 & E3) & Hall).
      rewrite E1, E2, E3. cbn [bind].
      match goal with
      | |- context [mapM ?f data] => set (F := f)
      end.
      assert (M : exists rs, mapM F data = Ok rs).
      { induction Hall as [| row data' (H1 & H2 & H3) _ IH].
        - exists []. reflexivity.
        - destruct IH as (rs & Hrs).
          apply lookup_defined in H1, H2, H3.
          destruct H1 as (n & H1). destruct H2 as (l & H2). destruct H3 as (r & H3).
          exists (mkRow n l r :: rs). cbn [mapM]. unfold F at 1.
          rewrite H1, H2, H3. cbn [bind]. rewrite Hrs. reflexivity. }
      destruct M as (rs & Hrs). rewrite Hrs. cbn [bind]. eexists. reflexivity. }
  split; [exact A |].
  rewrite <- A. split.
  - intros H (d & K). rewrite K in H. discriminate H.
  - intros H. destruct (createChartData data config) as [d |]; [| reflexivity].
    exfalso. apply H. exists d. reflexivity.
Qed.

(** Scenario A: the two records become the rows Alpha (10, 20) and
    Beta (30, 5), in this order. *)
Lemma createChartData_rows_witness :
  createChartData sample_data sample_config = Ok sample_chart /\
  exists dimension leftMeasure rightMeasure,
    configured_fields sample_config dimension leftMeasure rightMeasure /\
    leftTitle sample_chart = field_label leftMeasure /\
    rightTitle sample_chart = field_label rightMeasure /\
    Forall2
      (fun row r =>
         lookup (field_name dimension) (dimension_cells row) = Ok (name r) /\
         lookup (field_name leftMeasure) (measure_cells row) = Ok (left r) /\
         lookup (field_name rightMeasure) (measure_cells row) = Ok (right r))
      sample_data (rows sample_chart).
Proof.
  split; [reflexivity |].
  apply (createChartData_rows sample_data sample_config). reflexivity.
Defined.

(** ** Geometry getters *)

(** X3: for a container width [w >= 0] and a label width [l >= 0] the
    horizontal bands nest: the graph lies within the width, a half within
    the graph, the room for a title within a half and the room for a bar
    within the room for a title; the legend text lies within the legend,
    the legend ends left of the point where the bars meet, and that point
    lies between the width of a half and the width of the container. *)
Theorem geometry_nested (v : DoubleBar) (w l : Q) :
  width v = Some (Fin w) ->
  maxBarLabelWidth v = Some (Fin l) ->
  0 <= w ->
  0 <= l ->
  Num.le (Fin 0) (graphWidth v) /\
  Num.le (graphWidth v) (Fin w) /\
  Num.le (halfGraphWidth v) (graphWidth v) /\
  Num.le (titleTextWidth v) (halfGraphWidth v) /\
  Num.le (halfGraphBarMaxWidth v) (titleTextWidth v) /\
  Num.le (legendTextWidth v) (legendWidth v) /\
  Num.le (legendWidth v) (barOriginX v) /\
  Num.le (halfGraphWidth v) (barOriginX v) /\
  Num.le (barOriginX v) (Fin w).
Proof.
  intros Hw Hl W0 L0.
  unfold legendTextWidth, legendWidth, halfGraphBarMaxWidth, titleTextWidth,
    barOriginX, halfGraphWidth, graphWidth.
  rewrite Hw, Hl. simpl.
  assert (H : w * 0.65 / 2 == w * (13 # 40)) by field.
  rewrite !H.
  repeat split; lra.
Qed.

(** A container 600 wide with labels 14 wide. *)
Lemma geometry_nested_witness :
  let v := with_maxBarLabelWidth (Some (Fin 14))
             (with_size (Some (Fin 600)) (Some (Fin 200)) vis) in
  0 <= 600 /\ 0 <= 14 /\
  Num.le (halfGraphBarMaxWidth v) (titleTextWidth v) /\
  Num.le (legendWidth v) (barOriginX v).
Proof.
  intros v.
  split; [discriminate |]. split; [discriminate |].
  destruct (@geometry_nested v 600 14 eq_refl eq_refl)
    as (_ & _ & _ & _ & A & _ & B & _).
  - discriminate.
  - discriminate.
  - split; [exact A | exact B].
Defined.

(** X4: [barSizeRatio] is a number between 0 and 1 whenever the row height
    is a nonzero number, and is not a number when the row height is zero. *)
Theorem barSizeRatio_between (v : DoubleBar) (h : Q) :
  rowHeight v = Fin h ->
  (~ h == 0 ->
   Num.le (Fin 0) (barSizeRatio v) /\ Num.le (barSizeRatio v) (Fin 1)) /\
  (h == 0 -> barSizeRatio v = NaN).
Proof.
  intros Hh. unfold barSizeRatio. rewrite Hh. cbn [Num.mul Num.lift2 Num.div].
  split.
  - intros Hne.
    replace (Qeq_bool (h * 3) 0) with false
      by (symmetry; apply Qeq_bool_false; intros K; apply Hne; lra).
    cbn [Num.le].
    assert (E : h / (h * 3) == 1 # 3) by (field; exact Hne).
    rewrite E. split; discriminate.
  - intros Hz.
    replace (Qeq_bool (h * 3) 0) with true
      by (symmetry; apply Qeq_bool_iff; lra).
    reflexivity.
Qed.

(** The instance before any call: the row scale has range [[0, 1]] and an
    empty domain, so the row height is 1. *)
Lemma barSizeRatio_between_witness :
  rowHeight vis = Fin (1 / 1) /\
  ~ 1 / 1 == 0 /\
  Num.le (Fin 0) (barSizeRatio vis) /\ Num.le (barSizeRatio vis) (Fin 1).
Proof.
  split; [reflexivity |]. split; [compute; discriminate |].
  apply (proj1 (@barSizeRatio_between vis (1 / 1) eq_refl)).
  compute. discriminate.
Defined.

(** ** [updateAsync]: when it throws, and what it leaves in the instance *)

Section UpdateErrors.
Context {browser : Browser}.

(** X5: on an instance the host can hold, [updateAsync] throws exactly when
    validation passes and [createChartData] throws (a configured field or a
    cell is missing); nothing else in the cycle can throw.  Before [create],
    when there is no svg element yet, every validated call throws. *)
Theorem updateAsync_throws_iff (data : VisData) (element : HTMLElement)
  (config : VisConfig) (queryResponse : VisQueryResponse) (v : DoubleBar) :
  (reachable v ->
   (updateAsync data element config queryResponse v = Throw <->
    validateInputs queryResponse = true /\
    createChartData data config = Throw)) /\
  (svg v = None ->
   validateInputs queryResponse = true ->
   updateAsync data element config queryResponse v = Throw).
Proof.
  split.
  - intros Hr. pose proof (reachable_scene_ok Hr) as Hok. split.
    + intros H. destruct (validateInputs queryResponse) eqn:Hv.
      * split; [reflexivity |].
        destruct (createChartData data config) as [d |] eqn:Hd; [| reflexivity].
        destruct (@updateAsync_scene _ data element config queryResponse v d
                    Hok Hv Hd) as (v' & s & s' & T & N & base & a & E & _).
        rewrite E in H. discriminate H.
      * rewrite updateAsync_invalid in H by exact Hv. discriminate H.
    + intros [Hv Hd]. destruct Hok as (s & Hs & _).
      unfold updateAsync. rewrite Hv. cbn [negb svg with_size].
      rewrite Hs, Hd. reflexivity.
  - intros Hs Hv. unfold updateAsync. rewrite Hv. cbn [negb svg with_size].
    rewrite Hs. reflexivity.
Qed.

(** X6: in every instance the host can hold the two value scales are the
    same scale: same domain, starting at 0, and same range; equal values on
    either side are drawn with bars of equal length. *)
Theorem value_scales_agree (v : DoubleBar) :
  reachable v ->
  leftBarWidth v = rightBarWidth v /\
  fst (lin_domain (leftBarWidth v)) = Fin 0 /\
  forall x : num,
    linear_apply (leftBarWidth v) x = linear_apply (rightBarWidth v) x.
Proof.
  intros Hr.
  assert (A : leftBarWidth v = rightBarWidth v /\
              fst (lin_domain (leftBarWidth v)) = Fin 0).
  { induction Hr as [| v data element config queryResponse v' calls Hr IH Hu].
    - split; reflexivity.
    - destruct (@updateAsync_returns _ data element config queryResponse v _ _ Hu)
        as [(_ & -> & _) | (Hv & d & Hd)]; [exact IH |].
      destruct (@updateAsync_scene _ data element config queryResponse v d
                  (reachable_scene_ok Hr) Hv Hd)
        as (v'' & s & s' & T & N & base & a & E & _ & _ & _ & _ & _ & _ & _ &
            _ & _ & _ & _ & _ & _ & _ & _ & HL & HR).
      rewrite E in Hu. inversion Hu. subst v''.
      destruct (setupInputs_fields d v) as (_ & _ & _ & _ & _ & DL & DR & _).
      cbv zeta in DL, DR.
      rewrite HL, HR. unfold linear_set_range. rewrite DL, DR.
      split; reflexivity. }
  destruct A as [A B]. split; [exact A |]. split; [exact B |].
  intros x. rewrite A. reflexivity.
Qed.

End UpdateErrors.

(** A record without the cell of the second measure: the call throws. *)
Lemma updateAsync_throws_iff_witness :
  reachable (browser := sample_browser) (create vis) /\
  @updateAsync sample_browser
    [mkVisRow [("category", "Alpha")]%string [("a"%string, Fin 10)]]
    sample_element sample_config sample_response (create vis) = Throw /\
  @updateAsync sample_browser sample_data sample_element sample_config
    sample_response vis = Throw.
Proof.
  split; [apply reach_create |].
  pose proof (@updateAsync_throws_iff sample_browser
                [mkVisRow [("category", "Alpha")]%string [("a"%string, Fin 10)]]
                sample_element sample_config sample_response (create vis)) as A.
  pose proof (@updateAsync_throws_iff sample_browser sample_data
                sample_element sample_config sample_response vis) as B.
  split.
  - apply (proj2 (proj1 A reach_create)). split; reflexivity.
  - apply (proj2 B); reflexivity.
Defined.

(** The instance after scenario A. *)
Lemma value_scales_agree_witness :
  reachable (browser := sample_browser) (sample_after sample_data) /\
  leftBarWidth (sample_after sample_data)
  = rightBarWidth (sample_after sample_data).
Proof.
  assert (R : reachable (browser := sample_browser) (sample_after sample_data)).
  { apply (@reach_update sample_browser (create vis) sample_data sample_element
             sample_config sample_response (sample_after sample_data) 1%nat
             reach_create).
    vm_compute. reflexivity. }
  split; [exact R |].
  apply (@value_scales_agree sample_browser (sample_after sample_data) R).
Defined.

(** ** What a cycle writes besides the scene: size attributes, tooltip *)

Lemma get_attr_set_attr_eq (k : string) (v : aval) (l : alist) :
  get_attr k (set_attr k v l) = Some v.
Proof.
  induction l as [| [k0 w] l IH]; cbn.
  - rewrite String.eqb_refl. reflexivity.
  - destruct (String.eqb k0 k) eqn:E; cbn; rewrite E; [reflexivity | exact IH].
Qed.

Section Frame.
Context {browser : Browser}.

Lemma probe_frame (cls : string) (valueof : DoubleBarRow -> num)
  (rowData : list DoubleBarRow) (v v' : DoubleBar) :
  probe cls valueof rowData v = Ok v' ->
  tooltip v' = tooltip v /\
  option_map svg_attrs (svg v') = option_map svg_attrs (svg v) /\
  width v' = width v.
Proof.
  unfold probe. destruct (svg v) as [s |]; [| discriminate].
  destruct (data_join (mkSel "text" cls) rowData (children s)) as [joined enter].
  unfold enter_append. intros H. inversion H. repeat split.
Qed.

Lemma setupRender_frame (d : DoubleBarData) (config : VisConfig)
  (v v' : DoubleBar) :
  setupRender d config v = Ok v' ->
  tooltip v' = tooltip v /\
  option_map svg_attrs (svg v') = option_map svg_attrs (svg v) /\
  width v' = width v /\
  maxBarLabelWidth v' = maxBarLabelWidth v.
Proof.
  unfold setupRender. destruct (svg v) as [s |]; [| discriminate].
  destruct (tooltip v) as [tip |] eqn:Ht; [| discriminate].
  destruct (data_join _ _ _) as [joined enter].
  unfold enter_append.
  repeat match goal with
         | |- bind ?m _ = _ -> _ => destruct m; [cbn [bind] | discriminate]
         end.
  intros H. inversion H. cbn. rewrite Ht. repeat split.
Qed.

Lemma setupSizing_frame (d : DoubleBarData) (v v' : DoubleBar) :
  setupSizing d v = Ok v' ->
  exists tip,
    tooltip v = Some tip /\
    tooltip v'
    = Some {| tip_class := tip_class tip;
              tip_offset :=
                (Fin 0, (Num.neg (Num.toNumber (width v)) / Fin 2 + barOriginX v)%num) |} /\
    option_map svg_attrs (svg v') = option_map svg_attrs (svg v) /\
    width v' = width v /\
    maxBarLabelWidth v' = maxBarLabelWidth v.
Proof.
  unfold setupSizing. destruct (tooltip v) as [tip |]; [| discriminate].
  cbv zeta.
  destruct (setupSizing_scales_fields tip v) as (E1 & E2 & _).
  rewrite E1, E2.
  destruct (svgRows v) as [sel |]; [| discriminate].
  destruct (svg v) as [s |]; [| discriminate].
  destruct (setupSizing_scene _ _ _ _); [cbn [bind] | discriminate].
  intros H. inversion H. exists tip. repeat split.
Qed.

(** What a validated call that returns leaves in the instance besides the
    scene. *)
Lemma updateAsync_frame (data : VisData) (element : HTMLElement)
  (config : VisConfig) (queryResponse : VisQueryResponse)
  (v v' : DoubleBar) (calls : nat) :
  validateInputs queryResponse = true ->
  updateAsync data element config queryResponse v = Ok (v', calls) ->
  tooltip v'
  = Some {| tip_class := "d3-tooltip";
            tip_offset :=
              (Fin 0,
               (Num.neg (Num.ofZ (clientWidth element)) / Fin 2 + barOriginX v')%num) |} /\
  exists s',
    svg v' = Some s' /\
    get_attr "width" (svg_attrs s') = Some (ANum (Num.ofZ (clientWidth element))) /\
    get_attr "height" (svg_attrs s') = Some (ANum (Num.ofZ (clientHeight element))).
Proof.
  intros Hv. unfold updateAsync. rewrite Hv. cbn [negb svg with_size].
  destruct (svg v) as [s |]; [| discriminate].
  destruct (createChartData data config) as [d |]; [cbn [bind] | discriminate].
  unfold determineMaxBarValueWidth.
  match goal with
  | |- context [probe "dummy-left" rowLeftSelector (rows d) ?w] => set (v2 := w)
  end.
  destruct (probe "dummy-left" rowLeftSelector (rows d) v2) as [v3 |] eqn:P1;
    [cbn [bind] | discriminate].
  destruct (probe "dummy-right" rowRightSelector (rows d) v3) as [v4 |] eqn:P2;
    [cbn [bind] | discriminate].
  destruct (setupRender d config v4) as [v5 |] eqn:P3; [cbn [bind] | discriminate].
  destruct (setupSizing d v5) as [v6 |] eqn:P4; [cbn [bind] | discriminate].
  intros H. inversion H. subst v6 calls.
  apply probe_frame in P1. destruct P1 as (T1 & A1 & W1).
  apply probe_frame in P2. destruct P2 as (T2 & A2 & W2).
  apply setupRender_frame in P3. destruct P3 as (T3 & A3 & W3 & _).
  apply setupSizing_frame in P4. destruct P4 as (tip & T4 & T5 & A4 & W4 & _).
  assert (Htip : tip = {| tip_class := "d3-tooltip"; tip_offset := (Fin 0, Fin 0) |}).
  { rewrite T3, T2, T1 in T4. unfold v2 in T4. cbn in T4. congruence. }
  assert (Hw : width v5 = Some (Num.ofZ (clientWidth element))).
  { rewrite W3, W2, W1. reflexivity. }
  split.
  - rewrite T5, Htip, Hw. unfold barOriginX, halfGraphWidth, graphWidth.
    rewrite W4, Hw. reflexivity.
  - rewrite A3, A2, A1 in A4. unfold v2 in A4.
    cbn [svg with_maxBarLabelWidth setupInputs with_rowYPosition with_barWidths
         with_tooltip with_svg with_size option_map svg_attr svg_attrs
         height width Num.toNumber] in A4.
    destruct (svg v') as [s' |]; [| discriminate A4].
    cbn [option_map] in A4. inversion A4 as [A].
    exists s'. split; [reflexivity |]. rewrite A. split.
    + rewrite get_attr_set_attr_ne by discriminate. apply get_attr_set_attr_eq.
    + apply get_attr_set_attr_eq.
Qed.

(** X7: every validated call that returns sizes the chart from the container
    of that call alone, whatever the instance held before: the svg element
    gets the client width and height as attributes and the instance keeps
    them as its size, so that, [w] being the client width and [a] the
    measured label width, the graph is [w * 0.65] wide, the bars meet at
    [w - graphWidth / 2], the legend text has [w - (graphWidth + 10) - 8], a
    title [graphWidth / 2 - 10] and a bar [graphWidth / 2 - (a + 10)]; the
    value scales range from 1 to that last value, the row scale from 15 to
    the client height, and the tooltip is offset by [-w / 2 + barOriginX]. *)
Theorem geometry_follows_container (data : VisData) (element : HTMLElement)
  (config : VisConfig) (queryResponse : VisQueryResponse)
  (v v' : DoubleBar) :
  reachable v ->
  updateAsync data element config queryResponse v = Ok (v', 1%nat) ->
  let w := Num.ofZ (clientWidth element) in
  exists (s' : svgT) (a : Q),
    svg v' = Some s' /\
    get_attr "width" (svg_attrs s') = Some (ANum w) /\
    get_attr "height" (svg_attrs s') = Some (ANum (Num.ofZ (clientHeight element))) /\
    width v' = Some w /\
    height v' = Some (Num.ofZ (clientHeight element)) /\
    maxBarLabelWidth v' = Some (Fin a) /\
    graphWidth v' = (w * Fin 0.65)%num /\
    barOriginX v' = (w - graphWidth v' / Fin 2)%num /\
    legendTextWidth v' = (w - (graphWidth v' + Fin 10) - Fin 8)%num /\
    titleTextWidth v' = (graphWidth v' / Fin 2 - Fin 10)%num /\
    halfGraphBarMaxWidth v' = (graphWidth v' / Fin 2 - (Fin a + Fin 10))%num /\
    lin_range (leftBarWidth v') = (Fin 1, halfGraphBarMaxWidth v') /\
    lin_range (rightBarWidth v') = (Fin 1, halfGraphBarMaxWidth v') /\
    band_range (rowYPosition v') = (Fin 15, Num.ofZ (clientHeight element)) /\
    tooltip v'
    = Some {| tip_class := "d3-tooltip";
              tip_offset := (Fin 0, (Num.neg w / Fin 2 + barOriginX v')%num) |}.
Proof.
  intros Hr Hu w.
  destruct (@updateAsync_returns _ data element config queryResponse v _ _ Hu)
    as [(_ & _ & K) | (Hv & d & Hd)]; [discriminate K |].
  destruct (@updateAsync_scene _ data element config queryResponse v d
              (reachable_scene_ok Hr) Hv Hd)
    as (v'' & s & s1 & T & N & base & a & E & _ & _ & _ & _ & _ & _ & _ &
        _ & _ & _ & _ & Hw & Hh & Hl & HY & HL & HR).
  rewrite E in Hu. inversion Hu. subst v''.
  destruct (updateAsync_frame _ _ _ _ _ Hv E) as (Htip & s' & Hs' & Aw & Ah).
  exists s', a.
  split; [exact Hs' |]. split; [exact Aw |]. split; [exact Ah |].
  split; [exact Hw |]. split; [exact Hh |]. split; [exact Hl |].
  unfold legendTextWidth, legendWidth, titleTextWidth, halfGraphBarMaxWidth,
    barOriginX, halfGraphWidth, graphWidth.
  rewrite Hw, Hl. cbn [Num.toNumber].
  split; [reflexivity |]. split; [reflexivity |]. split; [reflexivity |].
  split; [reflexivity |]. split; [reflexivity |].
  split.
  { rewrite HL. unfold halfGraphBarMaxWidth, halfGraphWidth, graphWidth.
    rewrite Hw, Hl. reflexivity. }
  split.
  { rewrite HR. unfold halfGraphBarMaxWidth, halfGraphWidth, graphWidth.
    rewrite Hw, Hl. reflexivity. }
  split; [rewrite HY; reflexivity |].
  rewrite Htip. unfold barOriginX, halfGraphWidth, graphWidth.
  rewrite Hw. reflexivity.
Qed.

End Frame.

(** Scenario A in a 600 by 200 container: the bars meet at
    [600 - 600 * 0.65 / 2]. *)
Lemma geometry_follows_container_witness :
  reachable (browser := sample_browser) (create vis) /\
  @updateAsync sample_browser sample_data sample_element sample_config
    sample_response (create vis) = Ok (sample_after sample_data, 1%nat) /\
  width (sample_after sample_data) = Some (Num.ofZ 600) /\
  barOriginX (sample_after sample_data)
  = (Num.ofZ 600 - graphWidth (sample_after sample_data) / Fin 2)%num.
Proof.
  split; [apply reach_create |].
  assert (E : @updateAsync sample_browser sample_data sample_element sample_config
                sample_response (create vis) = Ok (sample_after sample_data, 1%nat))
    by (vm_compute; reflexivity).
  split; [exact E |].
  destruct (@geometry_follows_container sample_browser sample_data sample_element
              sample_config sample_response (create vis) (sample_after sample_data)
              reach_create E)
    as (s' & a & _ & _ & _ & W & _ & _ & _ & G & _).
  split; [exact W | exact G].
Defined.

(** ** [determineMaxBarValueWidth] *)

Lemma in_combine_seq_r {A : Type} (l : list A) (k : nat) (x : A) :
  In x l -> exists i, In (i, x) (combine (seq k (List.length l)) l).
Proof.
  revert k. induction l as [| y l IH]; intros k H; [destruct H |].
  destruct H as [-> | H].
  - exists k. left. reflexivity.
  - destruct (IH (S k) H) as (i & Hi). exists i. right. exact Hi.
Qed.

Section Probe.
Context {browser : Browser}.

(** The measuring loop over the nodes the selection does not hold. *)
Lemma probe_fold_old (from n : nat) (l : list node) (acc : option num) :
  outside from n l ->
  fold_left
    (fun acc x =>
       if selected (sel_ids from n) x
       then Some (Num.max (Num.toNumber acc)
                          (Fin (getComputedTextLength (self x))))
       else acc)
    l acc = acc.
Proof.
  induction 1 as [| x l Hx Hl IH]; cbn [fold_left]; [reflexivity |].
  unfold selected at 2. rewrite sel_index_outside by exact Hx. exact IH.
Qed.

(** The measuring loop over the nodes appended for the entering rows: the
    greatest of the initial value and of the widths of their texts. *)
Lemma probe_fold_new (mk : DoubleBarRow -> elem) (from n : nat)
  (l : list (nat * DoubleBarRow)) (a : Q) :
  (forall p, In p l -> (fst p < n)%nat) ->
  exists a' : Q,
    fold_left
      (fun acc x =>
         if selected (sel_ids from n) x
         then Some (Num.max (Num.toNumber acc)
                            (Fin (getComputedTextLength (self x))))
         else acc)
      (map (fun p => mkNode (from + fst p) [] (mk (snd p)) []) l)
      (Some (Fin a)) = Some (Fin a') /\
    a <= a' /\
    (forall p, In p l -> getComputedTextLength (mk (snd p)) <= a') /\
    (a' = a \/ exists p, In p l /\ a' = getComputedTextLength (mk (snd p))).
Proof.
  revert a. induction l as [| p l IH]; intros a Hl.
  - exists a. cbn. repeat split; [lra | intros p [] | left; reflexivity].
  - cbn [map fold_left]. unfold selected at 2. cbn [nid self].
    rewrite sel_index_inside by (apply Hl; left; reflexivity).
    cbn [Num.toNumber Num.max].
    set (w := getComputedTextLength (mk (snd p))).
    destruct (IH (if Qltb a w then w else a)) as (a' & E & Hge & Hall & Hin).
    { intros q Hq. apply Hl. right. exact Hq. }
    exists a'. split; [exact E |].
    assert (Hm : a <= (if Qltb a w then w else a) /\
                 w <= (if Qltb a w then w else a)).
    { destruct (Qltb a w) eqn:B.
      - apply Qltb_true in B. lra.
      - apply Qltb_false in B. lra. }
    split; [lra |]. split.
    + intros q [<- | Hq]; [fold w; lra | apply Hall; exact Hq].
    + destruct Hin as [-> | (q & Hq & ->)].
      * destruct (Qltb a w); [right | left; reflexivity].
        exists p. split; [left; reflexivity | reflexivity].
      * right. exists q. split; [right; exact Hq | reflexivity].
Qed.

Lemma probe_scene_max (cls : string) (valueof : DoubleBarRow -> num)
  (rowData : list DoubleBarRow) (v : DoubleBar) (s : svgT) (a : Q) :
  svg v = Some s ->
  maxBarLabelWidth v = Some (Fin a) ->
  Forall (fun n => (nid n < fresh s)%nat) (children s) ->
  Forall (fun e => matches (mkSel "text" cls) e = false)
         (descendants (children s)) ->
  exists a' : Q,
    probe cls valueof rowData v
    = Ok (with_svg
            (Some {| svg_attrs := svg_attrs s;
                     children := children s;
                     fresh := fresh s + List.length rowData |})
            (with_maxBarLabelWidth (Some (Fin a')) v)) /\
    a <= a' /\
    (forall d, In d rowData ->
       getComputedTextLength (dummy_label cls valueof d) <= a') /\
    (a' = a \/
     exists d, In d rowData /\
               a' = getComputedTextLength (dummy_label cls valueof d)).
Proof.
  intros Hs Hm Hfresh Hnone. unfold probe. rewrite Hs.
  rewrite data_join_none by exact Hnone.
  unfold enter_append. rewrite Nat.sub_diag, enter_nodes_groups.
  rewrite selection_of_groups with (from := fresh s) by reflexivity.
  cbn [children]. rewrite Hm.
  rewrite fold_left_app.
  rewrite (@probe_fold_old (fresh s) (List.length rowData) (children s))
    by (apply outside_weaken; exact Hfresh).
  unfold groups_from. cbn [fst snd].
  destruct (@probe_fold_new (dummy_label cls valueof) (fresh s)
              (List.length rowData)
              (combine (seq 0 (List.length rowData)) rowData) a)
    as (a' & E & Hge & Hall & Hin).
  { intros p Hp. apply in_combine_seq in Hp. lia. }
  unfold dummy_label in E at 1.
  exists a'. rewrite E. split.
  - fold (groups_from
            (fun i d => mkNode (fresh s + i) []
                          (set_text (numberToString (valueof d))
                             (attr "font-size" (ANum (Fin 12))
                                (attr "font-family" (AStr "sans-serif")
                                   (attr "class" (AStr cls)
                                      (createElement "text" (Some d)))))) [])
            rowData).
    rewrite <- (app_nil_r (groups_from _ rowData)).
    rewrite remove_groups;
      [| reflexivity | apply outside_weaken; exact Hfresh | constructor].
    rewrite app_nil_r. reflexivity.
  - split; [exact Hge |]. split.
    + intros d Hd. destruct (in_combine_seq_r rowData 0 d Hd) as (i & Hi).
      apply (Hall (i, d) Hi).
    + destruct Hin as [-> | ((i & d) & Hp & ->)]; [left; reflexivity |].
      right. exists d. split; [| reflexivity].
      apply in_combine_seq in Hp. apply Hp.
Qed.

(** X8: on a scene without provisional texts, [determineMaxBarValueWidth]
    returns, leaves the children and the attributes of the svg element
    exactly as it found them (every provisional text it appended is removed
    again) and touches nothing else of the instance; [maxBarLabelWidth] is
    then the greatest of 0 and of the measured widths of the left and right
    value texts of all rows: a bound of each of them that is 0 or attained. *)
Theorem determineMaxBarValueWidth_max (rowData : list DoubleBarRow)
  (v : DoubleBar) :
  scene_ok v ->
  exists (s s' : svgT) (a : Q),
    svg v = Some s /\
    determineMaxBarValueWidth rowData v
    = Ok (with_svg (Some s') (with_maxBarLabelWidth (Some (Fin a)) v)) /\
    children s' = children s /\
    svg_attrs s' = svg_attrs s /\
    0 <= a /\
    (forall d, In d rowData ->
       getComputedTextLength (dummy_label "dummy-left" rowLeftSelector d) <= a /\
       getComputedTextLength (dummy_label "dummy-right" rowRightSelector d) <= a) /\
    (a = 0 \/
     exists d, In d rowData /\
       (a = getComputedTextLength (dummy_label "dummy-left" rowLeftSelector d) \/
        a = getComputedTextLength (dummy_label "dummy-right" rowRightSelector d))).
Proof.
  intros (s & Hs & Hfresh & Hdummy & _). unfold determineMaxBarValueWidth.
  destruct (@probe_scene_max "dummy-left"%string rowLeftSelector rowData
              (with_maxBarLabelWidth (Some (Fin 0)) v) s 0 Hs eq_refl)
    as (a1 & P1 & G1 & U1 & I1).
  { exact Hfresh. }
  { revert Hdummy. apply Forall_impl. intros e He. apply He. }
  rewrite P1. cbn [bind].
  destruct (@probe_scene_max "dummy-right"%string rowRightSelector rowData
              (with_svg
                 (Some {| svg_attrs := svg_attrs s;
                          children := children s;
                          fresh := fresh s + List.length rowData |})
                 (with_maxBarLabelWidth (Some (Fin a1))
                    (with_maxBarLabelWidth (Some (Fin 0)) v)))
              _ a1 eq_refl eq_refl)
    as (a2 & P2 & G2 & U2 & I2).
  { cbn [children fresh]. revert Hfresh. apply Forall_impl. intros x Hx. lia. }
  { cbn [children]. revert Hdummy. apply Forall_impl. intros e He. apply He. }
  rewrite P2. exists s. eexists. exists a2.
  split; [exact Hs |]. split; [reflexivity |].
  split; [reflexivity |]. split; [reflexivity |].
  split; [lra |]. split.
  - intros d Hd. split; [specialize (U1 d Hd); lra | apply U2; exact Hd].
  - destruct I2 as [-> | (d & Hd & ->)].
    + destruct I1 as [-> | (d & Hd & ->)]; [left; reflexivity |].
      right. exists d. split; [exact Hd | left; reflexivity].
    + right. exists d. split; [exact Hd | right; reflexivity].
Qed.

End Probe.

(** Scenario A on the empty scene: the widest value text, two characters of
    7 units, gives 14. *)
Lemma determineMaxBarValueWidth_max_witness :
  scene_ok (create vis) /\
  exists (s s' : svgT) (a : Q),
    svg (create vis) = Some s /\
    @determineMaxBarValueWidth sample_browser (rows sample_chart) (create vis)
    = Ok (with_svg (Some s')
            (with_maxBarLabelWidth (Some (Fin a)) (create vis))) /\
    children s' = children s /\
    0 <= a.
Proof.
  split; [apply scene_ok_create |].
  destruct (@determineMaxBarValueWidth_max sample_browser (rows sample_chart)
              (create vis) (scene_ok_create vis))
    as (s & s' & a & Hs & E & Hc & _ & Ha & _).
  exists s, s', a. repeat split; assumption.
Defined.

(** ** [truncateText]: the first text that fits *)

Section FirstFit.
Context {browser : Browser}.

(** X9: [truncateText] shows the first text that fits among the text as it
    stands and then its prefixes from the longest to the shortest, each
    followed by the ellipsis: it cuts nothing when the text fits (or is
    empty), and otherwise every longer candidate than the one it leaves was
    measured too wide; the one it leaves fits unless no character is left. *)
Theorem truncateText_first_fit (w : num) (el : elem) :
  let r := truncateText w el in
  (r = el /\ (fits w el \/ text el = EmptyString)) \/
  (exists j, (j < String.length (text el))%nat /\
             r = candidate el j /\
             ~ fits w el /\
             (forall j', (j < j' < String.length (text el))%nat ->
                ~ fits w (candidate el j')) /\
             (fits w r \/ j = O)).
Proof.
  cbv zeta. unfold truncateText, candidate.
  pose proof (truncate_loop_first w (text el) (String.length (text el)) el) as H.
  cbv zeta in H.
  destruct H as [[E C] | H]; [left | right; exact H].
  split; [exact E |]. destruct C as [C | C]; [left; exact C | right].
  destruct (text el); [reflexivity | discriminate C].
Qed.

End FirstFit.

(** ** The value scales on rows of numbers *)

Lemma linear_apply_closed (s : ScaleLinear) (m r1 x : Q) :
  lin_domain s = (Fin 0, Fin m) ->
  lin_range s = (Fin 1, Fin r1) ->
  0 < m ->
  linear_apply s (Fin x) =n= Fin (1 + (r1 - 1) * (x / m)).
Proof.
  intros Hd Hr Hm. unfold linear_apply, bimap. rewrite Hd, Hr.
  cbn [Num.lt].
  replace (Qltb m 0) with false by (symmetry; apply Qltb_false; lra).
  unfold deinterpolateLinear, interpolateNumber.
  cbn [Num.sub Num.lift2 Num.truthy Num.div].
  replace (Qeq_bool (m - 0) 0) with false
    by (symmetry; apply Qeq_bool_false; lra).
  cbn [negb Num.mul Num.add Num.lift2 Num.same].
  field. lra.
Qed.

(** A scale over [[0, m]] with range [[1, r1]], [1 <= r1], keeps the values
    of its domain within its range. *)
Lemma linear_apply_bounds (s : ScaleLinear) (m r1 x : Q) :
  lin_domain s = (Fin 0, Fin m) ->
  lin_range s = (Fin 1, Fin r1) ->
  1 <= r1 -> 0 <= x -> x <= m ->
  exists w : Q, linear_apply s (Fin x) = Fin w /\ 1 <= w /\ w <= r1.
Proof.
  intros Hd Hr Hr1 Hx0 Hxm.
  destruct (Qeq_dec m 0) as [Hm | Hm].
  - pose proof (@linear_degenerate s m 1 r1 (Fin x) Hd Hm Hr) as K.
    destruct (linear_apply s (Fin x)) as [w |]; [| destruct K].
    exists w. cbn [Num.same] in K. split; [reflexivity | lra].
  - assert (Hpos : 0 < m) by lra.
    pose proof (@linear_apply_closed s m r1 x Hd Hr Hpos) as K.
    destruct (linear_apply s (Fin x)) as [w |]; [| destruct K].
    exists w. cbn [Num.same] in K. split; [reflexivity |].
    assert (T0 : 0 <= x / m) by (apply Qle_shift_div_l; lra).
    assert (T1 : x / m <= 1) by (apply Qle_shift_div_r; lra).
    rewrite K. split; nra.
Qed.

Section ValueScales.
Context {browser : Browser}.

(** The common domain of the value scales for a non-empty set of rows of
    numbers. *)
Lemma pooled_domain (d : DoubleBarData) (v : DoubleBar) :
  rows d <> [] ->
  forallb finite_row (rows d) = true ->
  exists m : Q,
    lin_domain (leftBarWidth (setupInputs d v)) = (Fin 0, Fin m) /\
    lin_domain (rightBarWidth (setupInputs d v)) = (Fin 0, Fin m) /\
    pooled_max m (rows d).
Proof.
  intros Hne Hfin.
  destruct (setupInputs_fields d v) as (_ & _ & _ & _ & _ & L & R & _).
  cbv zeta in L, R. rewrite L, R.
  assert (F : forall r, In r (rows d) ->
                exists l rr, left r = Fin l /\ right r = Fin rr).
  { intros r Hr. rewrite forallb_forall in Hfin. specialize (Hfin r Hr).
    unfold finite_row in Hfin. apply andb_true_iff in Hfin.
    destruct (left r) as [l |], (right r) as [rr |];
      try (destruct Hfin; discriminate).
    exists l, rr. split; reflexivity. }
  assert (FL : Forall (fun r => Num.finite (rowLeftSelector r) = true) (rows d)).
  { apply Forall_forall. intros r Hr. destruct (F r Hr) as (l & rr & E & _).
    unfold rowLeftSelector. rewrite E. reflexivity. }
  assert (FR : Forall (fun r => Num.finite (rowRightSelector r) = true) (rows d)).
  { apply Forall_forall. intros r Hr. destruct (F r Hr) as (l & rr & _ & E).
    unfold rowRightSelector. rewrite E. reflexivity. }
  destruct (@extent_max _ (rows d) rowLeftSelector Hne FL)
    as (ml & El & Ul & (al & Inl & Al)).
  destruct (@extent_max _ (rows d) rowRightSelector Hne FR)
    as (mr & Er & Ur & (ar & Inr & Ar)).
  rewrite El, Er. cbn [Num.toNumber Num.max].
  exists (if Qltb ml mr then mr else ml).
  split; [reflexivity |]. split; [reflexivity |].
  unfold rowLeftSelector, rowRightSelector in *.
  assert (B : forall r, In r (rows d) ->
                Num.le (left r) (Fin (if Qltb ml mr then mr else ml)) /\
                Num.le (right r) (Fin (if Qltb ml mr then mr else ml))).
  { intros r Hr. specialize (Ul r Hr). specialize (Ur r Hr).
    destruct (F r Hr) as (l & rr & E1 & E2). rewrite E1, E2 in *.
    cbn [Num.le] in *.
    destruct (Qltb ml mr) eqn:E;
      [apply Qltb_true in E | apply Qltb_false in E]; lra. }
  split; [exact B |].
  destruct (Qltb ml mr).
  - exists ar. split; [exact Inr | right; exact Ar].
  - exists al. split; [exact Inl | left; exact Al].
Qed.

(** The value scales a validated call leaves, for rows of numbers. *)
Lemma value_scales_after (data : VisData) (element : HTMLElement)
  (config : VisConfig) (queryResponse : VisQueryResponse)
  (v v' : DoubleBar) (rs : DoubleBarData) :
  reachable v ->
  updateAsync data element config queryResponse v = Ok (v', 1%nat) ->
  createChartData data config = Ok rs ->
  rows rs <> [] ->
  forallb finite_row (rows rs) = true ->
  exists (m r1 bo : Q) (s' : svgT) (T N : list node) (base : nat),
    pooled_max m (rows rs) /\
    halfGraphBarMaxWidth v' = Fin r1 /\
    barOriginX v' = Fin bo /\
    lin_domain (leftBarWidth v') = (Fin 0, Fin m) /\
    lin_range (leftBarWidth v') = (Fin 1, Fin r1) /\
    lin_domain (rightBarWidth v') = (Fin 0, Fin m) /\
    lin_range (rightBarWidth v') = (Fin 1, Fin r1) /\
    svg v' = Some s' /\
    children s' = T ++ groups_from (row_group v' config base) (rows rs) ++ N /\
    Forall title_node T /\ Forall title_node N.
Proof.
  intros Hr Hu Hd Hne Hfin.
  destruct (@updateAsync_returns _ data element config queryResponse v _ _ Hu)
    as [(_ & _ & K) | (Hv & d0 & Hd0)]; [discriminate K |].
  destruct (@updateAsync_scene _ data element config queryResponse v rs
              (reachable_scene_ok Hr) Hv Hd)
    as (v'' & s & s' & T & N & base & a & E & _ & Hs' & Hc & HT & HN & _ & _ &
        _ & _ & _ & _ & Hw & _ & Hl & _ & HL & HR).
  rewrite E in Hu. inversion Hu. subst v''.
  destruct (@pooled_domain rs v Hne Hfin) as (m & DL & DR & Hm).
  destruct (@halfGraphBarMaxWidth_finite v' _ _ Hw Hl) as (r1 & Hr1).
  assert (Hbo : exists bo, barOriginX v' = Fin bo).
  { unfold barOriginX, halfGraphWidth, graphWidth. rewrite Hw.
    eexists. reflexivity. }
  destruct Hbo as (bo & Hbo).
  exists m, r1, bo, s', T, N, base.
  split; [exact Hm |]. split; [exact Hr1 |]. split; [exact Hbo |].
  split; [rewrite HL; exact DL |].
  split; [rewrite HL, Hr1; reflexivity |].
  split; [rewrite HR; exact DR |].
  split; [rewrite HR, Hr1; reflexivity |].
  split; [exact Hs' |]. split; [exact Hc |]. split; [exact HT | exact HN].
Qed.

End ValueScales.

Section BarBounds.
Context {browser : Browser}.

(** X10: after a validated call on rows whose values are numbers not below
    0, in a container wide enough for [halfGraphBarMaxWidth] to reach 1,
    every bar of the scene is between 1 and [halfGraphBarMaxWidth] wide and
    lies between [barOriginX - halfGraphBarMaxWidth] and
    [barOriginX + halfGraphBarMaxWidth]: no bar leaves the room its half of
    the graph keeps for bars. *)
Theorem bar_widths_bounded (data : VisData) (element : HTMLElement)
  (config : VisConfig) (queryResponse : VisQueryResponse)
  (v v' : DoubleBar) (rs : DoubleBarData) :
  reachable v ->
  updateAsync data element config queryResponse v = Ok (v', 1%nat) ->
  createChartData data config = Ok rs ->
  (forall r, In r (rows rs) ->
     Num.le (Fin 0) (left r) /\ Num.le (Fin 0) (right r)) ->
  Num.le (Fin 1) (halfGraphBarMaxWidth v') ->
  forall (s' : svgT) (g : node) (e : elem),
    svg v' = Some s' ->
    In g (children s') -> In e (kids g) ->
    matches (mkSel "rect" "left-bar") e = true \/
    matches (mkSel "rect" "right-bar") e = true ->
    exists x w : num,
      get_attr "x" (attrs e) = Some (ANum x) /\
      get_attr "width" (attrs e) = Some (ANum w) /\
      Num.le (Fin 1) w /\
      Num.le w (halfGraphBarMaxWidth v') /\
      Num.le (barOriginX v' - halfGraphBarMaxWidth v')%num x /\
      Num.le (x + w)%num (barOriginX v' + halfGraphBarMaxWidth v')%num.
Proof.
  intros Hr Hu Hd Hpos Hwide s' g e Hs' Hg He Hbar.
  destruct (rows rs) as [| r0 rest] eqn:Hrows.
  { (* no row, no bar *)
    destruct (@updateAsync_returns _ data element config queryResponse v _ _ Hu)
      as [(_ & _ & K) | (Hv & d0 & Hd0)]; [discriminate K |].
    destruct (@updateAsync_scene _ data element config queryResponse v rs
                (reachable_scene_ok Hr) Hv Hd)
      as (v'' & s & s1 & T & N & base & a & E & _ & Hs1 & Hc & HT & HN & _).
    rewrite E in Hu. inversion Hu. subst v''.
    rewrite Hs1 in Hs'. inversion Hs'. subst s1.
    rewrite Hc in Hg.
    destruct (@parent_of_scene _ v' config base (rows rs) T N g e HT HN Hg He)
      as (i & d & Hin & _).
    rewrite Hrows in Hin. destruct Hin. }
  assert (Hne : rows rs <> []) by (rewrite Hrows; discriminate).
  rewrite <- Hrows in Hpos. clear Hrows r0 rest.
  assert (Hfin : forallb finite_row (rows rs) = true).
  { apply forallb_forall. intros r Hin. destruct (Hpos r Hin) as [A B].
    unfold finite_row. destruct (left r), (right r); try reflexivity;
      cbn in A, B; contradiction. }
  destruct (@value_scales_after _ data element config queryResponse v v' rs
              Hr Hu Hd Hne Hfin)
    as (m & r1 & bo & s1 & T & N & base & Hm & Hr1 & Hbo & DL & RL & DR & RR &
        Hs1 & Hc & HT & HN).
  rewrite Hs1 in Hs'. inversion Hs'. subst s1.
  rewrite Hr1 in Hwide |- *. rewrite Hbo. cbn [Num.le] in Hwide.
  rewrite Hc in Hg.
  destruct (@parent_of_scene _ v' config base (rows rs) T N g e HT HN Hg He)
    as (i & d & Hin & ->).
  destruct Hm as [Hub _]. destruct (Hub d Hin) as [UL UR].
  destruct (Hpos d Hin) as [PL PR].
  unfold row_group in He. cbn [kids] in He.
  destruct He as [<- | [<- | [<- | [<- | [<- | [<- | []]]]]]].
  - destruct Hbar as [K | K]; discriminate K.
  - unfold legend_of in Hbar. rewrite !matches_truncateText in Hbar.
    destruct Hbar as [K | K]; discriminate K.
  - destruct Hbar as [K | K]; discriminate K.
  - destruct Hbar as [K | K]; discriminate K.
  - unfold left_bar_of, rowLeftSelector.
    destruct (left d) as [x |]; [| destruct PL]. cbn [Num.le] in PL, UL.
    destruct (@linear_apply_bounds (leftBarWidth v') m r1 x DL RL Hwide PL UL)
      as (w & Ew & W1 & W2).
    rewrite Ew, Hbo. eexists. eexists.
    split; [reflexivity |]. split; [reflexivity |].
    cbn [Num.le Num.sub Num.add Num.lift2]. repeat split; lra.
  - unfold right_bar_of, rowRightSelector.
    destruct (right d) as [x |]; [| destruct PR]. cbn [Num.le] in PR, UR.
    destruct (@linear_apply_bounds (rightBarWidth v') m r1 x DR RR Hwide PR UR)
      as (w & Ew & W1 & W2).
    rewrite Ew, Hbo. eexists. eexists.
    split; [reflexivity |]. split; [reflexivity |].
    cbn [Num.le Num.sub Num.add Num.lift2]. repeat split; lra.
Qed.

(** X11: after a validated call on a non-empty set of rows of numbers whose
    greatest value [m] is positive, both value scales send a value [x] to
    [1 + (r1 - 1) * ((x - 0) / (m - 0))], computed in this order, where [r1]
    is [halfGraphBarMaxWidth]; so they send 0 to 1, and when [r1] is at
    least 1 they send [m] to [r1] (the bar of the greatest value fills the
    room kept for bars, and some row has such a bar) and preserve the order
    of the values. *)
Theorem value_scale_endpoints (data : VisData) (element : HTMLElement)
  (config : VisConfig) (queryResponse : VisQueryResponse)
  (v v' : DoubleBar) (rs : DoubleBarData) :
  reachable v ->
  updateAsync data element config queryResponse v = Ok (v', 1%nat) ->
  createChartData data config = Ok rs ->
  rows rs <> [] ->
  forallb finite_row (rows rs) = true ->
  exists m r1 : Q,
    pooled_max m (rows rs) /\
    halfGraphBarMaxWidth v' = Fin r1 /\
    (0 < m ->
     (forall x : num,
        linear_apply (leftBarWidth v') x
        = (Fin 1 + (Fin r1 - Fin 1) * ((x - Fin 0) / (Fin m - Fin 0)))%num /\
        linear_apply (rightBarWidth v') x = linear_apply (leftBarWidth v') x) /\
     linear_apply (leftBarWidth v') (Fin 0) =n= Fin 1 /\
     (1 <= r1 ->
      linear_apply (leftBarWidth v') (Fin m) =n= Fin r1 /\
      (forall x y : Q,
         x <= y ->
         Num.le (linear_apply (leftBarWidth v') (Fin x))
                (linear_apply (leftBarWidth v') (Fin y))) /\
      (exists d, In d (rows rs) /\
         (linear_apply (leftBarWidth v') (left d) =n= Fin r1 \/
          linear_apply (rightBarWidth v') (right d) =n= Fin r1)))).
Proof.
  intros Hr Hu Hd Hne Hfin.
  destruct (@value_scales_after _ data element config queryResponse v v' rs
              Hr Hu Hd Hne Hfin)
    as (m & r1 & bo & s1 & T & N & base & Hm & Hr1 & Hbo & DL & RL & DR & RR & _).
  exists m, r1. split; [exact Hm |]. split; [exact Hr1 |].
  intros Hpos.
  assert (Op : forall s x,
             lin_domain s = (Fin 0, Fin m) ->
             lin_range s = (Fin 1, Fin r1) ->
             linear_apply s x
             = (Fin 1 + (Fin r1 - Fin 1) * ((x - Fin 0) / (Fin m - Fin 0)))%num).
  { intros s x Ed Er. unfold linear_apply, bimap. rewrite Ed, Er.
    cbn [Num.lt].
    replace (Qltb m 0) with false by (symmetry; apply Qltb_false; lra).
    unfold deinterpolateLinear, interpolateNumber.
    cbn [Num.sub Num.lift2 Num.truthy].
    replace (Qeq_bool (m - 0) 0) with false
      by (symmetry; apply Qeq_bool_false; lra).
    reflexivity. }
  assert (C : forall x, linear_apply (leftBarWidth v') (Fin x)
                        =n= Fin (1 + (r1 - 1) * (x / m)))
    by (intros x; apply linear_apply_closed; assumption).
  assert (CR : forall x, linear_apply (rightBarWidth v') (Fin x)
                         =n= Fin (1 + (r1 - 1) * (x / m)))
    by (intros x; apply linear_apply_closed; assumption).
  assert (Top : 1 + (r1 - 1) * (m / m) == r1) by (field; lra).
  split.
  { intros x. split; [apply Op; assumption |].
    rewrite (Op (rightBarWidth v') x DR RR), (Op (leftBarWidth v') x DL RL).
    reflexivity. }
  split.
  { eapply same_trans; [apply C |]. cbn [Num.same]. field. lra. }
  intros Hwide. split.
  { eapply same_trans; [apply C |]. exact Top. }
  split.
  { intros x y Hxy.
    pose proof (C x) as Cx. pose proof (C y) as Cy.
    destruct (linear_apply (leftBarWidth v') (Fin x)) as [wx |]; [| destruct Cx].
    destruct (linear_apply (leftBarWidth v') (Fin y)) as [wy |]; [| destruct Cy].
    cbn [Num.same] in Cx, Cy. cbn [Num.le]. rewrite Cx, Cy.
    assert (D : x / m <= y / m).
    { apply Qle_shift_div_l; [exact Hpos |].
      setoid_replace (x / m * m) with x by (field; lra). exact Hxy. }
    nra. }
  destruct Hm as [_ (d & Hin & [E | E])].
  - exists d. split; [exact Hin |]. left. rewrite E.
    eapply same_trans; [apply C |]. exact Top.
  - exists d. split; [exact Hin |]. right. rewrite E.
    eapply same_trans; [apply CR |]. exact Top.
Qed.

End BarBounds.

(** Scenario A in a 600 by 200 container: the room for bars is 171 wide. *)
Lemma bar_widths_bounded_witness :
  reachable (browser := sample_browser) (create vis) /\
  Num.le (Fin 1) (halfGraphBarMaxWidth (sample_after sample_data)) /\
  forall (s' : svgT) (g : node) (e : elem),
    svg (sample_after sample_data) = Some s' ->
    In g (children s') -> In e (kids g) ->
    matches (mkSel "rect" "left-bar") e = true \/
    matches (mkSel "rect" "right-bar") e = true ->
    exists x w : num,
      get_attr "x" (attrs e) = Some (ANum x) /\
      get_attr "width" (attrs e) = Some (ANum w) /\
      Num.le (Fin 1) w /\
      Num.le w (halfGraphBarMaxWidth (sample_after sample_data)) /\
      Num.le (barOriginX (sample_after sample_data)
              - halfGraphBarMaxWidth (sample_after sample_data))%num x /\
      Num.le (x + w)%num
             (barOriginX (sample_after sample_data)
              + halfGraphBarMaxWidth (sample_after sample_data))%num.
Proof.
  split; [apply reach_create |].
  assert (W : Num.le (Fin 1) (halfGraphBarMaxWidth (sample_after sample_data)))
    by (vm_compute; discriminate).
  split; [exact W |].
  apply (@bar_widths_bounded sample_browser sample_data sample_element
           sample_config sample_response (create vis)
           (sample_after sample_data) sample_chart reach_create).
  - vm_compute. reflexivity.
  - reflexivity.
  - intros r [<- | [<- | []]]; split; vm_compute; discriminate.
  - exact W.
Defined.

(** Scenario A: the greatest value, 30, is drawn 171 wide. *)
Lemma value_scale_endpoints_witness :
  rows sample_chart <> [] /\
  forallb finite_row (rows sample_chart) = true /\
  exists m r1 : Q,
    pooled_max m (rows sample_chart) /\
    halfGraphBarMaxWidth (sample_after sample_data) = Fin r1.
Proof.
  split; [discriminate |]. split; [reflexivity |].
  destruct (@value_scale_endpoints sample_browser sample_data sample_element
              sample_config sample_response (create vis)
              (sample_after sample_data) sample_chart reach_create)
    as (m & r1 & Hm & Hr1 & _).
  - vm_compute. reflexivity.
  - reflexivity.
  - discriminate.
  - reflexivity.
  - exists m, r1. split; [exact Hm | exact Hr1].
Defined.

(** ** The row scale: where the rows are placed *)

Lemma index_of_seq (k n i : nat) :
  (i < n)%nat -> index_of (k + i) (seq k n) = Some i.
Proof.
  revert k i. induction n as [| n IH]; intros k i Hi; [lia |].
  cbn [seq index_of]. destruct i as [| i].
  - rewrite Nat.add_0_r, Nat.eqb_refl. reflexivity.
  - replace (Nat.eqb k (k + S i)) with false
      by (symmetry; apply Nat.eqb_neq; lia).
    replace (k + S i)%nat with (S k + i)%nat by lia.
    rewrite IH by lia. reflexivity.
Qed.

Lemma band_domain_sequence (n : nat) (y : ScaleBand) :
  band_domain (band_set_domain (sequence n) y) = seq 0 n.
Proof.
  unfold band_set_domain, rescale, sequence. cbn [band_domain].
  rewrite nodup_fixed_point by (apply NoDup_rev; apply seq_NoDup).
  apply rev_involutive.
Qed.

(** [rescale] over the domain [0 .. n-1], a range in increasing order and
    the alignment 0: step, bandwidth and the position of each index. *)
Lemma rescale_positions (s : ScaleBand) (n : nat) (a b p o : Q) :
  band_domain s = seq 0 n ->
  band_range s = (Fin a, Fin b) ->
  a <= b ->
  band_paddingInner s = Fin p ->
  band_paddingOuter s = Fin o ->
  band_align s = Fin 0 ->
  let c := inject_Z (Z.of_nat n) in
  let M := if Qltb 1 (c - p + o * 2) then c - p + o * 2 else 1 in
  let st := (b - a) / M in
  band_step (rescale s) = Fin st /\
  band_bandwidth (rescale s) = Fin (st * (1 - p)) /\
  forall i, (i < n)%nat ->
    band_apply (rescale s) i
    = Some (Fin (a + (b - a - st * (c - p)) * 0 + st * inject_Z (Z.of_nat i))).
Proof.
  intros Hd Hr Hab Hp Ho Ha c M st.
  assert (HM : 1 <= M) by apply max_one_ge.
  assert (Z0 : Qeq_bool M 0 = false) by (apply Qeq_bool_false; lra).
  assert (Rv : Qltb b a = false) by (apply Qltb_false; exact Hab).
  unfold band_apply, rescale. rewrite Hd, Hr, Hp, Ho, Ha, length_seq.
  cbn [fst snd band_step band_bandwidth band_domain band_ordinalRange
       Num.lt Num.ofNat Num.sub Num.add Num.mul Num.lift2 Num.max Num.div].
  rewrite Rv. cbn [Num.sub Num.lift2 Num.div]. fold c. fold M. rewrite Z0.
  cbn [Num.mul Num.add Num.sub Num.lift2]. fold st.
  split; [reflexivity |]. split; [reflexivity |].
  intros i Hi.
  rewrite (@index_of_seq 0 n i Hi : index_of i (seq 0 n) = Some i).
  rewrite length_map, length_seq, Nat.mod_small by exact Hi.
  rewrite nth_error_map, nth_error_seq.
  replace (Nat.ltb i n) with true by (symmetry; apply Nat.ltb_lt; exact Hi).
  reflexivity.
Qed.

(** The row scale once [setupSizing] has set its range, from what
    [setupInputs] left: step, bandwidth and the position of each index. *)
Lemma band_set_range_positions (z : ScaleBand) (n : nat) (h : Q) :
  band_domain z = seq 0 n ->
  band_paddingInner z = Fin 0.7 ->
  band_paddingOuter z = Fin (7 # 20) ->
  band_align z = Fin 0 ->
  15 <= h ->
  band_step (band_set_range (Fin 15, Fin h) z)
  =n= ((Fin h - Fin 15)
       / Num.max (Fin 1) (Num.ofNat n - Fin 0.7 + Fin 0.7 / Fin 2 * Fin 2))%num /\
  band_bandwidth (band_set_range (Fin 15, Fin h) z)
  =n= (band_step (band_set_range (Fin 15, Fin h) z) * (Fin 1 - Fin 0.7))%num /\
  Num.le (Fin 0) (band_bandwidth (band_set_range (Fin 15, Fin h) z)) /\
  Num.le (band_bandwidth (band_set_range (Fin 15, Fin h) z))
         (band_step (band_set_range (Fin 15, Fin h) z)) /\
  forall i, (i < n)%nat ->
    exists p : num,
      band_apply (band_set_range (Fin 15, Fin h) z) i = Some p /\
      p =n= (Fin 15 + band_step (band_set_range (Fin 15, Fin h) z)
                      * Num.ofNat i)%num.
Proof.
  intros P0 P1 P2 P3 Hh.
  unfold band_set_range.
  set (s := {| band_domain := band_domain z;
               band_range := (Fin 15, Fin h);
               band_paddingInner := band_paddingInner z;
               band_paddingOuter := band_paddingOuter z;
               band_align := band_align z;
               band_step := band_step z;
               band_bandwidth := band_bandwidth z;
               band_ordinalRange := band_ordinalRange z |}).
  destruct (@rescale_positions s n 15 h 0.7 (7 # 20) P0 eq_refl Hh P1 P2 P3)
    as (S1 & S2 & S3).
  cbv zeta in S1, S2, S3.
  set (c := inject_Z (Z.of_nat n)) in *.
  pose proof (max_one_ge (c - 0.7 + (7 # 20) * 2)) as HM.
  set (M := if Qltb 1 (c - 0.7 + (7 # 20) * 2) then c - 0.7 + (7 # 20) * 2 else 1)
    in *.
  assert (Z0 : Qeq_bool M 0 = false) by (apply Qeq_bool_false; lra).
  assert (St : 0 <= (h - 15) / M) by (apply Qle_shift_div_l; lra).
  rewrite S1, S2.
  split.
  { unfold Num.ofNat.
    cbn [Num.sub Num.add Num.mul Num.lift2 Num.div Num.max].
    replace (Qeq_bool 2 0) with false by reflexivity.
    cbn [Num.mul Num.add Num.lift2 Num.max].
    change (0.7 / 2 * 2) with ((7 # 20) * 2). fold c. fold M.
    rewrite Z0. reflexivity. }
  split; [reflexivity |].
  cbn [Num.le].
  split; [apply Qmult_le_0_compat; [exact St | discriminate] |].
  split.
  { assert (H1 : (1 - 0.7) == 0.3) by reflexivity. rewrite H1. lra. }
  intros i Hi.
  exists (Fin (15 + (h - 15 - (h - 15) / M * (c - 0.7)) * 0
               + (h - 15) / M * inject_Z (Z.of_nat i))).
  split; [apply S3; exact Hi |].
  unfold Num.ofNat. cbn [Num.same Num.mul Num.add Num.lift2]. ring.
Qed.

(** Paddings and alignment of the row scale as [setupInputs] leaves it. *)
Lemma row_scale_paddings (y : ScaleBand) (n : nat) :
  band_paddingInner
    (band_set_domain (sequence n)
      (band_set_paddingOuter
         (band_paddingInner (band_set_paddingInner (Fin 0.7) y) / Fin 2)%num
         (band_set_paddingInner (Fin 0.7) y))) = Fin 0.7 /\
  band_paddingOuter
    (band_set_domain (sequence n)
      (band_set_paddingOuter
         (band_paddingInner (band_set_paddingInner (Fin 0.7) y) / Fin 2)%num
         (band_set_paddingInner (Fin 0.7) y))) = Fin (7 # 20) /\
  band_align
    (band_set_domain (sequence n)
      (band_set_paddingOuter
         (band_paddingInner (band_set_paddingInner (Fin 0.7) y) / Fin 2)%num
         (band_set_paddingInner (Fin 0.7) y))) = band_align y.
Proof. split; [reflexivity |]. split; reflexivity. Qed.

(** The row scale as a cycle configures it, in a container at least 15
    high. *)
Lemma row_scale_positions (y : ScaleBand) (n : nat) (h : Q) :
  band_align y = Fin 0 ->
  15 <= h ->
  let y' :=
    band_set_range (Fin 15, Fin h)
      (band_set_domain (sequence n)
         (band_set_paddingOuter
            (band_paddingInner (band_set_paddingInner (Fin 0.7) y) / Fin 2)%num
            (band_set_paddingInner (Fin 0.7) y))) in
  band_step y'
  =n= ((Fin h - Fin 15)
       / Num.max (Fin 1) (Num.ofNat n - Fin 0.7 + Fin 0.7 / Fin 2 * Fin 2))%num /\
  band_bandwidth y' =n= (band_step y' * (Fin 1 - Fin 0.7))%num /\
  Num.le (Fin 0) (band_bandwidth y') /\
  Num.le (band_bandwidth y') (band_step y') /\
  forall i, (i < n)%nat ->
    exists p : num,
      band_apply y' i = Some p /\
      p =n= (Fin 15 + band_step y' * Num.ofNat i)%num.
Proof.
  intros Ha Hh. cbv zeta.
  destruct (row_scale_paddings y n) as (P1 & P2 & P3).
  apply band_set_range_positions.
  - apply band_domain_sequence.
  - exact P1.
  - exact P2.
  - rewrite P3. exact Ha.
  - exact Hh.
Qed.

Section RowPlacement.
Context {browser : Browser}.

Lemma setupInputs_rowYPosition (d : DoubleBarData) (v : DoubleBar) :
  rowYPosition (setupInputs d v)
  = band_set_domain (sequence (List.length (rows d)))
      (band_set_paddingOuter
         (band_paddingInner (band_set_paddingInner (Fin 0.7) (rowYPosition v))
          / Fin 2)%num
         (band_set_paddingInner (Fin 0.7) (rowYPosition v))).
Proof. reflexivity. Qed.

Lemma band_set_range_align (r : num * num) (z : ScaleBand) :
  band_align (band_set_range r z) = band_align z.
Proof. reflexivity. Qed.

(** The alignment [vis] gives the row scale, 0, is never changed. *)
Lemma reachable_align (v : DoubleBar) :
  reachable v -> band_align (rowYPosition v) = Fin 0.
Proof.
  induction 1 as [| v data element config queryResponse v' calls Hr IH Hu].
  - reflexivity.
  - destruct (@updateAsync_returns _ data element config queryResponse v _ _ Hu)
      as [(_ & -> & _) | (Hv & d & Hd)]; [exact IH |].
    destruct (@updateAsync_scene _ data element config queryResponse v d
                (reachable_scene_ok Hr) Hv Hd)
      as (v'' & s & s' & T & N & base & a & E & _ & _ & _ & _ & _ & _ & _ &
          _ & _ & _ & _ & _ & _ & _ & HY & _).
    rewrite E in Hu. inversion Hu. subst v''.
    rewrite HY, band_set_range_align, setupInputs_rowYPosition.
    destruct (row_scale_paddings (rowYPosition v) (List.length (rows d)))
      as (_ & _ & P3).
    rewrite P3. exact IH.
Qed.

(** X12: after a validated call in a container at least 15 high, [n] being
    the number of rows, the row height is
    [(height - 15) / max(1, n - 0.7 + 0.7 / 2 * 2)], the height of a bar is
    [rowHeight * (1 - 0.7)], each computed in this order, the bar lies
    within its row ([0 <= barHeight <= rowHeight]), and the row of index [i]
    is placed at [15 + rowHeight * i]: the first row at 15, the next ones a
    row height apart. *)
Theorem rows_evenly_spaced (data : VisData) (element : HTMLElement)
  (config : VisConfig) (queryResponse : VisQueryResponse)
  (v v' : DoubleBar) (rs : DoubleBarData) :
  reachable v ->
  updateAsync data element config queryResponse v = Ok (v', 1%nat) ->
  createChartData data config = Ok rs ->
  (15 <= clientHeight element)%Z ->
  rowHeight v'
  =n= ((Num.ofZ (clientHeight element) - Fin 15)
       / Num.max (Fin 1)
           (Num.ofNat (List.length (rows rs)) - Fin 0.7
            + Fin 0.7 / Fin 2 * Fin 2))%num /\
  barHeight v' =n= (rowHeight v' * (Fin 1 - Fin 0.7))%num /\
  Num.le (Fin 0) (barHeight v') /\
  Num.le (barHeight v') (rowHeight v') /\
  forall i, (i < List.length (rows rs))%nat ->
    exists p : num,
      band_apply (rowYPosition v') i = Some p /\
      p =n= (Fin 15 + rowHeight v' * Num.ofNat i)%num.
Proof.
  intros Hr Hu Hd Hh.
  destruct (@updateAsync_returns _ data element config queryResponse v _ _ Hu)
    as [(_ & _ & K) | (Hv & d0 & Hd0)]; [discriminate K |].
  destruct (@updateAsync_scene _ data element config queryResponse v rs
              (reachable_scene_ok Hr) Hv Hd)
    as (v'' & s & s' & T & N & base & a & E & _ & _ & _ & _ & _ & _ & _ &
        _ & _ & _ & _ & _ & _ & _ & HY & _).
  rewrite E in Hu. inversion Hu. subst v''.
  rewrite setupInputs_rowYPosition in HY. unfold Num.ofZ in HY.
  assert (Hq : 15 <= inject_Z (clientHeight element)).
  { change 15 with (inject_Z 15). rewrite <- Zle_Qle. exact Hh. }
  unfold barHeight, rowHeight, Num.ofZ. rewrite HY.
  apply (@row_scale_positions (rowYPosition v) (List.length (rows rs))
           (inject_Z (clientHeight element)) (reachable_align Hr) Hq).
Qed.

(** X13: after a validated call the row groups of the scene are, in
    document order, the rows of the data in their order: the group of index
    [i] carries row [i] as its datum and the position the row scale gives
    to [i] as its transform. *)
Theorem row_groups_in_order (data : VisData) (element : HTMLElement)
  (config : VisConfig) (queryResponse : VisQueryResponse)
  (v v' : DoubleBar) (rs : DoubleBarData) :
  reachable v ->
  updateAsync data element config queryResponse v = Ok (v', 1%nat) ->
  createChartData data config = Ok rs ->
  exists s' : svgT,
    svg v' = Some s' /\
    map (fun g => (datum (self g), get_attr "transform" (attrs (self g))))
        (filter (fun g => matches (mkSel "g" "chart-row") (self g)) (children s'))
    = map (fun p =>
             (Some (snd p),
              Some (ATranslate (Fin 0) (band_apply (rowYPosition v') (fst p)))))
          (combine (seq 0 (List.length (rows rs))) (rows rs)).
Proof.
  intros Hr Hu Hd.
  destruct (@updateAsync_returns _ data element config queryResponse v _ _ Hu)
    as [(_ & _ & K) | (Hv & d0 & Hd0)]; [discriminate K |].
  destruct (@updateAsync_scene _ data element config queryResponse v rs
              (reachable_scene_ok Hr) Hv Hd)
    as (v'' & s & s' & T & N & base & a & E & _ & Hs' & Hc & HT & HN & _).
  rewrite E in Hu. inversion Hu. subst v''.
  exists s'. split; [exact Hs' |]. rewrite Hc.
  assert (NoT : forall l, Forall title_node l ->
            filter (fun g => matches (mkSel "g" "chart-row") (self g)) l = []).
  { intros l Hl. apply filter_none. intros x Hx.
    rewrite Forall_forall in Hl. apply (title_not_group (Hl x Hx)). }
  rewrite !filter_app, (NoT T HT), (NoT N HN), app_nil_r. cbn [app].
  rewrite forallb_filter_id.
  - unfold groups_from. rewrite map_map. apply map_ext. intros p. reflexivity.
  - apply forallb_forall. intros x Hx. unfold groups_from in Hx.
    apply in_map_iff in Hx. destruct Hx as (p & <- & _). reflexivity.
Qed.

End RowPlacement.

(** Scenario A in a container 200 high: two rows, the second a row height
    below the first. *)
Lemma rows_evenly_spaced_witness :
  reachable (browser := sample_browser) (create vis) /\
  (15 <= clientHeight sample_element)%Z /\
  rowHeight (sample_after sample_data)
  =n= ((Num.ofZ (clientHeight sample_element) - Fin 15)
       / Num.max (Fin 1)
           (Num.ofNat (List.length (rows sample_chart)) - Fin 0.7
            + Fin 0.7 / Fin 2 * Fin 2))%num /\
  exists p : num,
    band_apply (rowYPosition (sample_after sample_data)) 1 = Some p /\
    p =n= (Fin 15 + rowHeight (sample_after sample_data) * Num.ofNat 1)%num.
Proof.
  split; [apply reach_create |].
  split; [vm_compute; discriminate |].
  destruct (@rows_evenly_spaced sample_browser sample_data sample_element
              sample_config sample_response (create vis)
              (sample_after sample_data) sample_chart reach_create)
    as (A & _ & _ & _ & B).
  - vm_compute. reflexivity.
  - reflexivity.
  - vm_compute. discriminate.
  - split; [exact A |]. apply (B 1%nat). cbn. lia.
Defined.

(** Scenario A: the groups of Alpha and Beta, in this order. *)
Lemma row_groups_in_order_witness :
  reachable (browser := sample_browser) (create vis) /\
  exists s' : svgT,
    svg (sample_after sample_data) = Some s' /\
    map (fun g => datum (self g))
        (filter (fun g => matches (mkSel "g" "chart-row") (self g)) (children s'))
    = map Some (rows sample_chart).
Proof.
  split; [apply reach_create |].
  destruct (@row_groups_in_order sample_browser sample_data sample_element
              sample_config sample_response (create vis)
              (sample_after sample_data) sample_chart reach_create)
    as (s' & Hs & Hm).
  - vm_compute. reflexivity.
  - reflexivity.
  - exists s'. split; [exact Hs |].
    apply (f_equal (map fst)) in Hm. rewrite !map_map in Hm. exact Hm.
Defined.

(** ** What a row group holds *)

Section RowContents.
Context {browser : Browser}.

Lemma truncateText_frame (w : num) (el : elem) :
  tag (truncateText w el) = tag el /\
  attrs (truncateText w el) = attrs el /\
  datum (truncateText w el) = datum el /\
  classes (truncateText w el) = classes el.
Proof. rewrite truncateText_shape. repeat split. Qed.

(** The scene after a validated call, by row group. *)
Lemma groups_after (data : VisData) (element : HTMLElement)
  (config : VisConfig) (queryResponse : VisQueryResponse)
  (v v' : DoubleBar) (rs : DoubleBarData) :
  reachable v ->
  updateAsync data element config queryResponse v = Ok (v', 1%nat) ->
  createChartData data config = Ok rs ->
  exists s' : svgT,
    svg v' = Some s' /\
    forall g,
      In g (children s') ->
      matches (mkSel "g" "chart-row") (self g) = true ->
      exists base i d, In d (rows rs) /\ g = row_group v' config base i d.
Proof.
  intros Hr Hu Hd.
  destruct (@updateAsync_returns _ data element config queryResponse v _ _ Hu)
    as [(_ & _ & K) | (Hv & d0 & Hd0)]; [discriminate K |].
  destruct (@updateAsync_scene _ data element config queryResponse v rs
              (reachable_scene_ok Hr) Hv Hd)
    as (v'' & s & s' & T & N & base & a & E & _ & Hs' & Hc & HT & HN & _).
  rewrite E in Hu. inversion Hu. subst v''.
  exists s'. split; [exact Hs' |]. intros g Hg Hm. rewrite Hc in Hg.
  destruct (@group_of_scene _ v' config base (rows rs) T N g HT HN Hg Hm)
    as (i & d & Hin & ->).
  exists base, i, d. split; [exact Hin | reflexivity].
Qed.

(** X14: after a validated call every row group of the scene stands for a
    row of the data, listens to [mouseover] and [mouseout], is filled with a
    transparent white, and has exactly six children, in this order: the
    highlight rectangle, the legend text, the left and the right value text,
    the left and the right bar; each of them carries the row as its datum. *)
Theorem row_group_children (data : VisData) (element : HTMLElement)
  (config : VisConfig) (queryResponse : VisQueryResponse)
  (v v' : DoubleBar) (rs : DoubleBarData) :
  reachable v ->
  updateAsync data element config queryResponse v = Ok (v', 1%nat) ->
  createChartData data config = Ok rs ->
  exists s' : svgT,
    svg v' = Some s' /\
    forall g,
      In g (children s') ->
      matches (mkSel "g" "chart-row") (self g) = true ->
      exists d,
        In d (rows rs) /\
        datum (self g) = Some d /\
        listeners g = ["mouseover"; "mouseout"]%string /\
        get_attr "fill" (attrs (self g)) = Some (AStr "rgba(255, 255, 255, 0)") /\
        map (fun e => (tag e, classes e, datum e)) (kids g)
        = [("rect", ["row-highlight"], Some d);
           ("text", ["legend-text"], Some d);
           ("text", ["left-value"], Some d);
           ("text", ["right-value"], Some d);
           ("rect", ["left-bar"], Some d);
           ("rect", ["right-bar"], Some d)]%string.
Proof.
  intros Hr Hu Hd.
  destruct (@groups_after data element config queryResponse v v' rs Hr Hu Hd)
    as (s' & Hs' & Hg).
  exists s'. split; [exact Hs' |]. intros g Hin Hm.
  destruct (Hg g Hin Hm) as (base & i & d & Hd' & ->).
  exists d. split; [exact Hd' |].
  unfold row_group. cbn [self kids listeners map].
  destruct (truncateText_frame (legendTextWidth v')
              (set_text (rowNameSelector d)
                 (attr "y" (ANum (rowHeight v' / Fin 2)%num)
                    (attr "x" (ANum (Fin 8))
                       (mk_legend_text (createElement "text" (Some d)))))))
    as (F1 & _ & F3 & F4).
  unfold legend_of. rewrite F1, F3, F4.
  repeat split.
Qed.

(** X15: after a validated call, in every row group the highlight rectangle
    spans the width of the container and the height of the row, the value
    texts show the left and the right value of the row, and the legend text,
    placed at 8 like the value texts at half the row height, shows the name
    of the row when the name fits [legendTextWidth] (or is empty); when it
    does not, it shows the longest proper prefix of the name that fits once
    the ellipsis is appended (every longer prefix with the ellipsis is too
    wide), or the ellipsis alone when no prefix of at least one character
    does. *)
Theorem row_group_texts (data : VisData) (element : HTMLElement)
  (config : VisConfig) (queryResponse : VisQueryResponse)
  (v v' : DoubleBar) (rs : DoubleBarData) :
  reachable v ->
  updateAsync data element config queryResponse v = Ok (v', 1%nat) ->
  createChartData data config = Ok rs ->
  exists s' : svgT,
    svg v' = Some s' /\
    forall g,
      In g (children s') ->
      matches (mkSel "g" "chart-row") (self g) = true ->
      exists d hl lg lv rv lb rb,
        In d (rows rs) /\
        kids g = [hl; lg; lv; rv; lb; rb] /\
        matches (mkSel "rect" "row-highlight") hl = true /\
        matches (mkSel "text" "legend-text") lg = true /\
        matches (mkSel "text" "left-value") lv = true /\
        matches (mkSel "text" "right-value") rv = true /\
        get_attr "width" (attrs hl) = Some (ANum (Num.ofZ (clientWidth element))) /\
        get_attr "height" (attrs hl) = Some (ANum (rowHeight v')) /\
        text lv = numberToString (left d) /\
        text rv = numberToString (right d) /\
        get_attr "y" (attrs lv) = Some (ANum (rowHeight v' / Fin 2)%num) /\
        get_attr "y" (attrs rv) = Some (ANum (rowHeight v' / Fin 2)%num) /\
        get_attr "x" (attrs lg) = Some (ANum (Fin 8)) /\
        get_attr "y" (attrs lg) = Some (ANum (rowHeight v' / Fin 2)%num) /\
        (fits (legendTextWidth v') (set_text (name d) lg) \/
         name d = EmptyString ->
         text lg = name d) /\
        (~ fits (legendTextWidth v') (set_text (name d) lg) ->
         name d <> EmptyString ->
         exists j,
           (j < String.length (name d))%nat /\
           text lg = (substring 0 j (name d) ++ ellipsis)%string /\
           (forall j', (j < j' < String.length (name d))%nat ->
              ~ fits (legendTextWidth v')
                  (set_text (substring 0 j' (name d) ++ ellipsis)%string lg)) /\
           (fits (legendTextWidth v') lg \/ j = O)).
Proof.
  intros Hr Hu Hd.
  destruct (@updateAsync_returns _ data element config queryResponse v _ _ Hu)
    as [(_ & _ & K) | (Hv & d0 & Hd0)]; [discriminate K |].
  destruct (@updateAsync_scene _ data element config queryResponse v rs
              (reachable_scene_ok Hr) Hv Hd)
    as (v'' & s & s' & T & N & base & a & E & _ & Hs' & Hc & HT & HN & _ & _ &
        _ & _ & _ & _ & Hw & _).
  rewrite E in Hu. inversion Hu. subst v''.
  exists s'. split; [exact Hs' |]. intros g Hg Hm. rewrite Hc in Hg.
  destruct (@group_of_scene _ v' config base (rows rs) T N g HT HN Hg Hm)
    as (i & d & Hin & ->).
  exists d, (highlight_of v' d), (legend_of v' d), (left_value_of v' d),
    (right_value_of v' d), (left_bar_of v' config d), (right_bar_of v' config d).
  split; [exact Hin |]. split; [reflexivity |].
  split; [reflexivity |].
  split; [unfold legend_of; rewrite matches_truncateText; reflexivity |].
  split; [reflexivity |]. split; [reflexivity |].
  split; [unfold highlight_of; rewrite Hw; reflexivity |].
  split; [reflexivity |]. split; [reflexivity |]. split; [reflexivity |].
  split; [reflexivity |]. split; [reflexivity |].
  unfold legend_of.
  set (el := set_text (rowNameSelector d)
               (attr "y" (ANum (rowHeight v' / Fin 2)%num)
                  (attr "x" (ANum (Fin 8))
                     (mk_legend_text (createElement "text" (Some d)))))).
  destruct (truncateText_frame (legendTextWidth v') el) as (_ & F2 & _).
  rewrite F2.
  split; [reflexivity |]. split; [reflexivity |].
  unfold truncateText.
  pose proof (truncate_loop_first (legendTextWidth v') (text el)
                (String.length (text el)) el) as H.
  cbv zeta in H. change (text el) with (name d) in H |- *.
  assert (Full : forall t, set_text (name d) (set_text t el) = el) by reflexivity.
  destruct H as [[Er C] | (j & Hj & Er & NF & Hb & C)].
  - rewrite Er. split; [reflexivity |].
    intros NF He. exfalso. destruct C as [C | C].
    + apply NF. exact C.
    + apply He. destruct (name d); [reflexivity | discriminate C].
  - rewrite Er. rewrite Full. split.
    + intros [F | He]; [destruct (NF F) |].
      rewrite He in Hj. cbn in Hj. lia.
    + intros _ _. exists j. split; [exact Hj |]. split; [reflexivity |].
      split; [| rewrite <- Er; exact C].
      intros j' Hj'. rewrite set_text_set_text. apply Hb. exact Hj'.
Qed.

(** X16: after a validated call the left bar of every row group is filled
    with the left colour of the configuration and the right bar with the
    right colour; a colour that is absent or empty is replaced by the
    default of the option, [#FEC500] on the left and [#42B3D5] on the
    right. *)
Theorem bar_colours (data : VisData) (element : HTMLElement)
  (config : VisConfig) (queryResponse : VisQueryResponse)
  (v v' : DoubleBar) (rs : DoubleBarData) :
  reachable v ->
  updateAsync data element config queryResponse v = Ok (v', 1%nat) ->
  createChartData data config = Ok rs ->
  exists (s' : svgT) (cl cr : string),
    svg v' = Some s' /\
    (forall g e,
       In g (children s') -> In e (kids g) ->
       (matches (mkSel "rect" "left-bar") e = true ->
        get_attr "fill" (attrs e) = Some (AStr cl)) /\
       (matches (mkSel "rect" "right-bar") e = true ->
        get_attr "fill" (attrs e) = Some (AStr cr))) /\
    (leftColor config = None \/ leftColor config = Some EmptyString ->
     cl = "#FEC500"%string) /\
    (forall c, leftColor config = Some c -> c <> EmptyString -> cl = c) /\
    (rightColor config = None \/ rightColor config = Some EmptyString ->
     cr = "#42B3D5"%string) /\
    (forall c, rightColor config = Some c -> c <> EmptyString -> cr = c).
Proof.
  intros Hr Hu Hd.
  destruct (@updateAsync_returns _ data element config queryResponse v _ _ Hu)
    as [(_ & _ & K) | (Hv & d0 & Hd0)]; [discriminate K |].
  destruct (@updateAsync_scene _ data element config queryResponse v rs
              (reachable_scene_ok Hr) Hv Hd)
    as (v'' & s & s' & T & N & base & a & E & _ & Hs' & Hc & HT & HN & _).
  rewrite E in Hu. inversion Hu. subst v''.
  exists s', (color_or (leftColor config) leftColor_default),
    (color_or (rightColor config) rightColor_default).
  split; [exact Hs' |]. split.
  { intros g e Hg He. rewrite Hc in Hg.
    destruct (@parent_of_scene _ v' config base (rows rs) T N g e HT HN Hg He)
      as (i & d & Hin & ->).
    unfold row_group in He. cbn [kids] in He.
    destruct He as [<- | [<- | [<- | [<- | [<- | [<- | []]]]]]];
      try (split; intros K; discriminate K).
    - unfold legend_of. rewrite !matches_truncateText.
      split; intros K; discriminate K.
    - split; [intros _; reflexivity | intros K; discriminate K].
    - split; [intros K; discriminate K | intros _; reflexivity]. }
  unfold color_or.
  split; [intros [-> | ->]; reflexivity |].
  split; [intros c -> Hne; destruct c; [contradiction | reflexivity] |].
  split; [intros [-> | ->]; reflexivity |].
  intros c -> Hne. destruct c; [contradiction | reflexivity].
Qed.

End RowContents.

(** Scenario A: no colour configured, the bars take the default colours. *)
Lemma bar_colours_witness :
  reachable (browser := sample_browser) (create vis) /\
  exists (s' : svgT) (cl cr : string),
    svg (sample_after sample_data) = Some s' /\
    cl = "#FEC500"%string /\ cr = "#42B3D5"%string.
Proof.
  split; [apply reach_create |].
  destruct (@bar_colours sample_browser sample_data sample_element
              sample_config sample_response (create vis)
              (sample_after sample_data) sample_chart reach_create)
    as (s' & cl & cr & Hs & _ & L & _ & R & _).
  - vm_compute. reflexivity.
  - reflexivity.
  - exists s', cl, cr. split; [exact Hs |].
    split; [apply L; left; reflexivity | apply R; left; reflexivity].
Defined.

(** Scenario A: two groups of six children. *)
Lemma row_group_children_witness :
  reachable (browser := sample_browser) (create vis) /\
  exists s' : svgT,
    svg (sample_after sample_data) = Some s' /\
    forall g,
      In g (children s') ->
      matches (mkSel "g" "chart-row") (self g) = true ->
      List.length (kids g) = 6%nat.
Proof.
  split; [apply reach_create |].
  destruct (@row_group_children sample_browser sample_data sample_element
              sample_config sample_response (create vis)
              (sample_after sample_data) sample_chart reach_create)
    as (s' & Hs & Hg).
  - vm_compute. reflexivity.
  - reflexivity.
  - exists s'. split; [exact Hs |]. intros g Hin Hm.
    destruct (Hg g Hin Hm) as (d & _ & _ & _ & _ & K).
    apply (f_equal (@List.length _)) in K. rewrite length_map in K. exact K.
Defined.

(** Scenario A: the value texts of the groups show the values. *)
Lemma row_group_texts_witness :
  reachable (browser := sample_browser) (create vis) /\
  exists s' : svgT,
    svg (sample_after sample_data) = Some s' /\
    forall g,
      In g (children s') ->
      matches (mkSel "g" "chart-row") (self g) = true ->
      exists d hl lg lv rv lb rb,
        In d (rows sample_chart) /\
        kids g = [hl; lg; lv; rv; lb; rb] /\
        text lv = @numberToString sample_browser (left d).
Proof.
  split; [apply reach_create |].
  destruct (@row_group_texts sample_browser sample_data sample_element
              sample_config sample_response (create vis)
              (sample_after sample_data) sample_chart reach_create)
    as (s' & Hs & Hg).
  - vm_compute. reflexivity.
  - reflexivity.
  - exists s'. split; [exact Hs |]. intros g Hin Hm.
    destruct (Hg g Hin Hm)
      as (d & hl & lg & lv & rv & lb & rb & A & B & _ & _ & _ & _ & _ & _ & C & _).
    exists d, hl, lg, lv, rv, lb, rb. repeat split; assumption.
Defined.

(** ** The domain of the row scale *)

Lemma index_of_seq_none (k n i : nat) :
  (i < k \/ k + n <= i)%nat -> index_of i (seq k n) = None.
Proof.
  revert k. induction n as [| n IH]; intros k H; [reflexivity |].
  cbn [seq index_of].
  replace (Nat.eqb k i) with false by (symmetry; apply Nat.eqb_neq; lia).
  rewrite IH by lia. reflexivity.
Qed.

Lemma rescale_domain_range (s : ScaleBand) :
  band_domain (rescale s) = band_domain s /\
  List.length (band_ordinalRange (rescale s)) = List.length (band_domain s).
Proof.
  unfold rescale. cbn [band_domain band_ordinalRange]. split; [reflexivity |].
  destruct (Num.lt (snd (band_range s)) (fst (band_range s)));
    rewrite ?length_rev, length_map, length_seq; reflexivity.
Qed.

Lemma band_set_range_domain (r : num * num) (z : ScaleBand) :
  band_domain (band_set_range r z) = band_domain z /\
  List.length (band_ordinalRange (band_set_range r z))
  = List.length (band_domain z).
Proof.
  unfold band_set_range.
  match goal with
  | |- context [rescale ?r] => exact (rescale_domain_range r)
  end.
Qed.

Section RowDomain.
Context {browser : Browser}.

(** X17: after a validated call the domain of the row scale is the sequence
    of the indices of the rows, one per record of the query result, and the
    scale has as many positions: it gives a position to an index exactly
    when a row has this index, and is undefined beyond. *)
Theorem row_scale_domain (data : VisData) (element : HTMLElement)
  (config : VisConfig) (queryResponse : VisQueryResponse)
  (v v' : DoubleBar) (rs : DoubleBarData) :
  reachable v ->
  updateAsync data element config queryResponse v = Ok (v', 1%nat) ->
  createChartData data config = Ok rs ->
  band_domain (rowYPosition v') = sequence (List.length data) /\
  List.length (rows rs) = List.length data /\
  forall i : nat,
    band_apply (rowYPosition v') i = None <-> (List.length data <= i)%nat.
Proof.
  intros Hr Hu Hd.
  destruct (@updateAsync_returns _ data element config queryResponse v _ _ Hu)
    as [(_ & _ & K) | (Hv & d0 & Hd0)]; [discriminate K |].
  destruct (@updateAsync_scene _ data element config queryResponse v rs
              (reachable_scene_ok Hr) Hv Hd)
    as (v'' & s & s' & T & N & base & a & E & _ & _ & _ & _ & _ & _ & _ &
        _ & _ & _ & _ & _ & _ & _ & HY & _).
  rewrite E in Hu. inversion Hu. subst v''.
  pose proof (createChartData_length data config Hd) as Hlen.
  destruct (band_set_range_domain (Fin 15, Num.ofZ (clientHeight element))
              (rowYPosition (setupInputs rs v))) as [D L].
  rewrite <- HY in D, L.
  rewrite setupInputs_rowYPosition, band_domain_sequence, Hlen in D.
  rewrite setupInputs_rowYPosition, band_domain_sequence, length_seq, Hlen in L.
  split; [exact D |]. split; [exact Hlen |].
  intros i. unfold band_apply. rewrite D, L.
  destruct (Nat.lt_ge_cases i (List.length data)) as [Hi | Hi].
  - rewrite (@index_of_seq 0 (List.length data) i Hi
             : index_of i (seq 0 (List.length data)) = Some i).
    rewrite Nat.mod_small by exact Hi. split; [| lia].
    intros K. apply nth_error_None in K. lia.
  - rewrite index_of_seq_none by lia. split; [intros _; exact Hi | reflexivity].
Qed.

End RowDomain.

(** Scenario A: two records, indices 0 and 1. *)
Lemma row_scale_domain_witness :
  reachable (browser := sample_browser) (create vis) /\
  band_domain (rowYPosition (sample_after sample_data)) = [0; 1]%nat.
Proof.
  split; [apply reach_create |].
  destruct (@row_scale_domain sample_browser sample_data sample_element
              sample_config sample_response (create vis)
              (sample_after sample_data) sample_chart reach_create)
    as (D & _).
  - vm_compute. reflexivity.
  - reflexivity.
  - exact D.
Defined.

(** ** The title texts over the cycles *)

Lemma existsb_none {A : Type} (p : A -> bool) (l : list A) :
  Forall (fun x => p x = false) l -> existsb p l = false.
Proof.
  induction 1 as [| x l Hx Hl IH]; cbn; [reflexivity |].
  rewrite Hx, IH. reflexivity.
Qed.

Section Titles.
Context {browser : Browser}.

Lemma title_update_written (w : num) (t : string) (x : num)
  (cls : string) (b : bool) (t0 : string) (x0 : num) :
  title_update w t x (written_title cls b t0 x0)
  = title_update w t x (mk_title cls b).
Proof.
  unfold title_update, written_title. f_equal. destruct b; reflexivity.
Qed.

Lemma title_update_is_written (w : num) (t : string) (x : num)
  (cls : string) (b : bool) :
  exists t', title_update w t x (mk_title cls b) = written_title cls b t' x.
Proof.
  unfold title_update. rewrite truncateText_shape.
  eexists. unfold written_title. reflexivity.
Qed.

Lemma title_update_matches (w : num) (t : string) (x : num) :
  matches (mkSel "text" "left-title")
          (title_update w t x (mk_title "left-title title" true)) = true /\
  matches (mkSel "text" "right-title")
          (title_update w t x (mk_title "left-title title" true)) = false /\
  matches (mkSel "text" "title")
          (title_update w t x (mk_title "left-title title" true)) = true /\
  matches (mkSel "text" "title")
          (title_update w t x (mk_title "right-title title" false)) = true.
Proof.
  unfold title_update. rewrite !matches_truncateText. repeat split.
Qed.

Lemma getters_with_svg (x : option svgT) (v : DoubleBar) :
  titleTextWidth (with_svg x v) = titleTextWidth v /\
  barOriginX (with_svg x v) = barOriginX v.
Proof. split; reflexivity. Qed.

(** [setupSizing] on the scene [setupRender] leaves, in full. *)
Lemma setupSizing_exact (d : DoubleBarData) (config : VisConfig) (v : DoubleBar)
  (tip : Tip) (s : svgT) (base : nat) (T N : list node) :
  tooltip v = Some tip ->
  svgRows v = Some (sel_ids base (List.length (rows d))) ->
  svg v = Some s ->
  children s = T ++ groups_from (rendered_group config base) (rows d) ++ N ->
  outside base (List.length (rows d)) T ->
  outside base (List.length (rows d)) N ->
  setupSizing d v
  = Ok (with_svg
          (Some (set_children
                   (select_first (mkSel "text" "right-title")
                      (title_update (titleTextWidth (setupSizing_scales tip v))
                         (rightTitle d)
                         (barOriginX (setupSizing_scales tip v) + Fin 10)%num)
                      (select_first (mkSel "text" "left-title")
                         (title_update (titleTextWidth (setupSizing_scales tip v))
                            (leftTitle d)
                            (barOriginX (setupSizing_scales tip v) - Fin 10)%num)
                         (T ++ groups_from
                                 (row_group (setupSizing_scales tip v) config base)
                                 (rows d) ++ N))) s))
          (setupSizing_scales tip v)).
Proof.
  intros Htip Hsel Hs Hch HoT HoN.
  unfold setupSizing. rewrite Htip. cbv zeta.
  destruct (setupSizing_scales_fields tip v) as (E1 & E2 & _).
  rewrite E1, E2, Hsel, Hs, Hch.
  rewrite (@setupSizing_scene_groups _ d config (setupSizing_scales tip v)
             base T N HoT HoN).
  reflexivity.
Qed.

(** The scene a validated call leaves, in full. *)
Lemma updateAsync_exact (data : VisData) (element : HTMLElement)
  (config : VisConfig) (queryResponse : VisQueryResponse)
  (v : DoubleBar) (d : DoubleBarData) :
  scene_ok v ->
  validateInputs queryResponse = true ->
  createChartData data config = Ok d ->
  exists (v' : DoubleBar) (s s' : svgT) (base : nat),
    updateAsync data element config queryResponse v = Ok (v', 1%nat) /\
    svg v = Some s /\ svg v' = Some s' /\
    (fresh s <= base)%nat /\
    svgRows v' = Some (sel_ids base (List.length (rows d))) /\
    children s'
    = select_first (mkSel "text" "right-title")
        (title_update (titleTextWidth v') (rightTitle d)
           (barOriginX v' + Fin 10)%num)
        (select_first (mkSel "text" "left-title")
           (title_update (titleTextWidth v') (leftTitle d)
              (barOriginX v' - Fin 10)%num)
           (remove (rows_selection v) (children s)
            ++ groups_from (row_group v' config base) (rows d)
            ++ [left_title_node (base + List.length (rows d));
                right_title_node (S (base + List.length (rows d)))])).
Proof.
  intros (s & Hs & Hfresh & Hdummy & Htitles & Hcount) Hvalid Hdata.
  set (n := List.length (rows d)).
  set (T := remove (rows_selection v) (children s)) in *.
  assert (HTfresh : Forall (fun x => (nid x < fresh s)%nat) T).
  { unfold T, remove. apply Forall_forall. intros x Hx.
    apply filter_In in Hx. rewrite Forall_forall in Hfresh.
    apply Hfresh. apply Hx. }
  unfold updateAsync. rewrite Hvalid. cbn [negb].
  cbn [svg with_size]. rewrite Hs, Hdata. cbn [bind].
  match goal with
  | |- context [determineMaxBarValueWidth _ ?w] => set (v3 := w)
  end.
  destruct (@determineMaxBarValueWidth_scene _ (rows d) v3 _ eq_refl)
    as (a & P).
  { exact Hfresh. }
  { exact Hdummy. }
  rewrite P. cbn [bind]. fold n. cbn [svg_attrs children fresh svg_attr].
  set (base := (fresh s + n + n)%nat).
  assert (HTbase : Forall (fun x => (nid x < base)%nat) T).
  { revert HTfresh. apply Forall_impl. intros x Hx. unfold base. lia. }
  match goal with
  | |- context [setupRender d config ?w] => set (v4 := w)
  end.
  rewrite (@setupRender_scene _ d config v4 _ T eq_refl);
    [| discriminate | reflexivity | exact Htitles | exact HTbase ].
  cbn [bind]. fold n. cbn [svg_attrs children fresh svg_attr].
  set (N := [left_title_node (base + n); right_title_node (S (base + n))]).
  match goal with
  | |- context [setupSizing d ?w] => set (v5 := w)
  end.
  assert (HoT : outside base n T) by (apply outside_weaken; exact HTbase).
  assert (HoN : outside base n N).
  { repeat constructor; cbn; lia. }
  rewrite (@setupSizing_exact d config v5
             {| tip_class := "d3-tooltip"; tip_offset := (Fin 0, Fin 0) |}
             _ base T N eq_refl eq_refl eq_refl eq_refl HoT HoN).
  cbn [bind].
  set (v6 := setupSizing_scales _ v5).
  eexists. exists s. eexists. exists base.
  split; [reflexivity |].
  split; [reflexivity |].
  split; [reflexivity |].
  split; [unfold base; lia |].
  split; [reflexivity |].
  cbn [children set_children]. rewrite groups_with_svg.
  match goal with
  | |- context [titleTextWidth (with_svg ?x ?w)] =>
      destruct (getters_with_svg x w) as [G1 G2]
  end.
  rewrite G1, G2. reflexivity.
Qed.


Lemma select_first_hit (q : selector) (f : elem -> elem) (n : node)
  (ns : list node) :
  matches q (self n) = true ->
  select_first q f (n :: ns) = set_self f n :: ns.
Proof. intros H. cbn [select_first]. rewrite H. reflexivity. Qed.

Lemma select_first_skip (q : selector) (f : elem -> elem) (n : node)
  (ns : list node) :
  matches q (self n) = false ->
  kids n = [] ->
  select_first q f (n :: ns) = n :: select_first q f ns.
Proof. intros H K. cbn [select_first]. rewrite H, K. reflexivity. Qed.

(** The two [select] chains of [setupSizing] on the scene [setupRender]
    leaves: they rewrite the first left and the first right title in
    document order, the oldest ones. *)
Lemma titles_cycle (v' : DoubleBar) (config : VisConfig) (d : DoubleBarData)
  (base idl idr : nat) (T : list node) :
  titles_shape T ->
  exists (T' N' : list node) (l r : node) (rest : list node),
    select_first (mkSel "text" "right-title")
      (title_update (titleTextWidth v') (rightTitle d) (barOriginX v' + Fin 10)%num)
      (select_first (mkSel "text" "left-title")
         (title_update (titleTextWidth v') (leftTitle d) (barOriginX v' - Fin 10)%num)
         (T ++ groups_from (row_group v' config base) (rows d)
            ++ [left_title_node idl; right_title_node idr]))
    = T' ++ groups_from (row_group v' config base) (rows d) ++ N' /\
    T' ++ N' = l :: r :: rest /\
    map nid T' = map nid T /\
    map nid N' = [idl; idr] /\
    kids l = [] /\
    self l = title_update (titleTextWidth v') (leftTitle d)
               (barOriginX v' - Fin 10)%num (mk_title "left-title title" true) /\
    kids r = [] /\
    self r = title_update (titleTextWidth v') (rightTitle d)
               (barOriginX v' + Fin 10)%num (mk_title "right-title title" false) /\
    Forall blank_title rest /\
    List.length rest = List.length T.
Proof.
  intros HT.
  set (fl := title_update (titleTextWidth v') (leftTitle d) (barOriginX v' - Fin 10)%num).
  set (fr := title_update (titleTextWidth v') (rightTitle d) (barOriginX v' + Fin 10)%num).
  set (G := groups_from (row_group v' config base) (rows d)).
  assert (QL : ~ In (sel_class (mkSel "text" "left-title"))
                    ["chart-row"; "row-highlight"; "legend-text"; "left-value";
                     "right-value"; "left-bar"; "right-bar"]%string)
    by (apply not_in_group_classes; cbn; tauto).
  assert (QR : ~ In (sel_class (mkSel "text" "right-title"))
                    ["chart-row"; "row-highlight"; "legend-text"; "left-value";
                     "right-value"; "left-bar"; "right-bar"]%string)
    by (apply not_in_group_classes; cbn; tauto).
  destruct (@groups_no_kid_match _ (mkSel "text" "left-title") fl v' config base
              (rows d) QL) as [KL ML].
  destruct (@groups_no_kid_match _ (mkSel "text" "right-title") fr v' config base
              (rows d) QR) as [KR MR].
  fold G in KL, ML, KR, MR.
  destruct (@title_update_matches (titleTextWidth v') (leftTitle d)
              (barOriginX v' - Fin 10)%num) as (_ & NoR & _).
  fold fl in NoR.
  destruct HT as [-> | (l & r & T0 & -> & Kl & (tl & xl & Sl) & Kr & (tr & xr & Sr) & HB)].
  - cbn [app].
    rewrite (select_first_app _ _ _ KL), (existsb_none _ ML).
    rewrite (@select_first_hit (mkSel "text" "left-title") fl
               (left_title_node idl) [right_title_node idr])
      by reflexivity.
    rewrite (select_first_app _ _ _ KR), (existsb_none _ MR).
    rewrite (@select_first_skip (mkSel "text" "right-title") fr
               (set_self fl (left_title_node idl)) [right_title_node idr])
      by (first [exact NoR | reflexivity]).
    rewrite (@select_first_hit (mkSel "text" "right-title") fr
               (right_title_node idr) [])
      by reflexivity.
    exists [], [set_self fl (left_title_node idl); set_self fr (right_title_node idr)],
      (set_self fl (left_title_node idl)), (set_self fr (right_title_node idr)), [].
    repeat split. constructor.
  - cbn [app].
    rewrite (@select_first_hit (mkSel "text" "left-title") fl l)
      by (rewrite Sl; reflexivity).
    rewrite (@select_first_skip (mkSel "text" "right-title") fr (set_self fl l)).
    2:{ cbn [self set_self]. rewrite Sl. unfold fl.
        rewrite title_update_written. exact NoR. }
    2:{ exact Kl. }
    rewrite (@select_first_hit (mkSel "text" "right-title") fr r)
      by (rewrite Sr; reflexivity).
    exists (set_self fl l :: set_self fr r :: T0),
      [left_title_node idl; right_title_node idr],
      (set_self fl l), (set_self fr r),
      (T0 ++ [left_title_node idl; right_title_node idr]).
    split; [reflexivity |]. split; [reflexivity |].
    split; [reflexivity |]. split; [reflexivity |].
    split; [exact Kl |].
    split; [cbn [self set_self]; rewrite Sl; unfold fl;
            apply title_update_written |].
    split; [exact Kr |].
    split; [cbn [self set_self]; rewrite Sr; unfold fr;
            apply title_update_written |].
    split.
    + apply Forall_app. split; [exact HB |].
      constructor; [split; [reflexivity | left; reflexivity] |].
      constructor; [split; [reflexivity | right; reflexivity] | constructor].
    + rewrite length_app. cbn [List.length]. lia.
Qed.

Lemma outside_of_ids (from n : nat) (ns ns' : list node) :
  map nid ns' = map nid ns -> outside from n ns -> outside from n ns'.
Proof.
  unfold outside. intros E H.
  rewrite <- (Forall_map nid (fun i => (i < from \/ from + n <= i)%nat)) in H |- *.
  rewrite E. exact H.
Qed.

(** What a validated call makes of the title texts of a scene. *)
Lemma titles_after (data : VisData) (element : HTMLElement)
  (config : VisConfig) (queryResponse : VisQueryResponse)
  (v v' : DoubleBar) (rs : DoubleBarData) (s : svgT) :
  scene_ok v ->
  svg v = Some s ->
  titles_shape (remove (rows_selection v) (children s)) ->
  updateAsync data element config queryResponse v = Ok (v', 1%nat) ->
  createChartData data config = Ok rs ->
  exists (s' : svgT) (T' N' : list node) (base : nat) (l r : node)
         (rest : list node),
    svg v' = Some s' /\
    children s' = T' ++ groups_from (row_group v' config base) (rows rs) ++ N' /\
    remove (rows_selection v') (children s') = T' ++ N' /\
    T' ++ N' = l :: r :: rest /\
    kids l = [] /\
    self l = title_update (titleTextWidth v') (leftTitle rs)
               (barOriginX v' - Fin 10)%num (mk_title "left-title title" true) /\
    kids r = [] /\
    self r = title_update (titleTextWidth v') (rightTitle rs)
               (barOriginX v' + Fin 10)%num (mk_title "right-title title" false) /\
    Forall blank_title rest /\
    List.length rest = List.length (remove (rows_selection v) (children s)).
Proof.
  intros Hok Hs Hshape Hu Hd.
  destruct (@updateAsync_returns _ data element config queryResponse v _ _ Hu)
    as [(_ & _ & K) | (Hv & d0 & Hd0)]; [discriminate K |].
  destruct (@updateAsync_exact data element config queryResponse v rs Hok Hv Hd)
    as (v'' & s0 & s' & base & E & Hs0 & Hs' & Hbase & Hsel & Hc).
  rewrite E in Hu. inversion Hu. subst v''.
  rewrite Hs in Hs0. inversion Hs0. subst s0.
  destruct (@titles_cycle v' config rs base
              (base + List.length (rows rs)) (S (base + List.length (rows rs)))
              (remove (rows_selection v) (children s)) Hshape)
    as (T' & N' & l & r & rest & Ec & Et & IdT & IdN & Kl & Sl & Kr & Sr & HB & Len).
  rewrite Ec in Hc.
  assert (HoT : outside base (List.length (rows rs))
                  (remove (rows_selection v) (children s))).
  { destruct Hok as (s1 & Hs1 & Hfresh & _).
    rewrite Hs in Hs1. inversion Hs1. subst s1.
    apply outside_weaken. unfold remove. apply Forall_forall. intros x Hx.
    apply filter_In in Hx. rewrite Forall_forall in Hfresh.
    specialize (Hfresh x (proj1 Hx)). lia. }
  assert (HoT' : outside base (List.length (rows rs)) T').
  { apply (outside_of_ids _ IdT HoT). }
  assert (HoN' : outside base (List.length (rows rs)) N').
  { apply (@outside_of_ids base (List.length (rows rs))
             [left_title_node (base + List.length (rows rs));
              right_title_node (S (base + List.length (rows rs)))] N' IdN).
    repeat constructor; cbn; lia. }
  exists s', T', N', base, l, r, rest.
  split; [exact Hs' |]. split; [exact Hc |].
  split.
  { unfold rows_selection. rewrite Hsel, Hc.
    apply remove_groups; [reflexivity | exact HoT' | exact HoN']. }
  repeat split; assumption.
Qed.

(** Over the cycles the title texts keep the shape [titles_shape]. *)
Lemma reachable_titles (v : DoubleBar) :
  reachable v ->
  exists s, svg v = Some s /\
            titles_shape (remove (rows_selection v) (children s)).
Proof.
  induction 1 as [| v data element config queryResponse v' calls Hr IH Hu].
  - eexists. split; [reflexivity |]. left. reflexivity.
  - destruct (@updateAsync_returns _ data element config queryResponse v _ _ Hu)
      as [(_ & -> & _) | (Hv & d & Hd)]; [exact IH |].
    destruct IH as (s & Hs & Hshape).
    assert (Hcalls : calls = 1%nat).
    { destruct (@updateAsync_scene _ data element config queryResponse v d
                  (reachable_scene_ok Hr) Hv Hd)
        as (v'' & s1 & s2 & T & N & base & a & E & _).
      rewrite E in Hu. inversion Hu. reflexivity. }
    subst calls.
    destruct (@titles_after data element config queryResponse v v' d s
                (reachable_scene_ok Hr) Hs Hshape Hu Hd)
      as (s' & T' & N' & base & l & r & rest & Hs' & _ & Hrem & Et & Kl & Sl &
          Kr & Sr & HB & _).
    exists s'. split; [exact Hs' |]. rewrite Hrem, Et. right.
    exists l, r, rest. split; [reflexivity |].
    split; [exact Kl |].
    split.
    { destruct (title_update_is_written (titleTextWidth v') (leftTitle d)
                  (barOriginX v' - Fin 10)%num "left-title title" true)
        as (t' & Et').
      exists t', (barOriginX v' - Fin 10)%num. rewrite Sl. exact Et'. }
    split; [exact Kr |].
    split; [| exact HB].
    destruct (title_update_is_written (titleTextWidth v') (rightTitle d)
                (barOriginX v' + Fin 10)%num "right-title title" false)
      as (t' & Et').
    exists t', (barOriginX v' + Fin 10)%num. rewrite Sr. exact Et'.
Qed.

(** X18: after every validated call on an instance the host can hold, the
    title texts of the scene are, in document order, one left title showing
    the label of the left measure of this call, cut to [titleTextWidth], 10
    left of [barOriginX], one right title showing the label of the right
    measure 10 right of it, and then as many title texts as the scene held
    before the call, all of them blank: the two [select] chains always
    rewrite the oldest pair of titles, and the pair each call appends stays
    without text and position from the second call on. *)
Theorem titles_oldest_pair_written (data : VisData) (element : HTMLElement)
  (config : VisConfig) (queryResponse : VisQueryResponse)
  (v v' : DoubleBar) (rs : DoubleBarData) :
  reachable v ->
  updateAsync data element config queryResponse v = Ok (v', 1%nat) ->
  createChartData data config = Ok rs ->
  exists (s' : svgT) (l r : node) (rest : list node),
    svg v' = Some s' /\
    filter (fun n => matches (mkSel "text" "title") (self n)) (children s')
    = l :: r :: rest /\
    self l = title_update (titleTextWidth v') (leftTitle rs)
               (barOriginX v' - Fin 10)%num (mk_title "left-title title" true) /\
    self r = title_update (titleTextWidth v') (rightTitle rs)
               (barOriginX v' + Fin 10)%num (mk_title "right-title title" false) /\
    Forall blank_title rest /\
    List.length rest = title_texts v.
Proof.
  intros Hr Hu Hd.
  pose proof (reachable_scene_ok Hr) as Hok.
  destruct (reachable_titles Hr) as (s & Hs & Hshape).
  destruct (@titles_after data element config queryResponse v v' rs s
              Hok Hs Hshape Hu Hd)
    as (s' & T' & N' & base & l & r & rest & Hs' & Hc & _ & Et & Kl & Sl &
        Kr & Sr & HB & Len).
  exists s', l, r, rest. split; [exact Hs' |].
  destruct (@title_update_matches (titleTextWidth v') (leftTitle rs)
              (barOriginX v' - Fin 10)%num) as (_ & _ & ML & _).
  destruct (@title_update_matches (titleTextWidth v') (rightTitle rs)
              (barOriginX v' + Fin 10)%num) as (_ & _ & _ & MR).
  split.
  { rewrite Hc, !filter_app.
    rewrite (@filter_none _ (fun n => matches (mkSel "text" "title") (self n))
               (groups_from (row_group v' config base) (rows rs))).
    2:{ intros x Hx. unfold groups_from in Hx. apply in_map_iff in Hx.
        destruct Hx as (p & <- & _).
        apply (@row_group_no_match _ (mkSel "text" "title") v' config base
                 (fst p) (snd p)).
        apply not_in_group_classes. cbn. tauto. }
    cbn [app]. rewrite <- filter_app, Et.
    apply forallb_filter_id. cbn [forallb].
    rewrite Sl, Sr, ML, MR. cbn [andb].
    apply forallb_forall. intros x Hx. rewrite Forall_forall in HB.
    destruct (HB x Hx) as (_ & [-> | ->]); reflexivity. }
  split; [exact Sl |]. split; [exact Sr |]. split; [exact HB |].
  rewrite Len. unfold title_texts. rewrite Hs.
  destruct Hok as (s1 & Hs1 & _ & _ & _ & Hcount).
  rewrite Hs in Hs1. inversion Hs1. subst s1. symmetry. exact Hcount.
Qed.

End Titles.

(** Scenario A on the empty scene: the two titles appended are written,
    and there is no other. *)
Lemma titles_oldest_pair_written_witness :
  reachable (browser := sample_browser) (create vis) /\
  exists (s' : svgT) (l r : node) (rest : list node),
    svg (sample_after sample_data) = Some s' /\
    filter (fun n => matches (mkSel "text" "title") (self n)) (children s')
    = l :: r :: rest /\
    List.length rest = O.
Proof.
  split; [apply reach_create |].
  destruct (@titles_oldest_pair_written sample_browser sample_data
              sample_element sample_config sample_response (create vis)
              (sample_after sample_data) sample_chart reach_create)
    as (s' & l & r & rest & Hs & Hf & _ & _ & _ & Len).
  - vm_compute. reflexivity.
  - reflexivity.
  - exists s', l, r, rest. split; [exact Hs |]. split; [exact Hf | exact Len].
Defined.

(** ** [create] on a used instance *)

Section Recreate.
Context {browser : Browser}.

(** X19: [create] leaves a scene without row group and without title text,
    whatever the instance went through before; the next validated call on
    well-formed data then leaves one row group per record and exactly two
    title texts. *)
Theorem create_resets_scene (data : VisData) (element : HTMLElement)
  (config : VisConfig) (queryResponse : VisQueryResponse)
  (v : DoubleBar) (rs : DoubleBarData) :
  validateInputs queryResponse = true ->
  createChartData data config = Ok rs ->
  row_groups (create v) = O /\
  title_texts (create v) = O /\
  exists v',
    updateAsync data element config queryResponse (create v) = Ok (v', 1%nat) /\
    row_groups v' = List.length data /\
    title_texts v' = 2%nat.
Proof.
  intros Hv Hd. split; [reflexivity |]. split; [reflexivity |].
  destruct (@updateAsync_scene _ data element config queryResponse (create v) rs
              (scene_ok_create v) Hv Hd)
    as (v' & s & s' & T & N & base & a & E & Hs & Hs' & Hc & HT & HN & LT & LN & _).
  exists v'. split; [exact E |].
  destruct (@scene_counts _ v' config base (rows rs) T N s' Hc HT HN) as [Ct Cg].
  unfold row_groups, title_texts. rewrite Hs'.
  split; [rewrite Cg; apply (createChartData_length data config Hd) |].
  rewrite Ct, LT, LN.
  unfold create in Hs. cbn [svg with_svg] in Hs. inversion Hs. reflexivity.
Qed.

End Recreate.

(** ** What a cycle leaves does not depend on the cycles before *)

Lemma fold_left_combine_seq {A B : Type} (g : B -> A -> B) (l : list A)
  (k : nat) (b : B) :
  fold_left (fun acc p => g acc (snd p)) (combine (seq k (List.length l)) l) b
  = fold_left g l b.
Proof.
  revert k b. induction l as [| x l IH]; intros k b; cbn; [reflexivity |].
  apply IH.
Qed.

Lemma band_set_range_ext (r : num * num) (z1 z2 : ScaleBand) :
  band_domain z1 = band_domain z2 ->
  band_paddingInner z1 = band_paddingInner z2 ->
  band_paddingOuter z1 = band_paddingOuter z2 ->
  band_align z1 = band_align z2 ->
  band_set_range r z1 = band_set_range r z2.
Proof.
  intros H1 H2 H3 H4. unfold band_set_range, rescale.
  cbn [band_domain band_range band_paddingInner band_paddingOuter band_align].
  rewrite H1, H2, H3, H4. reflexivity.
Qed.

Section History.
Context {browser : Browser}.

(** The measuring loop over the nodes appended for the entering rows, as a
    function of the rows. *)
Lemma probe_fold_exact (mk : DoubleBarRow -> elem) (from n : nat)
  (l : list (nat * DoubleBarRow)) (a : Q) :
  (forall p, In p l -> (fst p < n)%nat) ->
  fold_left
    (fun acc x =>
       if selected (sel_ids from n) x
       then Some (Num.max (Num.toNumber acc)
                          (Fin (getComputedTextLength (self x))))
       else acc)
    (map (fun p => mkNode (from + fst p) [] (mk (snd p)) []) l)
    (Some (Fin a))
  = Some (Fin (fold_left
                 (fun acc p =>
                    if Qltb acc (getComputedTextLength (mk (snd p)))
                    then getComputedTextLength (mk (snd p))
                    else acc)
                 l a)).
Proof.
  revert a. induction l as [| p l IH]; intros a Hl; [reflexivity |].
  cbn [map fold_left]. unfold selected at 2. cbn [nid self].
  rewrite sel_index_inside by (apply Hl; left; reflexivity).
  cbn [Num.toNumber Num.max].
  apply IH. intros q Hq. apply Hl. right. exact Hq.
Qed.

Lemma probe_scene_exact (cls : string) (valueof : DoubleBarRow -> num)
  (rowData : list DoubleBarRow) (v : DoubleBar) (s : svgT) (a : Q) :
  svg v = Some s ->
  maxBarLabelWidth v = Some (Fin a) ->
  Forall (fun n => (nid n < fresh s)%nat) (children s) ->
  Forall (fun e => matches (mkSel "text" cls) e = false)
         (descendants (children s)) ->
  probe cls valueof rowData v
  = Ok (with_svg
          (Some {| svg_attrs := svg_attrs s;
                   children := children s;
                   fresh := fresh s + List.length rowData |})
          (with_maxBarLabelWidth
             (Some (Fin (label_max cls valueof rowData a))) v)).
Proof.
  intros Hs Hm Hfresh Hnone. unfold probe. rewrite Hs.
  rewrite data_join_none by exact Hnone.
  unfold enter_append. rewrite Nat.sub_diag, enter_nodes_groups.
  rewrite selection_of_groups with (from := fresh s) by reflexivity.
  cbn [children]. rewrite Hm.
  rewrite fold_left_app.
  rewrite (@probe_fold_old _ (fresh s) (List.length rowData) (children s))
    by (apply outside_weaken; exact Hfresh).
  unfold groups_from. cbn [fst snd].
  pose proof (@probe_fold_exact (dummy_label cls valueof) (fresh s)
                (List.length rowData)
                (combine (seq 0 (List.length rowData)) rowData) a) as E.
  unfold dummy_label in E at 1.
  rewrite E by (intros p Hp; apply in_combine_seq in Hp; lia).
  rewrite (fold_left_combine_seq
             (fun acc d =>
                if Qltb acc (getComputedTextLength (dummy_label cls valueof d))
                then getComputedTextLength (dummy_label cls valueof d)
                else acc) rowData 0 a).
  fold (label_max cls valueof rowData a).
  fold (groups_from
          (fun i d => mkNode (fresh s + i) []
                        (set_text (numberToString (valueof d))
                           (attr "font-size" (ANum (Fin 12))
                              (attr "font-family" (AStr "sans-serif")
                                 (attr "class" (AStr cls)
                                    (createElement "text" (Some d)))))) [])
          rowData).
  rewrite <- (app_nil_r (groups_from _ rowData)).
  rewrite remove_groups;
    [| reflexivity | apply outside_weaken; exact Hfresh | constructor].
  rewrite app_nil_r. reflexivity.
Qed.

Lemma determineMaxBarValueWidth_exact (rowData : list DoubleBarRow)
  (v : DoubleBar) (s : svgT) :
  svg v = Some s ->
  Forall (fun n => (nid n < fresh s)%nat) (children s) ->
  Forall (fun e => matches (mkSel "text" "dummy-left") e = false /\
                   matches (mkSel "text" "dummy-right") e = false)
         (descendants (children s)) ->
  determineMaxBarValueWidth rowData v
  = Ok (with_svg
          (Some {| svg_attrs := svg_attrs s;
                   children := children s;
                   fresh := fresh s + List.length rowData + List.length rowData |})
          (with_maxBarLabelWidth
             (Some (Fin (label_max "dummy-right" rowRightSelector rowData
                           (label_max "dummy-left" rowLeftSelector rowData 0))))
             v)).
Proof.
  intros Hs Hfresh Hdummy. unfold determineMaxBarValueWidth.
  rewrite (@probe_scene_exact "dummy-left"%string rowLeftSelector rowData
             (with_maxBarLabelWidth (Some (Fin 0)) v) s 0 Hs eq_refl Hfresh).
  2:{ revert Hdummy. apply Forall_impl. intros e He. apply He. }
  cbn [bind].
  rewrite (@probe_scene_exact "dummy-right"%string rowRightSelector rowData
             (with_svg
                (Some {| svg_attrs := svg_attrs s;
                         children := children s;
                         fresh := fresh s + List.length rowData |})
                (with_maxBarLabelWidth
                   (Some (Fin (label_max "dummy-left" rowLeftSelector rowData 0)))
                   (with_maxBarLabelWidth (Some (Fin 0)) v)))
             _ (label_max "dummy-left" rowLeftSelector rowData 0)
             eq_refl eq_refl).
  - reflexivity.
  - cbn [children fresh]. revert Hfresh. apply Forall_impl. intros x Hx. lia.
  - cbn [children]. revert Hdummy. apply Forall_impl. intros e He. apply He.
Qed.

(** The label width a validated call leaves is the one measured on the rows
    of this call. *)
Lemma updateAsync_label_width (data : VisData) (element : HTMLElement)
  (config : VisConfig) (queryResponse : VisQueryResponse)
  (v v' : DoubleBar) (d : DoubleBarData) :
  scene_ok v ->
  updateAsync data element config queryResponse v = Ok (v', 1%nat) ->
  createChartData data config = Ok d ->
  maxBarLabelWidth v'
  = Some (Fin (label_max "dummy-right" rowRightSelector (rows d)
                 (label_max "dummy-left" rowLeftSelector (rows d) 0))).
Proof.
  intros (s & Hs & Hfresh & Hdummy & _) Hu Hd.
  destruct (@updateAsync_returns _ data element config queryResponse v _ _ Hu)
    as [(_ & _ & K) | (Hv & _)]; [discriminate K |].
  unfold updateAsync in Hu. rewrite Hv in Hu. cbn [negb svg with_size] in Hu.
  rewrite Hs, Hd in Hu. cbn [bind] in Hu.
  match type of Hu with
  | context [determineMaxBarValueWidth _ ?w] => set (v3 := w) in Hu
  end.
  rewrite (@determineMaxBarValueWidth_exact (rows d) v3 _ eq_refl Hfresh Hdummy)
    in Hu.
  cbn [bind] in Hu.
  match type of Hu with
  | context [setupRender d config ?w] => set (v4 := w) in Hu
  end.
  destruct (setupRender d config v4) as [v5 |] eqn:P3;
    [cbn [bind] in Hu | discriminate Hu].
  destruct (setupSizing d v5) as [v6 |] eqn:P4;
    [cbn [bind] in Hu | discriminate Hu].
  inversion Hu. subst v6.
  apply setupRender_frame in P3. destruct P3 as (_ & _ & _ & M3).
  apply setupSizing_frame in P4. destruct P4 as (tip & _ & _ & _ & _ & M4).
  rewrite M4, M3. reflexivity.
Qed.

(** A row group reads the width, the row scale and the value scales of the
    instance, nothing else. *)
Lemma row_group_ext (v1 v2 : DoubleBar) (config : VisConfig)
  (b1 b2 i : nat) (d : DoubleBarRow) :
  width v1 = width v2 ->
  rowYPosition v1 = rowYPosition v2 ->
  leftBarWidth v1 = leftBarWidth v2 ->
  rightBarWidth v1 = rightBarWidth v2 ->
  listeners (row_group v1 config b1 i d) = listeners (row_group v2 config b2 i d) /\
  self (row_group v1 config b1 i d) = self (row_group v2 config b2 i d) /\
  kids (row_group v1 config b1 i d) = kids (row_group v2 config b2 i d).
Proof.
  intros H1 H2 H3 H4.
  unfold row_group, highlight_of, legend_of, left_value_of, right_value_of,
    left_bar_of, right_bar_of, legendTextWidth, legendWidth, barOriginX,
    halfGraphWidth, graphWidth, barMargin, rowHighlightThickness, barHeight,
    rowHeight.
  cbn [listeners self kids]. rewrite H1, H2, H3, H4. repeat split.
Qed.

(** X20: what a validated call leaves in the instance and in the row groups
    depends on the arguments of this call alone, not on the calls before:
    from any two instances the host can hold, the same call leaves the same
    size, label width, tooltip, row scale and value scales, and row groups
    with the same listeners, elements and children (only the identities of
    the nodes and the title texts tell the two scenes apart). *)
Theorem update_forgets_history (data : VisData) (element : HTMLElement)
  (config : VisConfig) (queryResponse : VisQueryResponse)
  (v1 v2 v1' v2' : DoubleBar) :
  reachable v1 ->
  reachable v2 ->
  updateAsync data element config queryResponse v1 = Ok (v1', 1%nat) ->
  updateAsync data element config queryResponse v2 = Ok (v2', 1%nat) ->
  width v1' = width v2' /\
  height v1' = height v2' /\
  maxBarLabelWidth v1' = maxBarLabelWidth v2' /\
  tooltip v1' = tooltip v2' /\
  rowYPosition v1' = rowYPosition v2' /\
  leftBarWidth v1' = leftBarWidth v2' /\
  rightBarWidth v1' = rightBarWidth v2' /\
  exists s1 s2 : svgT,
    svg v1' = Some s1 /\ svg v2' = Some s2 /\
    map (fun g => (listeners g, self g, kids g))
        (filter (fun g => matches (mkSel "g" "chart-row") (self g)) (children s1))
    = map (fun g => (listeners g, self g, kids g))
          (filter (fun g => matches (mkSel "g" "chart-row") (self g)) (children s2)).
Proof.
  intros Hr1 Hr2 Hu1 Hu2.
  destruct (@updateAsync_returns _ data element config queryResponse v1 _ _ Hu1)
    as [(_ & _ & K) | (Hv & d & Hd)]; [discriminate K |].
  pose proof (reachable_scene_ok Hr1) as Hok1.
  pose proof (reachable_scene_ok Hr2) as Hok2.
  destruct (@updateAsync_scene _ data element config queryResponse v1 d Hok1 Hv Hd)
    as (w1 & s1 & s1' & T1 & N1 & base1 & a1 & E1 & _ & Hs1 & Hc1 & HT1 & HN1 &
        _ & _ & _ & _ & _ & _ & Hw1 & Hh1 & _ & HY1 & HL1 & HR1).
  rewrite E1 in Hu1. inversion Hu1. subst w1.
  destruct (@updateAsync_scene _ data element config queryResponse v2 d Hok2 Hv Hd)
    as (w2 & s2 & s2' & T2 & N2 & base2 & a2 & E2 & _ & Hs2 & Hc2 & HT2 & HN2 &
        _ & _ & _ & _ & _ & _ & Hw2 & Hh2 & _ & HY2 & HL2 & HR2).
  rewrite E2 in Hu2. inversion Hu2. subst w2.
  pose proof (@updateAsync_label_width data element config queryResponse
                v1 v1' d Hok1 E1 Hd) as Hm1.
  pose proof (@updateAsync_label_width data element config queryResponse
                v2 v2' d Hok2 E2 Hd) as Hm2.
  destruct (updateAsync_frame _ _ _ _ _ Hv E1) as (Ht1 & _).
  destruct (updateAsync_frame _ _ _ _ _ Hv E2) as (Ht2 & _).
  assert (EW : width v1' = width v2') by congruence.
  assert (EM : maxBarLabelWidth v1' = maxBarLabelWidth v2') by congruence.
  assert (EB : barOriginX v1' = barOriginX v2').
  { unfold barOriginX, halfGraphWidth, graphWidth. rewrite EW. reflexivity. }
  assert (EG : halfGraphBarMaxWidth v1' = halfGraphBarMaxWidth v2').
  { unfold halfGraphBarMaxWidth, halfGraphWidth, graphWidth.
    rewrite EW, EM. reflexivity. }
  assert (EY : rowYPosition v1' = rowYPosition v2').
  { rewrite HY1, HY2. apply band_set_range_ext.
    - rewrite !setupInputs_rowYPosition, !band_domain_sequence. reflexivity.
    - rewrite !setupInputs_rowYPosition.
      destruct (row_scale_paddings (rowYPosition v1) (List.length (rows d)))
        as (A & _).
      destruct (row_scale_paddings (rowYPosition v2) (List.length (rows d)))
        as (B & _).
      rewrite A, B. reflexivity.
    - rewrite !setupInputs_rowYPosition.
      destruct (row_scale_paddings (rowYPosition v1) (List.length (rows d)))
        as (_ & A & _).
      destruct (row_scale_paddings (rowYPosition v2) (List.length (rows d)))
        as (_ & B & _).
      rewrite A, B. reflexivity.
    - rewrite !setupInputs_rowYPosition.
      destruct (row_scale_paddings (rowYPosition v1) (List.length (rows d)))
        as (_ & _ & A).
      destruct (row_scale_paddings (rowYPosition v2) (List.length (rows d)))
        as (_ & _ & B).
      rewrite A, B, (reachable_align Hr1), (reachable_align Hr2). reflexivity. }
  destruct (setupInputs_fields d v1) as (_ & _ & _ & _ & _ & DL1 & DR1 & _).
  destruct (setupInputs_fields d v2) as (_ & _ & _ & _ & _ & DL2 & DR2 & _).
  cbv zeta in DL1, DR1, DL2, DR2.
  assert (EL : leftBarWidth v1' = leftBarWidth v2').
  { rewrite HL1, HL2. unfold linear_set_range. rewrite DL1, DL2, EG. reflexivity. }
  assert (ER : rightBarWidth v1' = rightBarWidth v2').
  { rewrite HR1, HR2. unfold linear_set_range. rewrite DR1, DR2, EG. reflexivity. }
  split; [exact EW |]. split; [congruence |]. split; [exact EM |].
  split; [rewrite Ht1, Ht2, EB; reflexivity |].
  split; [exact EY |]. split; [exact EL |]. split; [exact ER |].
  exists s1', s2'. split; [exact Hs1 |]. split; [exact Hs2 |].
  assert (NoT : forall l, Forall title_node l ->
            filter (fun g => matches (mkSel "g" "chart-row") (self g)) l = []).
  { intros l Hl. apply filter_none. intros x Hx.
    rewrite Forall_forall in Hl. apply (title_not_group (Hl x Hx)). }
  assert (All : forall w b,
            filter (fun g => matches (mkSel "g" "chart-row") (self g))
                   (groups_from (row_group w config b) (rows d))
            = groups_from (row_group w config b) (rows d)).
  { intros w b. apply forallb_filter_id. apply forallb_forall. intros x Hx.
    unfold groups_from in Hx. apply in_map_iff in Hx.
    destruct Hx as (p & <- & _). reflexivity. }
  rewrite Hc1, Hc2, !filter_app, (NoT T1 HT1), (NoT N1 HN1), (NoT T2 HT2),
    (NoT N2 HN2), !All, !app_nil_r.
  cbn [app]. unfold groups_from. rewrite !map_map. apply map_ext. intros p.
  destruct (@row_group_ext v1' v2' config base1 base2 (fst p) (snd p) EW EY EL ER)
    as (A & B & C).
  rewrite A, B, C. reflexivity.
Qed.

End History.

(** Scenario A run on the empty scene and on the scene it leaves. *)
Lemma update_forgets_history_witness :
  reachable (browser := sample_browser) (create vis) /\
  reachable (browser := sample_browser) (sample_after sample_data) /\
  exists v2',
    @updateAsync sample_browser sample_data sample_element sample_config
      sample_response (sample_after sample_data) = Ok (v2', 1%nat) /\
    maxBarLabelWidth (sample_after sample_data) = maxBarLabelWidth v2' /\
    leftBarWidth (sample_after sample_data) = leftBarWidth v2'.
Proof.
  assert (E1 : @updateAsync sample_browser sample_data sample_element sample_config
                 sample_response (create vis) = Ok (sample_after sample_data, 1%nat))
    by (vm_compute; reflexivity).
  assert (R : reachable (browser := sample_browser) (sample_after sample_data)).
  { apply (@reach_update sample_browser (create vis) sample_data sample_element
             sample_config sample_response (sample_after sample_data) 1%nat
             reach_create E1). }
  split; [apply reach_create |]. split; [exact R |].
  destruct (@updateAsync_scene sample_browser sample_data sample_element
              sample_config sample_response (sample_after sample_data)
              sample_chart (reachable_scene_ok R) eq_refl eq_refl)
    as (v2' & s & s' & T & N & base & a & E2 & _).
  exists v2'. split; [exact E2 |].
  destruct (@update_forgets_history sample_browser sample_data sample_element
              sample_config sample_response (create vis)
              (sample_after sample_data) (sample_after sample_data) v2'
              reach_create R E1 E2)
    as (_ & _ & M & _ & _ & L & _).
  split; [exact M | exact L].
Defined.

(** The instance scenario A leaves, created anew, then scenario A again:
    two row groups and two title texts, not four. *)
Lemma create_resets_scene_witness :
  validateInputs sample_response = true /\
  createChartData sample_data sample_config = Ok sample_chart /\
  exists v',
    @updateAsync sample_browser sample_data sample_element sample_config
      sample_response (create (sample_after sample_data)) = Ok (v', 1%nat) /\
    row_groups v' = 2%nat /\
    title_texts v' = 2%nat.
Proof.
  split; [reflexivity |]. split; [reflexivity |].
  apply (@create_resets_scene sample_browser sample_data sample_element
           sample_config sample_response (sample_after sample_data)
           sample_chart eq_refl eq_refl).
Defined.
